(** * Labour reporting: the storage engine of [app.py]

    A shallow embedding of the storage functions of [src/app.py] (the per-day
    counter, the record codec, the aggregate appender, the atomic writer and
    the day query), and the properties of the specification checked against
    them.

    Conventions of the embedding.
    - A Python [str] is the list of its Unicode code points, a Python [bytes]
      the list of its byte values; both are lists of [N].
    - A Python [int] is a [Z].
    - A call that may raise returns a [result]; [try]/[except] is a match on it.
    - Files live in a finite map from paths to contents; an open file object
      is its content together with the stream position. *)

From Stdlib Require Import ZArith NArith QArith Qround List String Ascii Lia Lqa Bool Sorted.
From stdpp Require Import base gmap list strings.

Open Scope N_scope.

(** ** Text and bytes *)

Abbreviation str := (list N).
Abbreviation bytes := (list N).

(** A literal: the code points of an ASCII string. *)
Definition lit (s : string) : list N :=
  List.map N_of_ascii (list_ascii_of_string s).

Definition between (lo hi c : N) : bool := (lo <=? c) && (c <=? hi).

(** [str.isspace] of one character: the code points CPython's
    [_PyUnicode_IsWhitespace] accepts. *)
Definition py_isspace (c : N) : bool :=
  between 9 13 c || between 28 32 c || (c =? 133) || (c =? 160)
  || (c =? 5760) || between 8192 8202 c || (c =? 8232) || (c =? 8233)
  || (c =? 8239) || (c =? 8287) || (c =? 12288).

(** What [bytes.strip()] removes: space, tab, newline, return, VT, FF. *)
Definition bytes_isspace (b : N) : bool := (b =? 32) || between 9 13 b.

Fixpoint lstrip_with (p : N -> bool) (s : list N) : list N :=
  match s with
  | [] => []
  | c :: r => if p c then lstrip_with p r else s
  end.

Definition rstrip_with (p : N -> bool) (s : list N) : list N :=
  rev (lstrip_with p (rev s)).

(** [s.strip()] on a [str]. *)
Definition strip (s : str) : str := rstrip_with py_isspace (lstrip_with py_isspace s).

(** [b.lstrip(b"\x00").lstrip()] on [bytes], as both readers of XML files do. *)
Definition lstrip_padding (b : bytes) : bytes :=
  lstrip_with bytes_isspace (lstrip_with (N.eqb 0) b).

(** *** Decimal digits *)

(** The last [w] decimal digits of [n], least significant first. *)
Fixpoint digits_le (w : nat) (n : N) : list N :=
  match w with
  | O => []
  | S w' => (48 + n mod 10) :: digits_le w' (n / 10)
  end.

(** [n] printed on exactly [w] digits (as [%02d], [%04d] do for small [n]). *)
Definition zfill (w : nat) (n : N) : str := rev (digits_le w n).

Fixpoint drop_zeros (s : str) : str :=
  match s with
  | c :: (_ :: _) as r => if c =? 48 then drop_zeros r else s
  | _ => s
  end.

Definition str_of_N (n : N) : str :=
  drop_zeros (zfill (S (N.to_nat (N.log2 n))) n).

(** [str(i)] for an [int]. *)
Definition str_of_int (z : Z) : str :=
  match z with
  | Z0 => str_of_N 0
  | Zpos p => str_of_N (Npos p)
  | Zneg p => 45 :: str_of_N (Npos p)
  end.

(** *** The part of the Unicode character database the code consults

    [str.isdigit] accepts the characters that have a digit value
    (Numeric_Type Digit or Decimal); [int] converts only those with a
    decimal value (Numeric_Type Decimal).  The two tables are given for the
    code points below U+0100, where they are: the ten ASCII digits for both,
    and superscript two, three and one for [isdigit] only.  Code points from
    U+0100 on are not classified here, and statements that depend on the
    classification bound the text accordingly. *)
Definition uni_decimal (c : N) : option N :=
  if between 48 57 c then Some (c - 48) else None.

Definition uni_digit (c : N) : option N :=
  if between 48 57 c then Some (c - 48)
  else if c =? 178 then Some 2
  else if c =? 179 then Some 3
  else if c =? 185 then Some 1
  else None.

(** [s.isdigit()]: non-empty and every character has a digit value. *)
Definition isdigit (s : str) : bool :=
  match s with
  | [] => false
  | _ => forallb (fun c => match uni_digit c with Some _ => true | None => false end) s
  end.

(** ** Exceptions *)

Inductive exn : Type :=
| ValueError
| ParseError
| FileNotFoundError
| OtherError.

Inductive result (A : Type) : Type :=
| Ok (a : A)
| Raise (e : exn).
Arguments Ok {A} a.
Arguments Raise {A} e.

(** [int(s)] on a [str]: surrounding whitespace is dropped (the white space
    of [str.strip] except the separators U+001C to U+001F, which [int]
    refuses), one sign is allowed, digits may be grouped by single
    underscores, and every digit must have a decimal value; anything else
    raises [ValueError].  Integers
    are unbounded here: the limit recent interpreters put on the number of
    digits [int] and [str] convert (4300 unless configured otherwise) is not
    part of the model, and statements about arbitrary numbers bound them
    well below it. *)
Inductive int_state : Type := IntStart | IntDigit | IntUnderscore.

Fixpoint int_digits (st : int_state) (acc : N) (s : str) : option N :=
  match s with
  | [] => match st with IntDigit => Some acc | _ => None end
  | c :: r =>
      if c =? 95 then
        match st with IntDigit => int_digits IntUnderscore acc r | _ => None end
      else
        match uni_decimal c with
        | Some d => int_digits IntDigit (acc * 10 + d) r
        | None => None
        end
  end.

Definition int_isspace (c : N) : bool := py_isspace c && negb (between 28 31 c).

(** What [int] and [float] drop around the number. *)
Definition int_strip (s : str) : str :=
  rstrip_with int_isspace (lstrip_with int_isspace s).

Definition py_int (s : str) : result Z :=
  let body (sign : Z) (t : str) :=
    match int_digits IntStart 0 t with
    | Some n => Ok (sign * Z.of_N n)%Z
    | None => Raise ValueError
    end in
  match int_strip s with
  | c :: t =>
      if c =? 43 then body 1%Z t
      else if c =? 45 then body (-1)%Z t
      else body 1%Z (c :: t)
  | [] => body 1%Z []
  end.

(** *** UTF-8 *)

Definition is_cont (b : N) : bool := between 128 191 b.

(** [b.decode("utf-8", errors="ignore")]: well-formed sequences give their
    code point; at an ill-formed one the longest prefix that could start a
    well-formed sequence is dropped and decoding resumes behind it. *)
Fixpoint decode_utf8_ignore (b : bytes) : str :=
  match b with
  | [] => []
  | b0 :: r0 =>
      if b0 <? 128 then b0 :: decode_utf8_ignore r0
      else if between 194 223 b0 then
        match r0 with
        | b1 :: r1 =>
            if is_cont b1 then ((b0 - 192) * 64 + (b1 - 128)) :: decode_utf8_ignore r1
            else decode_utf8_ignore r0
        | [] => []
        end
      else if between 224 239 b0 then
        match r0 with
        | b1 :: r1 =>
            let lo := if b0 =? 224 then 160 else 128 in
            let hi := if b0 =? 237 then 159 else 191 in
            if between lo hi b1 then
              match r1 with
              | b2 :: r2 =>
                  if is_cont b2 then
                    ((b0 - 224) * 4096 + (b1 - 128) * 64 + (b2 - 128))
                      :: decode_utf8_ignore r2
                  else decode_utf8_ignore r1
              | [] => []
              end
            else decode_utf8_ignore r0
        | [] => []
        end
      else if between 240 244 b0 then
        match r0 with
        | b1 :: r1 =>
            let lo := if b0 =? 240 then 144 else 128 in
            let hi := if b0 =? 244 then 143 else 191 in
            if between lo hi b1 then
              match r1 with
              | b2 :: r2 =>
                  if is_cont b2 then
                    match r2 with
                    | b3 :: r3 =>
                        if is_cont b3 then
                          ((b0 - 240) * 262144 + (b1 - 128) * 4096
                           + (b2 - 128) * 64 + (b3 - 128))
                            :: decode_utf8_ignore r3
                        else decode_utf8_ignore r2
                    | [] => []
                    end
                  else decode_utf8_ignore r1
              | [] => []
              end
            else decode_utf8_ignore r0
        | [] => []
        end
      else decode_utf8_ignore r0
  end.

(** A Unicode scalar value: a code point that is no surrogate. *)
Definition is_scalar (c : N) : bool := (c <? 55296) || between 57344 1114111 c.

(** [s.encode("utf-8")] of one code point and of a string (surrogates, which
    Python refuses to encode, are outside the texts considered). *)
Definition encode_cp (c : N) : bytes :=
  if c <? 128 then [c]
  else if c <? 2048 then [192 + c / 64; 128 + c mod 64]
  else if c <? 65536 then [224 + c / 4096; 128 + (c / 64) mod 64; 128 + c mod 64]
  else [240 + c / 262144; 128 + (c / 4096) mod 64; 128 + (c / 64) mod 64; 128 + c mod 64].

Definition encode_utf8 (s : str) : bytes := flat_map encode_cp s.

(** ** Dates and their formatting *)

(** A [datetime.date]; a [datetime.datetime] adds the time of day. *)
Record date : Type := { year : Z; month : Z; day : Z }.

Record datetime : Type :=
  { dt_date : date; hour : Z; minute : Z; second : Z }.

Definition date_eqb (a b : date) : bool :=
  ((year a =? year b) && (month a =? month b) && (day a =? day b))%Z.

(** Days since 1970-01-01 in the proleptic Gregorian calendar. *)
Definition days_from_civil (d : date) : Z :=
  (let y := if month d <=? 2 then year d - 1 else year d in
   let era := y / 400 in
   let yoe := y - era * 400 in
   let mp := (month d + 9) mod 12 in
   let doy := (153 * mp + 2) / 5 + day d - 1 in
   let doe := yoe * 365 + yoe / 4 - yoe / 100 + doy in
   era * 146097 + doe - 719468)%Z.

(** [%a]: the abbreviated weekday name. *)
Definition weekday_abbr (d : date) : str :=
  match ((days_from_civil d + 3) mod 7)%Z with
  | 0%Z => lit "Mon" | 1%Z => lit "Tue" | 2%Z => lit "Wed" | 3%Z => lit "Thu"
  | 4%Z => lit "Fri" | 5%Z => lit "Sat" | _ => lit "Sun"
  end.

(** [%Y-%m-%d] (years are printed on four digits). *)
Definition fmt_ymd (d : date) : str :=
  zfill 4 (Z.to_N (year d)) ++ lit "-" ++ zfill 2 (Z.to_N (month d))
  ++ lit "-" ++ zfill 2 (Z.to_N (day d)).

(** [%H:%M:%S]. *)
Definition fmt_hms (t : datetime) : str :=
  zfill 2 (Z.to_N (hour t)) ++ lit ":" ++ zfill 2 (Z.to_N (minute t))
  ++ lit ":" ++ zfill 2 (Z.to_N (second t)).

(** [fmt_dt]: [dt.strftime("%Y-%m-%d %H:%M:%S")]. *)
Definition fmt_dt (t : datetime) : str :=
  fmt_ymd (dt_date t) ++ lit " " ++ fmt_hms t.

(** ** Files *)

(** The files of the data directory, by path. *)
Abbreviation fs := (gmap (list N) (list N)).

Definition BASE_DIR : str := lit "data".

(** [BASE_DIR / name]. *)
Definition in_base_dir (name : str) : str := BASE_DIR ++ lit "/" ++ name.

Definition path_exists (files : fs) (p : str) : bool :=
  match files !! p with Some _ => true | None => false end.

(** An open binary file object: the file's bytes and the stream position. *)
Record fobj : Type := { f_data : bytes; f_pos : nat }.

(** Programs over one open file object that may raise. *)
Definition FIO (A : Type) : Type := fobj -> result A * fobj.

Definition fret {A} (a : A) : FIO A := fun f => (Ok a, f).

Definition fbind {A B} (m : FIO A) (k : A -> FIO B) : FIO B :=
  fun f =>
    match m f with
    | (Ok a, f') => k a f'
    | (Raise e, f') => (Raise e, f')
    end.

Notation "x <- m ;; k" := (fbind m (fun x => k))
  (at level 100, m at next level, right associativity).
Notation "m ;;; k" := (fbind m (fun _ => k))
  (at level 100, right associativity).

(** A pure step that may raise. *)
Definition lift {A} (r : result A) : FIO A := fun f => (r, f).

(** The file's bytes up to [p], with zeros where [p] lies behind its end. *)
Definition upto (p : nat) (d : bytes) : bytes :=
  take p (d ++ replicate (p - length d) 0).

(** [f.seek(0)], [f.seek(0, os.SEEK_END)], [f.tell()], [f.read()],
    [f.write(b)] and [f.truncate()]. *)
Definition f_seek0 : FIO unit :=
  fun f => (Ok tt, {| f_data := f_data f; f_pos := 0 |}).

Definition f_seek_end : FIO unit :=
  fun f => (Ok tt, {| f_data := f_data f; f_pos := length (f_data f) |}).

Definition f_tell : FIO nat := fun f => (Ok (f_pos f), f).

Definition f_read : FIO bytes :=
  fun f => (Ok (drop (f_pos f) (f_data f)),
            {| f_data := f_data f; f_pos := Nat.max (f_pos f) (length (f_data f)) |}).

Definition f_write (b : bytes) : FIO unit :=
  fun f => (Ok tt,
            {| f_data := upto (f_pos f) (f_data f) ++ b
                         ++ drop (f_pos f + length b) (f_data f);
               f_pos := (f_pos f + length b)%nat |}).

Definition f_truncate : FIO unit :=
  fun f => (Ok tt, {| f_data := upto (f_pos f) (f_data f); f_pos := f_pos f |}).

(** The two modes the program opens locked files with. *)
Inductive open_mode : Type := RPlusB | WPlusB.

(** ["r" in mode and "+" in mode]. *)
Definition mode_is_update (m : open_mode) : bool :=
  match m with RPlusB => true | WPlusB => false end.

(** [open(path, mode)]: ["r+b"] needs the file, ["w+b"] creates or empties it. *)
Definition open_file (files : fs) (p : str) (m : open_mode) : result (fobj * fs) :=
  match m with
  | RPlusB =>
      match files !! p with
      | Some d => Ok ({| f_data := d; f_pos := 0 |}, files)
      | None => Raise FileNotFoundError
      end
  | WPlusB => Ok ({| f_data := []; f_pos := 0 |}, <[p := []]> files)
  end.

(** The placeholder byte [locked_file] writes into an empty file on
    Windows before locking it. *)
Definition nt_placeholder : FIO unit :=
  f_seek_end ;;;
  n <- f_tell ;;
  (if (n =? 0)%nat then f_write (lit " ") else fret tt) ;;;
  f_seek0.

(** [with locked_file(path, mode) as f: body], run by one process alone:
    the lock is free, the body works on the open file, and what it wrote is
    in the file when the file is closed, whether the body raised or not.
    [nt] is [os.name == "nt"]. *)
Definition locked_file {A} (nt : bool) (p : str) (m : open_mode)
    (body : FIO A) (files : fs) : result A * fs :=
  let files1 :=
    if mode_is_update m && negb (path_exists files p)
    then <[p := []]> files else files in
  match open_file files1 p m with
  | Raise e => (Raise e, files1)
  | Ok (f, files2) =>
      let '(r, f') := ((if nt then nt_placeholder else fret tt) ;;; body) f in
      (r, <[p := f_data f']> files2)
  end.

(** ** The per-day counter *)

Definition COUNTER_START : Z := 300.

(** [counter_file_for_day]: the name is printed from the day's midnight,
    which the code first hands to [tz.localize]; the path is given here for
    the days [day_ok] accepts, where that call returns and the year is
    printed on four digits, and statements that a call returns are made
    for those days. *)
Definition counter_file_for_day (d : date) : str :=
  in_base_dir (fmt_ymd d ++ lit "_" ++ weekday_abbr d ++ lit "_counter.txt").

(** The value the counter reads from the file's bytes. *)
Definition read_counter (b : bytes) : result Z :=
  let raw := strip (decode_utf8_ignore b) in
  match (if isdigit raw then py_int raw else Ok COUNTER_START) with
  | Ok current => Ok (if (current <? COUNTER_START)%Z then COUNTER_START else current)
  | Raise e => Raise e
  end.

(** The body of the [with] block of [get_next_occupation_id_for_day]. *)
Definition counter_body : FIO Z :=
  f_seek0 ;;;
  b <- f_read ;;
  current <- lift (read_counter b) ;;
  let next_value := (current + 1)%Z in
  f_seek0 ;;;
  f_truncate ;;;
  f_write (encode_utf8 (str_of_int next_value)) ;;;
  fret current.

Definition get_next_occupation_id_for_day (nt : bool) (d : date) (files : fs)
    : result Z * fs :=
  let cfile := counter_file_for_day d in
  let files1 :=
    if path_exists files cfile then files
    else <[cfile := encode_utf8 (str_of_int COUNTER_START)]> files in
  locked_file nt cfile RPlusB counter_body files1.

(** The number a string of ASCII digits denotes, read after [acc]. *)
Definition dec_value (acc : N) (s : str) : N :=
  fold_left (fun a c => a * 10 + (c - 48)) s acc.

Definition is_ascii_digit (c : N) : bool := between 48 57 c.

(** Text of the 7-bit range: one byte per character in UTF-8. *)
Definition is_ascii (s : list N) : bool := forallb (fun c => c <? 128) s.

(** The bytes a locked file shows to the body: on Windows an empty file has
    received the placeholder. *)
Definition as_locked (nt : bool) (b : bytes) : bytes :=
  if nt then match b with nil => lit " " | _ :: _ => b end else b.


(** The bytes a call finds in the counter file: those of the file, or the
    initial text when the call has to create it. *)
Definition counter_bytes (d : date) (files : fs) : bytes :=
  default (encode_utf8 (str_of_int COUNTER_START)) (files !! counter_file_for_day d).

(** [n] calls of [get_next_occupation_id_for_day] for the same day, one
    after the other: the results in call order and the files left. *)
Fixpoint next_ids (nt : bool) (d : date) (n : nat) (files : fs)
    : list (result Z) * fs :=
  match n with
  | O => ([], files)
  | S k =>
      let '(r, files1) := get_next_occupation_id_for_day nt d files in
      let '(rs, files2) := next_ids nt d k files1 in
      (r :: rs, files2)
  end.

(** ** The counter, called by several processes at once

    Each process runs [get_next_occupation_id_for_day] for the same day (the
    POSIX branch of [locked_file]); the scheduler interleaves their
    statements.  A [pc] names the statement a process runs next, by its line
    in [app.py]. *)
Inductive pc : Type :=
| AtExists                  (* 168: if not cfile.exists() *)
| AtCreate                  (* 169: cfile.write_bytes(b"300") *)
| AtLockExists              (* 111: ... and not path.exists() *)
| AtLockCreate              (* 112: path.write_bytes(b"") *)
| AtOpen                    (* 114: f = open(path, mode) *)
| AtFlock                   (* 131: fcntl.flock(f, fcntl.LOCK_EX) *)
| AtRead                    (* 173-178: seek, read, parse, clamp *)
| AtTruncate (current : Z)  (* 180-181: f.seek(0); f.truncate() *)
| AtWrite (current : Z)     (* 182-185: f.write(...); flush; fsync *)
| AtUnlock (r : result Z)   (* 150-155: unlock and close *)
| Finished (r : result Z).  (* 187: return current, or the exception *)

(** What the processes share: the counter file ([None]: not there) and the
    holder of its lock. *)
Record shared : Type := { counter : option bytes; lock : option nat }.

Definition set_counter (b : bytes) (s : shared) : shared :=
  {| counter := Some b; lock := lock s |}.

Definition set_lock (l : option nat) (s : shared) : shared :=
  {| counter := counter s; lock := l |}.

Definition counter_now (s : shared) : bytes := default [] (counter s).

(** One statement of process [i]; [None] when it cannot run (the process
    waits for the lock, or has returned). *)
Definition step_proc (i : nat) (p : pc) (s : shared) : option (pc * shared) :=
  match p with
  | AtExists =>
      Some (match counter s with Some _ => AtLockExists | None => AtCreate end, s)
  | AtCreate =>
      Some (AtLockExists, set_counter (encode_utf8 (str_of_int COUNTER_START)) s)
  | AtLockExists =>
      Some (match counter s with Some _ => AtOpen | None => AtLockCreate end, s)
  | AtLockCreate => Some (AtOpen, set_counter [] s)
  | AtOpen =>
      Some (match counter s with
            | Some _ => AtFlock
            | None => Finished (Raise FileNotFoundError)
            end, s)
  | AtFlock =>
      match lock s with
      | None => Some (AtRead, set_lock (Some i) s)
      | Some _ => None
      end
  | AtRead =>
      Some (match read_counter (counter_now s) with
            | Ok current => AtTruncate current
            | Raise e => AtUnlock (Raise e)
            end, s)
  | AtTruncate current => Some (AtWrite current, set_counter [] s)
  | AtWrite current =>
      let text := encode_utf8 (str_of_int (current + 1)) in
      Some (AtUnlock (Ok current),
            set_counter (text ++ drop (length text) (counter_now s)) s)
  | AtUnlock r => Some (Finished r, set_lock None s)
  | Finished _ => None
  end.

Record system : Type := { sh : shared; procs : list pc }.

Definition step (i : nat) (s : system) : option system :=
  match procs s !! i with
  | Some p =>
      match step_proc i p (sh s) with
      | Some (p', sh') => Some {| sh := sh'; procs := <[i := p']> (procs s) |}
      | None => None
      end
  | None => None
  end.

(** A schedule names the process that runs each next statement. *)
Fixpoint run (sched : list nat) (s : system) : option system :=
  match sched with
  | [] => Some s
  | i :: rest =>
      match step i s with
      | Some s' => run rest s'
      | None => None
      end
  end.

(** [n] calls about to start, with the counter file as given. *)
Definition calls (n : nat) (file : option bytes) : system :=
  {| sh := {| counter := file; lock := None |}; procs := replicate n AtExists |}.

(** What each process returned, for those that have. *)
Definition returned (s : system) : list (option (result Z)) :=
  List.map (fun p => match p with Finished r => Some r | _ => None end) (procs s).

(** Process 0 finds no counter file and is preempted before it creates
    one; process 1 runs its whole call; then process 0 resumes. *)
Definition racy_schedule : list nat :=
  ([0] ++ replicate 9 1 ++ replicate 8 0)%nat.

(** ** The atomic writer *)

(** [path.with_suffix(path.suffix + ".tmp-" + hex)]: the name of the
    temporary file, [hex] being [uuid.uuid4().hex]. *)
Definition tmp_path (path hex : str) : str := path ++ lit ".tmp-" ++ hex.

(** [atomic_write_bytes(path, content)] run to its end. *)
Definition atomic_write_bytes (path hex : str) (content : bytes) (files : fs) : fs :=
  let tmp := tmp_path path hex in
  let files1 := <[tmp := content]> files in      (* 94: tmp.write_bytes(content) *)
  match files1 !! tmp with                        (* 95: os.replace(tmp, path) *)
  | Some c => <[path := c]> (delete tmp files1)
  | None => files1
  end.

(** The same call statement by statement, so that it can stop anywhere:
    [write_bytes] creates (or empties) the temporary file, writes the
    content in one or more pieces and closes the file; [os.replace] moves it
    over the target in one step. *)
Inductive aw_pc : Type :=
| AwStart                  (* 94: about to open the temporary file *)
| AwWriting (k : nat)      (* 94: open, [k] bytes written so far *)
| AwClosed                 (* 95: about to rename *)
| AwDone                   (* returned *)
| AwFailed.                (* an operation raised, or the process was stopped *)

Record aw_state : Type := { aw_files : fs; aw_at : aw_pc }.

Definition aw_running (p : aw_pc) : bool :=
  match p with AwDone | AwFailed => false | _ => true end.

Inductive aw_step (path hex : str) (content : bytes) : aw_state -> aw_state -> Prop :=
| aw_open (files : fs) :
    aw_step path hex content
      {| aw_files := files; aw_at := AwStart |}
      {| aw_files := <[tmp_path path hex := []]> files; aw_at := AwWriting 0 |}
| aw_write (files : fs) (k k' : nat) :
    (k < k')%nat -> (k' <= length content)%nat ->
    aw_step path hex content
      {| aw_files := files; aw_at := AwWriting k |}
      {| aw_files := <[tmp_path path hex := take k' content]> files;
         aw_at := AwWriting k' |}
| aw_close (files : fs) :
    aw_step path hex content
      {| aw_files := files; aw_at := AwWriting (length content) |}
      {| aw_files := files; aw_at := AwClosed |}
| aw_replace (files : fs) (c : bytes) :
    files !! tmp_path path hex = Some c ->
    aw_step path hex content
      {| aw_files := files; aw_at := AwClosed |}
      {| aw_files := <[path := c]> (delete (tmp_path path hex) files);
         aw_at := AwDone |}
| aw_fail (files : fs) (p : aw_pc) :
    aw_running p = true ->
    aw_step path hex content
      {| aw_files := files; aw_at := p |}
      {| aw_files := files; aw_at := AwFailed |}
| aw_others (files files' : fs) (p : aw_pc) :
    (* other processes work on other files meanwhile *)
    files' !! path = files !! path ->
    files' !! tmp_path path hex = files !! tmp_path path hex ->
    aw_step path hex content
      {| aw_files := files; aw_at := p |}
      {| aw_files := files'; aw_at := p |}.

(** The states a call started on [files] can be in. *)
Inductive aw_reach (path hex : str) (content : bytes) (files : fs) : aw_state -> Prop :=
| aw_reach_start :
    aw_reach path hex content files {| aw_files := files; aw_at := AwStart |}
| aw_reach_step (s s' : aw_state) :
    aw_reach path hex content files s ->
    aw_step path hex content s s' ->
    aw_reach path hex content files s'.

(** What holds of the files at each point of the call. *)
Definition aw_inv (path hex : str) (content : bytes) (files : fs) (s : aw_state) : Prop :=
  match aw_at s with
  | AwStart | AwFailed => aw_files s !! path = files !! path
  | AwWriting k =>
      aw_files s !! path = files !! path
      /\ aw_files s !! tmp_path path hex = Some (take k content)
  | AwClosed =>
      aw_files s !! path = files !! path
      /\ aw_files s !! tmp_path path hex = Some content
  | AwDone => aw_files s !! path = Some content
  end.

(** ** Element trees ([xml.etree.ElementTree])

    An [ET.Element]: tag, attributes in insertion order, text ([None] or a
    string), children in order, and the text that follows the element's end
    tag. *)
#[local] Set Warnings "-register-all".
Inductive Element : Type :=
| Elem (tag : str) (attrib : list (str * str)) (text : option str)
       (children : list Element) (tail : option str).

Definition e_tag (e : Element) : str := let 'Elem t _ _ _ _ := e in t.
Definition e_attrib (e : Element) : list (str * str) := let 'Elem _ a _ _ _ := e in a.
Definition e_text (e : Element) : option str := let 'Elem _ _ x _ _ := e in x.
Definition e_children (e : Element) : list Element := let 'Elem _ _ _ c _ := e in c.
Definition e_tail (e : Element) : option str := let 'Elem _ _ _ _ t := e in t.

(** [ET.Element(tag, attrib=...)]. *)
Definition new_element (tag : str) (attrib : list (str * str)) : Element :=
  Elem tag attrib None [] None.

(** [e.text = s]. *)
Definition set_text (s : str) (e : Element) : Element :=
  let 'Elem t a _ c tl := e in Elem t a (Some s) c tl.

Definition set_tail (s : option str) (e : Element) : Element :=
  let 'Elem t a x c _ := e in Elem t a x c s.

(** [parent.append(child)]; [ET.SubElement(parent, tag, attrib)] appends a
    new element, and the assignments the code then makes to the new element
    are made here before it is appended. *)
Definition append_child (child : Element) (parent : Element) : Element :=
  let 'Elem t a x c tl := parent in Elem t a x (c ++ [child]) tl.

(** [e.find(tag)] for a plain tag: the first child with that tag. *)
Definition find (tag : str) (e : Element) : option Element :=
  List.find (fun c => bool_decide (e_tag c = tag)) (e_children e).

(** [e.attrib.get(key)]. *)
Definition attrib_get (key : str) (e : Element) : option str :=
  match List.find (fun kv => bool_decide (fst kv = key)) (e_attrib e) with
  | Some kv => Some (snd kv)
  | None => None
  end.

(** [x or default] for an optional string: [None] and the empty string are
    both false. *)
Definition or_default (x : option str) (default : str) : str :=
  match x with
  | Some (c :: r) => c :: r
  | _ => default
  end.

(** *** Serialization: [ET.tostring(elem, encoding="utf-8")]

    The text [ElementTree._serialize_xml] writes for trees whose tags and
    attribute names are plain names (no [{uri}] prefix, which would make the
    writer declare namespaces). *)
Definition escape_cdata_char (c : N) : str :=
  if c =? 38 then lit "&amp;"
  else if c =? 60 then lit "&lt;"
  else if c =? 62 then lit "&gt;"
  else [c].

Definition escape_attrib_char (c : N) : str :=
  if c =? 38 then lit "&amp;"
  else if c =? 60 then lit "&lt;"
  else if c =? 62 then lit "&gt;"
  else if c =? 34 then lit "&quot;"
  else if c =? 13 then lit "&#13;"
  else if c =? 10 then lit "&#10;"
  else if c =? 9 then lit "&#09;"
  else [c].

(** [_escape_cdata] and [_escape_attrib]: their successive [replace] calls
    amount to replacing each character on its own. *)
Definition escape_cdata (s : str) : str := flat_map escape_cdata_char s.
Definition escape_attrib (s : str) : str := flat_map escape_attrib_char s.

Definition is_nonempty (x : option str) : bool :=
  match x with Some (_ :: _) => true | _ => false end.

Definition serialize_attr (kv : str * str) : str :=
  lit " " ++ fst kv ++ lit "=" ++ [34] ++ escape_attrib (snd kv) ++ [34].

Fixpoint serialize (e : Element) : str :=
  let 'Elem tag attrib text children tail := e in
  let inner :=
    (fix go (l : list Element) : str :=
       match l with
       | [] => []
       | c :: r => serialize c ++ go r
       end) children in
  lit "<" ++ tag ++ flat_map serialize_attr attrib
  ++ (if is_nonempty text || negb (bool_decide (children = []))
      then lit ">" ++ escape_cdata (or_default text []) ++ inner
           ++ lit "</" ++ tag ++ lit ">"
      else lit " />")
  ++ escape_cdata (or_default tail []).

Definition ET_tostring (e : Element) : bytes := encode_utf8 (serialize e).

(** [xml_to_bytes]: the declaration, two newlines, and the serialized tree. *)
Definition xml_decl : bytes :=
  lit "<?xml version=" ++ [34] ++ lit "1.0" ++ [34] ++ lit " encoding=" ++ [34]
  ++ lit "UTF-8" ++ [34] ++ lit "?>".

Definition xml_to_bytes (e : Element) : bytes :=
  xml_decl ++ [10; 10] ++ ET_tostring e.

(** *** Parsing: a model of [ET.fromstring]

    [ET.fromstring] hands the bytes to expat and builds the tree from its
    events.  The function below is that parser on a fragment of XML 1.0:
    UTF-8 documents made of an optional declaration (exactly the one
    [xml_to_bytes] writes), one root element, elements with attributes in
    single or double quotes, character data, the five predefined entities
    and decimal character references; names are made of ASCII letters,
    digits, [_], [-] and [.].  On a document of the fragment it returns the
    tree [ET.fromstring] builds; every other input is refused ([None]),
    although expat accepts some of them (comments, CDATA sections,
    processing instructions, document types, namespaces, hexadecimal
    references, a raw [>] in text, names outside ASCII).  The functions of
    the program take the parser as an argument, and statements that hold
    whatever the parser does are stated for every parser. *)
Definition is_ws (c : N) : bool := (c =? 32) || (c =? 9) || (c =? 10) || (c =? 13).

Definition is_name_start (c : N) : bool :=
  between 65 90 c || between 97 122 c || (c =? 95).

Definition is_name_char (c : N) : bool :=
  is_name_start c || between 48 57 c || (c =? 45) || (c =? 46).

(** The [Char] production: the code points a document may hold and a
    character reference may name. *)
Definition is_xml_char (c : N) : bool :=
  (c =? 9) || (c =? 10) || (c =? 13) || between 32 55295 c
  || between 57344 65533 c || between 65536 1114111 c.

(** End-of-line handling: CR LF and a lone CR are read as LF. *)
Fixpoint normalize_eol (s : str) : str :=
  match s with
  | [] => []
  | c :: r =>
      if c =? 13 then
        10 :: match r with
              | c' :: r' => if c' =? 10 then normalize_eol r' else normalize_eol r
              | [] => []
              end
      else c :: normalize_eol r
  end.

Fixpoint strip_prefix (p s : str) : option str :=
  match p, s with
  | [], _ => Some s
  | a :: p', b :: s' => if a =? b then strip_prefix p' s' else None
  | _ :: _, [] => None
  end.

(** The longest prefix of name characters, and what follows it. *)
Fixpoint scan_name (s : str) : str * str :=
  match s with
  | c :: r =>
      if is_name_char c then let '(n, rest) := scan_name r in (c :: n, rest)
      else ([], s)
  | [] => ([], [])
  end.

Definition is_name (n : str) : bool :=
  match n with
  | c :: r => is_name_start c && forallb is_name_char r
  | [] => false
  end.

(** What stands between [&] and [;]. *)
Definition decode_ref (name : str) : option N :=
  if bool_decide (name = lit "amp") then Some 38
  else if bool_decide (name = lit "lt") then Some 60
  else if bool_decide (name = lit "gt") then Some 62
  else if bool_decide (name = lit "quot") then Some 34
  else if bool_decide (name = lit "apos") then Some 39
  else
    match name with
    | 35 :: (_ :: _) as ds =>
        if forallb is_ascii_digit ds then
          let c := dec_value 0 ds in
          if is_xml_char c then Some c else None
        else None
    | _ => None
    end.

(** Character data up to the first [stop] character: references are
    replaced, [raw] says what a character read as it stands becomes ([None]:
    it may not stand there).  [ref] holds the reference being read. *)
Fixpoint scan_chars (stop : N -> bool) (raw : N -> option N)
    (ref : option str) (s : str) : option (str * str) :=
  match s with
  | [] => match ref with None => Some ([], []) | Some _ => None end
  | c :: r =>
      match ref with
      | Some acc =>
          if c =? 59 then
            match decode_ref (rev acc) with
            | Some d =>
                match scan_chars stop raw None r with
                | Some (t, rest) => Some (d :: t, rest)
                | None => None
                end
            | None => None
            end
          else scan_chars stop raw (Some (c :: acc)) r
      | None =>
          if stop c then Some ([], s)
          else if c =? 38 then scan_chars stop raw (Some []) r
          else
            match raw c with
            | Some d =>
                match scan_chars stop raw None r with
                | Some (t, rest) => Some (d :: t, rest)
                | None => None
                end
            | None => None
            end
      end
  end.

(** In content: up to the next [<]; a raw [>] is outside the fragment. *)
Definition scan_text (s : str) : option (str * str) :=
  scan_chars (N.eqb 60) (fun c => if c =? 62 then None else Some c) None s.

(** In an attribute value quoted by [q]: up to the closing quote; [<] may
    not occur, and white space read as it stands becomes a space. *)
Definition scan_value (q : N) (s : str) : option (str * str) :=
  scan_chars (N.eqb q)
    (fun c => if c =? 60 then None else if is_ws c then Some 32 else Some c)
    None s.

(** The attributes of a start tag and its end: [>] ([false]) or [/>]. *)
Fixpoint parse_attrs (fuel : nat) (seen : list (str * str)) (s : str)
    : option (list (str * str) * bool * str) :=
  match fuel with
  | O => None
  | S fuel' =>
      let s1 := lstrip_with is_ws s in
      match s1 with
      | c :: r =>
          if c =? 62 then Some (rev seen, false, r)
          else if c =? 47 then
            match r with
            | c' :: r' => if c' =? 62 then Some (rev seen, true, r') else None
            | [] => None
            end
          else if bool_decide (s1 = s) then None   (* no white space before the name *)
          else
            let '(name, r1) := scan_name s1 in
            if negb (is_name name) || bool_decide (name = lit "xmlns")
               || existsb (fun kv => bool_decide (fst kv = name)) seen
            then None
            else
              match lstrip_with is_ws r1 with
              | e :: r2 =>
                  if e =? 61 then
                    match lstrip_with is_ws r2 with
                    | q :: r3 =>
                        if (q =? 34) || (q =? 39) then
                          match scan_value q r3 with
                          | Some (v, _ :: r4) => parse_attrs fuel' ((name, v) :: seen) r4
                          | _ => None
                          end
                        else None
                    | [] => None
                    end
                  else None
              | [] => None
              end
      | [] => None
      end
  end.

Definition opt_text (s : str) : option str :=
  match s with [] => None | _ :: _ => Some s end.

(** An element from its [<]; then the children of an element up to its end
    tag, each with the text that follows it. *)
Fixpoint parse_element (fuel : nat) (s : str) : option (Element * str) :=
  match fuel with
  | O => None
  | S fuel' =>
      match s with
      | c :: r =>
          if c =? 60 then
            let '(tag, r1) := scan_name r in
            if negb (is_name tag) then None
            else
              match parse_attrs (S (length r1)) [] r1 with
              | Some (attrs, true, r2) => Some (Elem tag attrs None [] None, r2)
              | Some (attrs, false, r2) =>
                  match scan_text r2 with
                  | Some (text, r3) =>
                      match parse_children fuel' r3 with
                      | Some (children, r4) =>
                          match strip_prefix (lit "</" ++ tag) r4 with
                          | Some r5 =>
                              match lstrip_with is_ws r5 with
                              | g :: r6 =>
                                  if g =? 62
                                  then Some (Elem tag attrs (opt_text text) children None, r6)
                                  else None
                              | [] => None
                              end
                          | None => None
                          end
                      | None => None
                      end
                  | None => None
                  end
              | None => None
              end
          else None
      | [] => None
      end
  end
with parse_children (fuel : nat) (s : str) : option (list Element * str) :=
  match fuel with
  | O => None
  | S fuel' =>
      match s with
      | c :: c' :: _ =>
          if (c =? 60) && (c' =? 47) then Some ([], s)
          else
            match parse_element fuel' s with
            | Some (e, r1) =>
                match scan_text r1 with
                | Some (tail, r2) =>
                    match parse_children fuel' r2 with
                    | Some (es, r3) => Some (set_tail (opt_text tail) e :: es, r3)
                    | None => None
                    end
                | None => None
                end
            | None => None
            end
      | _ => None
      end
  end.

(** [b.decode("utf-8")]: as [decode_utf8_ignore], except that nothing may
    have been dropped, which shows when the result is encoded again. *)
Definition decode_utf8 (b : bytes) : option str :=
  let s := decode_utf8_ignore b in
  if bool_decide (encode_utf8 s = b) then Some s else None.

(** The document: the declaration if there is one, white space, the root
    element, white space. *)
Definition ET_fromstring (b : bytes) : option Element :=
  match decode_utf8 b with
  | Some doc =>
      if forallb is_xml_char doc then
        let s := normalize_eol doc in
        let body := match strip_prefix xml_decl s with Some r => r | None => s end in
        let body := lstrip_with is_ws body in
        match parse_element (length body) body with
        | Some (root, rest) =>
            match lstrip_with is_ws rest with
            | [] => Some root
            | _ :: _ => None
            end
        | None => None
        end
      else None
  | None => None
  end.

(** *** Trees that survive a round trip through a file

    The tree as the parser returns it: an empty text is no text. *)
Fixpoint canon (e : Element) : Element :=
  let 'Elem tag attrib text children tail := e in
  Elem tag attrib (opt_text (or_default text [])) (List.map canon children)
       (opt_text (or_default tail [])).

(** Characters that text, respectively an attribute value, can carry
    through serialization and parsing unchanged. *)
Definition text_char_ok (c : N) : bool :=
  (c =? 9) || (c =? 10) || between 32 55295 c || between 57344 65533 c
  || between 65536 1114111 c.
Definition attr_char_ok (c : N) : bool := text_char_ok c || (c =? 13).

Definition attr_ok (kv : str * str) : bool :=
  is_name (fst kv) && negb (bool_decide (fst kv = lit "xmlns"))
  && forallb attr_char_ok (snd kv).

(** Plain names for the tag and the attributes, no attribute twice, and
    only such characters in values, text and tail, throughout the tree. *)
Fixpoint xml_safe (e : Element) : bool :=
  let 'Elem tag attrib text children tail := e in
  is_name tag
  && forallb attr_ok attrib
  && bool_decide (NoDup (List.map fst attrib))
  && forallb text_char_ok (or_default text [])
  && forallb xml_safe children
  && forallb text_char_ok (or_default tail []).

(** Fuel that suffices to parse a serialized tree. *)
Fixpoint weight (e : Element) : nat :=
  let 'Elem _ _ _ children _ := e in
  S ((fix go (l : list Element) : nat :=
        match l with
        | [] => 1%nat
        | c :: r => S (weight c + go r)
        end) children).

Definition weight_list (l : list Element) : nat :=
  fold_right (fun c n => S (weight c + n)) 1%nat l.

(** The statement proved of each tree, for every amount of fuel that
    suffices and whatever follows the element. *)
Definition parses_back (e : Element) : Prop :=
  forall (fuel : nat) (rest : str),
    (weight e <= fuel)%nat ->
    parse_element fuel (serialize (set_tail None e) ++ rest)
    = Some (set_tail None (canon e), rest).


(** The root of a document has no tail: nothing but white space may follow
    the root element. *)
Definition no_tail (e : Element) : bool := negb (is_nonempty (e_tail e)).

(** ** Floats

    A Python [float] is modelled by the rational number it stands for, or
    by an infinity or a NaN: the rounding of binary floating point, negative
    zero and magnitudes beyond the binary64 range are not modelled. *)
Inductive pyfloat : Type :=
| Fin (q : Q)
| Inf (negative : bool)
| NaN.

(** The nearest integer, ties to the even one. *)
Definition round_half_even (x : Q) : Z :=
  let f := Qfloor x in
  match Qcompare (x - inject_Z f) (1 # 2) with
  | Lt => f
  | Gt => (f + 1)%Z
  | Eq => if Z.even f then f else (f + 1)%Z
  end.

Definition pow10 (k : nat) : Q := inject_Z (10 ^ Z.of_nat k).

(** [x] in units of [10^-nd], rounded. *)
Definition scaled (nd : nat) (x : Q) : Z := round_half_even (x * pow10 nd).

(** [round(x, nd)]. *)
Definition py_round (nd : nat) (x : pyfloat) : pyfloat :=
  match x with
  | Fin q => Fin (inject_Z (scaled nd q) / pow10 nd)
  | other => other
  end.

(** Trailing zeros dropped, one digit kept. *)
Definition rstrip_zeros (s : str) : str := rev (drop_zeros (rev s)).

(** [str] of the float [n / 10^6], [n >= 0]: [repr] prints the shortest
    decimal that reads back as the same float, which for a float that was
    rounded to six decimals is that decimal (below 10^16); it switches to
    exponent notation below 10^-4. *)
Definition repr_micro (n : N) : str :=
  if n =? 0 then lit "0.0"
  else if n <? 10 then str_of_N n ++ lit "e-06"
  else if n <? 100 then
    (if n mod 10 =? 0 then str_of_N (n / 10)
     else str_of_N (n / 10) ++ lit "." ++ str_of_N (n mod 10)) ++ lit "e-05"
  else str_of_N (n / 1000000) ++ lit "." ++ rstrip_zeros (zfill 6 (n mod 1000000)).

(** [str(round(x, 6))]. *)
Definition str_round6 (x : pyfloat) : str :=
  match x with
  | Fin q =>
      match scaled 6 q with
      | Zneg p => 45 :: repr_micro (Npos p)
      | m => repr_micro (Z.to_N m)
      end
  | Inf false => lit "inf"
  | Inf true => lit "-inf"
  | NaN => lit "nan"
  end.

(** [float(s)] for a [str]: white space around (that of [int]), a sign,
    then [inf], [infinity] or [nan] in any case, or digits with an optional
    fraction and an optional exponent; single underscores may group digits.
    The value is the decimal number written, not the binary float nearest
    to it, and statements about values leave room for that rounding. *)
Definition lower (c : N) : N := if between 65 90 c then c + 32 else c.

(** [s] cut at the first character that satisfies [p]. *)
Fixpoint split_at (p : N -> bool) (s : str) : str * option str :=
  match s with
  | [] => ([], None)
  | c :: r =>
      if p c then ([], Some r)
      else let '(a, b) := split_at p r in (c :: a, b)
  end.

(** A run of digits, possibly empty: its value and its number of digits. *)
Definition digits_opt (s : str) : option (N * nat) :=
  match s with
  | [] => Some (0, 0%nat)
  | _ :: _ =>
      match int_digits IntStart 0 s with
      | Some n => Some (n, length (List.filter (fun c => negb (c =? 95)) s))
      | None => None
      end
  end.

Definition split_sign (s : str) : bool * str :=
  match s with
  | c :: r => if c =? 45 then (true, r) else if c =? 43 then (false, r) else (false, s)
  | [] => (false, [])
  end.

Definition py_float (s : str) : option pyfloat :=
  let '(neg, t) := split_sign (int_strip s) in
  let low := List.map lower t in
  if bool_decide (low = lit "inf") || bool_decide (low = lit "infinity")
  then Some (Inf neg)
  else if bool_decide (low = lit "nan") then Some NaN
  else
    let '(mant, ex) := split_at (fun c => (c =? 101) || (c =? 69)) t in
    let '(ip, fp) := split_at (N.eqb 46) mant in
    match digits_opt ip, digits_opt (default [] fp) with
    | Some (i, ni), Some (f, nf) =>
        if (ni + nf =? 0)%nat then None
        else
          let m := (inject_Z (Z.of_N i) + inject_Z (Z.of_N f) / pow10 nf)%Q in
          let m := if neg then Qopp m else m in
          match ex with
          | None => Some (Fin m)
          | Some e =>
              let '(eneg, ed) := split_sign e in
              match int_digits IntStart 0 ed with
              | Some k =>
                  Some (Fin (if eneg then m / pow10 (N.to_nat k)
                             else m * pow10 (N.to_nat k))%Q)
              | None => None
              end
          end
    | _, _ => None
    end.

(** [_safe_float]. *)
Definition _safe_float (x : str) : pyfloat :=
  match py_float x with
  | Some v => v
  | None => Fin 0
  end.

(** ** [datetime.strptime(s, "%Y-%m-%d %H:%M:%S")]

    [_strptime] turns the format into a regular expression, takes the first
    match from the start of the string, and refuses a match that leaves
    text over.  A matcher lists the ways its pattern can match, in the order
    the regular expression engine tries them: the value read and the rest. *)
Definition matcher : Type := str -> list (N * str).

(** One character with a value ([\d] or a digit class). *)
Definition m_char (p : N -> option N) : matcher :=
  fun s =>
    match s with
    | c :: r => match p c with Some d => [(d, r)] | None => [] end
    | [] => []
    end.

(** A digit between [lo] and [hi] (ASCII, as in [[0-2]]). *)
Definition d_range (lo hi : N) (c : N) : option N :=
  if between (48 + lo) (48 + hi) c then Some (c - 48) else None.

(** Two characters, read as a two-digit number. *)
Definition m_two (p1 p2 : N -> option N) : matcher :=
  fun s =>
    match s with
    | c1 :: c2 :: r =>
        match p1 c1, p2 c2 with
        | Some a, Some b => [(a * 10 + b, r)]
        | _, _ => []
        end
    | _ => []
    end.

Definition m_alt (a b : matcher) : matcher := fun s => a s ++ b s.

(** [(?P<Y>\d\d\d\d)]. *)
Definition m_year : matcher :=
  fun s =>
    match s with
    | a :: b :: c :: d :: r =>
        match uni_decimal a, uni_decimal b, uni_decimal c, uni_decimal d with
        | Some x, Some y, Some z, Some w => [(((x * 10 + y) * 10 + z) * 10 + w, r)]
        | _, _, _, _ => []
        end
    | _ => []
    end.

(** [(?P<m>1[0-2]|0[1-9]|[1-9])]. *)
Definition m_month : matcher :=
  m_alt (m_two (d_range 1 1) (d_range 0 2))
    (m_alt (m_two (d_range 0 0) (d_range 1 9)) (m_char (d_range 1 9))).

(** [(?P<d>3[0-1]|[1-2]\d|0[1-9]|[1-9]| [1-9])]. *)
Definition m_day : matcher :=
  m_alt (m_two (d_range 3 3) (d_range 0 1))
    (m_alt (m_two (d_range 1 2) uni_decimal)
       (m_alt (m_two (d_range 0 0) (d_range 1 9))
          (m_alt (m_char (d_range 1 9))
             (m_two (fun c => if c =? 32 then Some 0 else None) (d_range 1 9))))).

(** [(?P<H>2[0-3]|[0-1]\d|\d)], [(?P<M>[0-5]\d|\d)], [(?P<S>6[0-1]|[0-5]\d|\d)]. *)
Definition m_hour : matcher :=
  m_alt (m_two (d_range 2 2) (d_range 0 3))
    (m_alt (m_two (d_range 0 1) uni_decimal) (m_char uni_decimal)).

Definition m_minute : matcher :=
  m_alt (m_two (d_range 0 5) uni_decimal) (m_char uni_decimal).

Definition m_second : matcher :=
  m_alt (m_two (d_range 6 6) (d_range 0 1))
    (m_alt (m_two (d_range 0 5) uni_decimal) (m_char uni_decimal)).

(** A literal character, and [\s+] followed by something that starts with
    no white space (so that only the longest run can match). *)
Definition m_lit (c : N) : matcher :=
  m_char (fun x => if x =? c then Some 0 else None).

Definition m_spaces : matcher :=
  fun s =>
    match s with
    | c :: r => if py_isspace c then [(0, lstrip_with py_isspace r)] else []
    | [] => []
    end.

(** [a] then [k] on each way [a] matched, in order. *)
Definition m_then {A} (a : matcher) (k : N -> str -> list A) (s : str) : list A :=
  flat_map (fun vr => k (fst vr) (snd vr)) (a s).

Definition is_leap (y : Z) : bool :=
  ((y mod 4 =? 0) && (negb (y mod 100 =? 0) || (y mod 400 =? 0)))%Z.

Definition days_in_month (y m : Z) : Z :=
  (if m =? 2 then (if is_leap y then 29 else 28)
   else if (m =? 4) || (m =? 6) || (m =? 9) || (m =? 11) then 30 else 31)%Z.

Definition strptime (s : str) : result datetime :=
  let found :=
    m_then m_year (fun yy =>
    m_then (m_lit 45) (fun _ =>
    m_then m_month (fun mm =>
    m_then (m_lit 45) (fun _ =>
    m_then m_day (fun dd =>
    m_then m_spaces (fun _ =>
    m_then m_hour (fun hh =>
    m_then (m_lit 58) (fun _ =>
    m_then m_minute (fun mi =>
    m_then (m_lit 58) (fun _ =>
    m_then m_second (fun ss rest =>
      [(yy, mm, dd, hh, mi, ss, rest)]))))))))))) s in
  match found with
  | (yy, mm, dd, hh, mi, ss, rest) :: _ =>
      let y := Z.of_N yy in
      let mo := Z.of_N mm in
      let d := Z.of_N dd in
      if bool_decide (rest = []) && (1 <=? y)%Z && (d <=? days_in_month y mo)%Z
         && (ss <? 60)
      then Ok {| dt_date := {| year := y; month := mo; day := d |};
                 hour := Z.of_N hh; minute := Z.of_N mi; second := Z.of_N ss |}
      else Raise ValueError
  | [] => Raise ValueError
  end.

(** ** The record codec *)

Definition TIMEZONE : str := lit "Australia/Sydney".

(** [str.splitlines()]: the lines of [s] without their line breaks; [cur]
    holds the line being read, last character first. *)
Definition is_linebreak (c : N) : bool :=
  between 10 13 c || between 28 30 c || (c =? 133) || (c =? 8232) || (c =? 8233).

Fixpoint splitlines_from (cur : str) (s : str) : list str :=
  match s with
  | [] => match cur with [] => [] | _ :: _ => [rev cur] end
  | c :: r =>
      if c =? 13 then
        rev cur :: match r with
                   | c' :: r' =>
                       if c' =? 10 then splitlines_from [] r' else splitlines_from [] r
                   | [] => []
                   end
      else if is_linebreak c then rev cur :: splitlines_from [] r
      else splitlines_from (c :: cur) r
  end.

Definition splitlines (s : str) : list str := splitlines_from [] s.

(** [sep.join(parts)]. *)
Fixpoint join (sep : str) (parts : list str) : str :=
  match parts with
  | [] => []
  | [p] => p
  | p :: rest => p ++ sep ++ join sep rest
  end.

(** [" ".join(comments.splitlines()).strip()]. *)
Definition collapse_comment (comments : str) : str :=
  strip (join (lit " ") (splitlines comments)).

Definition build_occupation_element
    (occ_id : Z) (technician_code : str) (occ_dt : datetime)
    (duration_hours : pyfloat) (wo_code hour_type occupation_type comments : str)
    : Element :=
  let occ := new_element (lit "occupation") [(lit "id", str_of_int occ_id)] in
  let occ :=
    append_child
      (new_element (lit "occupation_technician") [(lit "code", technician_code)]) occ in
  let od := set_text (fmt_dt occ_dt) (new_element (lit "occupation_occupationDate") []) in
  let occ := append_child od occ in
  let dur :=
    set_text (str_round6 duration_hours) (new_element (lit "occupation_duration") []) in
  let occ := append_child dur occ in
  let occ := append_child (new_element (lit "occupation_WO") [(lit "code", wo_code)]) occ in
  let occ :=
    append_child (new_element (lit "occupation_hourType") [(lit "code", hour_type)]) occ in
  let occ :=
    match strip occupation_type with
    | [] => occ
    | _ :: _ =>
        append_child
          (new_element (lit "occupation_type") [(lit "code", strip occupation_type)]) occ
    end in
  let desc :=
    set_text (collapse_comment comments) (new_element (lit "description_description") []) in
  let comm := append_child desc (new_element (lit "occupation_comments") []) in
  let occ := append_child comm occ in
  let oid := set_text (str_of_int occ_id) (new_element (lit "occupation_id") []) in
  append_child oid occ.

(** The envelope both writers start from. *)
Definition new_entities : Element :=
  new_element (lit "entities")
    [(lit "exchangeInterface", lit "OCCUPATION_IN");
     (lit "externalSystem", []);
     (lit "timezone", TIMEZONE)].

Definition build_entities_xml_with_one (occupation_elem : Element) : bytes :=
  xml_to_bytes (append_child occupation_elem new_entities).

(** ** The aggregate appender *)

(** [daily_all_file_path]: as for the counter file, the path is given for
    the days [day_ok] accepts. *)
Definition daily_all_file_path (d : date) : str :=
  in_base_dir (fmt_ymd d ++ lit "_" ++ weekday_abbr d ++ lit "_allEmployee.xml").

(** The [try]/[except] around [ET.fromstring] in [append_to_daily_all]:
    the parsed root when its tag is [entities], a new envelope otherwise.
    [fromstring] is the XML parser ([None]: it raises). *)
Definition envelope_of (fromstring : bytes -> option Element) (existing : bytes)
    : Element :=
  match fromstring existing with
  | Some root =>
      if bool_decide (e_tag root = lit "entities") then root else new_entities
  | None => new_entities
  end.

(** The body of the [with] block of [append_to_daily_all]. *)
Definition append_body (fromstring : bytes -> option Element)
    (occupation_elem : Element) : FIO unit :=
  f_seek_end ;;;
  size <- f_tell ;;
  root <- (if (size =? 0)%nat then fret new_entities
           else
             f_seek0 ;;;
             existing <- f_read ;;
             fret (envelope_of fromstring (lstrip_padding existing))) ;;
  let root := append_child occupation_elem root in
  let new_content := xml_to_bytes root in
  f_seek0 ;;;
  f_write new_content ;;;
  f_truncate.

Definition append_to_daily_all (fromstring : bytes -> option Element) (nt : bool)
    (d : date) (occupation_elem : Element) (files : fs) : result unit * fs :=
  let out_path := daily_all_file_path d in
  let mode := if path_exists files out_path then RPlusB else WPlusB in
  locked_file nt out_path mode (append_body fromstring occupation_elem) files.

(** ** The day query *)

(** [_safe_text(elem, default)] and [_safe_attr(elem, key, default)]. *)
Definition _safe_text (elem : option Element) (default : str) : str :=
  match elem with
  | Some e => strip (or_default (e_text e) default)
  | None => default
  end.

Definition _safe_attr (elem : option Element) (key default : str) : str :=
  match elem with
  | Some e => strip (or_default (attrib_get key e) default)
  | None => default
  end.

(** One row of the table, by column. *)
Record Row : Type :=
  { r_time : str; r_wo : str; r_time_type : str; r_occ_type : str;
    r_hours : pyfloat; r_comment : str }.

(** A [pandas.DataFrame]: its column labels and its rows. *)
Record DataFrame : Type := { columns : list str; rows : list Row }.

Definition six_columns : list str :=
  [lit "Time"; lit "WO"; lit "Time Type"; lit "Occ Type"; lit "Hours"; lit "Comment"].

(** The keys of the dictionary the loop appends for a row, in the order
    they are written; [pd.DataFrame(rows)] takes its columns from them. *)
Definition row_keys : list str :=
  [lit "Time"; lit "WO"; lit "Time Type"; lit "Occ Type"; lit "Hours"; lit "Comment"].

(** [tz.localize(occ_dt)] with the default [is_dst=False]: the result has
    the wall-clock fields of its argument.  The arithmetic it does on its
    argument overflows on the first day [datetime] can hold. *)
Definition localize (t : datetime) : result datetime :=
  if date_eqb (dt_date t) {| year := 1; month := 1; day := 1 |}
  then Raise OtherError
  else Ok t.

(** The inner [try] of the loop: [strptime], then [localize]. *)
Definition occ_time (dt_txt : str) : result datetime :=
  match strptime dt_txt with
  | Ok t => localize t
  | Raise e => Raise e
  end.

(** What the loop body does with a parsed root: [None] is a [continue]. *)
Definition decode_root (selected_day : date) (root : Element) : option Row :=
  if negb (bool_decide (e_tag root = lit "entities")) then None
  else
    match find (lit "occupation") root with
    | None => None
    | Some occ =>
        let dt_txt := _safe_text (find (lit "occupation_occupationDate") occ) [] in
        match dt_txt with
        | [] => None
        | _ :: _ =>
            match occ_time dt_txt with
            | Raise _ => None
            | Ok occ_dt =>
                if negb (date_eqb (dt_date occ_dt) selected_day) then None
                else
                  let wo_code := _safe_attr (find (lit "occupation_WO") occ) (lit "code") [] in
                  let hour_type :=
                    _safe_attr (find (lit "occupation_hourType") occ) (lit "code") [] in
                  let occ_type :=
                    _safe_attr (find (lit "occupation_type") occ) (lit "code") [] in
                  let hours :=
                    _safe_float
                      (_safe_text (find (lit "occupation_duration") occ) (lit "0")) in
                  let comment_elem := find (lit "occupation_comments") occ in
                  let desc_elem :=
                    match comment_elem with
                    | Some c => find (lit "description_description") c
                    | None => None
                    end in
                  let comment := _safe_text desc_elem [] in
                  Some {| r_time := fmt_hms occ_dt; r_wo := wo_code;
                          r_time_type := hour_type; r_occ_type := occ_type;
                          r_hours := py_round 3 hours; r_comment := comment |}
            end
        end
    end.

(** The loop body for one file, inside its [try]: reading the file or
    parsing it may raise. *)
Definition decode_file (fromstring : bytes -> option Element) (selected_day : date)
    (read_bytes : result bytes) : result (option Row) :=
  match read_bytes with
  | Raise e => Raise e
  | Ok b =>
      match fromstring (lstrip_padding b) with
      | None => Raise ParseError
      | Some root => Ok (decode_root selected_day root)
      end
  end.

(** The rows one file contributes: [except Exception: continue]. *)
Definition file_rows (fromstring : bytes -> option Element) (selected_day : date)
    (read_bytes : result bytes) : list Row :=
  match decode_file fromstring selected_day read_bytes with
  | Ok (Some row) => [row]
  | Ok None => []
  | Raise _ => []
  end.

(** Strings in code point order, as Python compares them. *)
Fixpoint str_ltb (a b : str) : bool :=
  match a, b with
  | [], [] => false
  | [], _ :: _ => true
  | _ :: _, [] => false
  | x :: a', y :: b' => (x <? y) || ((x =? y) && str_ltb a' b')
  end.

Fixpoint insert_by {A} (lt : A -> A -> bool) (x : A) (l : list A) : list A :=
  match l with
  | [] => [x]
  | y :: r => if lt y x then y :: insert_by lt x r else x :: l
  end.

(** A stable sort: each element, from the last to the first, is put in
    front of the elements that are not before it, so that equal keys keep
    their order. *)
Definition sort_by {A} (lt : A -> A -> bool) (l : list A) : list A :=
  fold_right (insert_by lt) [] l.

(** [sort_values(["Time", "WO"], ascending=[True, True])]. *)
Definition row_ltb (a b : Row) : bool :=
  str_ltb (r_time a) (r_time b)
  || (bool_decide (r_time a = r_time b) && str_ltb (r_wo a) (r_wo b)).

Fixpoint ends_with_xml (name : str) : bool :=
  match name with
  | [] => false
  | _ :: r => bool_decide (name = lit ".xml") || ends_with_xml r
  end.

(** A user folder: [None] when it does not exist, else its entries by
    name, each with what [read_bytes] gives for it. *)
Definition folder : Type := option (list (str * result bytes)).

Definition get_user_entries_for_day (fromstring : bytes -> option Element)
    (user_folder : folder) (selected_day : date) : DataFrame :=
  match user_folder with
  | None => {| columns := six_columns; rows := [] |}
  | Some entries =>
      let files :=
        sort_by (fun a b => str_ltb (fst a) (fst b))
          (List.filter (fun e => ends_with_xml (fst e)) entries) in
      let found := flat_map (fun e => file_rows fromstring selected_day (snd e)) files in
      match found with
      | [] => {| columns := six_columns; rows := [] |}
      | _ :: _ => {| columns := row_keys; rows := sort_by row_ltb found |}
      end
  end.

(** The envelope [append_to_daily_all] adds the new element to, from the
    bytes the locked file shows: a new one for an empty file, else the one
    read from the bytes. *)
Definition envelope_for (fromstring : bytes -> option Element) (shown : bytes) : Element :=
  match shown with
  | [] => new_entities
  | _ :: _ => envelope_of fromstring (lstrip_padding shown)
  end.

(** Two records appended to the aggregate file of a day, one call after
    the other. *)
Definition append_two (fromstring : bytes -> option Element) (nt : bool) (d : date)
    (r1 r2 : Element) (files : fs) : fs :=
  snd (append_to_daily_all fromstring nt d r2
         (snd (append_to_daily_all fromstring nt d r1 files))).

(** A record whose comment holds the control character U+0001, and one
    without a comment, on 2026-01-08. *)
Definition day_0108 : date := {| year := 2026; month := 1; day := 8 |}.

Definition at_172736 : datetime :=
  {| dt_date := day_0108; hour := 17; minute := 27; second := 36 |}.

Definition record_with_control_char : Element :=
  build_occupation_element 300 (lit "BOB") at_172736 (Fin 1)
    (lit "WO-7") (lit "NORMAL") [] [1].

Definition record_plain : Element :=
  build_occupation_element 301 (lit "ANN") at_172736 (Fin (3 # 4))
    (lit "WO-7") (lit "NORMAL") (lit "IN") [].


(** The row the day query makes of an [occupation] element whose time is
    [dt]: what is missing is replaced by a default. *)
Definition row_of (occ : Element) (dt : datetime) : Row :=
  {| r_time := fmt_hms dt;
     r_wo := _safe_attr (find (lit "occupation_WO") occ) (lit "code") [];
     r_time_type := _safe_attr (find (lit "occupation_hourType") occ) (lit "code") [];
     r_occ_type := _safe_attr (find (lit "occupation_type") occ) (lit "code") [];
     r_hours :=
       py_round 3 (_safe_float (_safe_text (find (lit "occupation_duration") occ) (lit "0")));
     r_comment :=
       _safe_text
         (match find (lit "occupation_comments") occ with
          | Some c => find (lit "description_description") c
          | None => None
          end) [] |}.

(** The [.xml] files of a folder, in any order, and the rows they give. *)
Definition xml_files (entries : list (str * result bytes)) : list (str * result bytes) :=
  List.filter (fun e => ends_with_xml (fst e)) entries.


Definition at_235959 : datetime :=
  {| dt_date := day_0108; hour := 23; minute := 59; second := 59 |}.

(** A folder entry with a record of 2026-01-08 23:59:59. *)
Definition document_235959 : bytes :=
  lit "<entities><occupation><occupation_occupationDate>2026-01-08 23:59:59</occupation_occupationDate><occupation_WO code='WO1'/></occupation></entities>".

(** A time [strftime] prints on nineteen characters and [tz.localize]
    accepts: a real calendar date with a four-digit year, the last day
    [datetime] can hold apart. *)
Definition datetime_ok (t : datetime) : bool :=
  let d := dt_date t in
  ((1000 <=? year d) && (year d <=? 9999) && (1 <=? month d) && (month d <=? 12)
   && (1 <=? day d) && (day d <=? days_in_month (year d) (month d))
   && (0 <=? hour t) && (hour t <? 24) && (0 <=? minute t) && (minute t <? 60)
   && (0 <=? second t) && (second t <? 60)
   && negb (date_eqb d {| year := 9999; month := 12; day := 31 |}))%Z.

(** A record whose duration is ten minutes. *)
Definition record_ten_minutes : Element :=
  build_occupation_element 300 (lit "BOB") at_172736 (Fin (10 # 60))
    (lit "WO-7") (lit "NORMAL") [] (lit "greasing").

(** [x] is the first element of [l]: the first way a matcher matches
    decides what [m_then] tries first. *)
Definition first_is {A} (x : A) (l : list A) : Prop := exists tl, l = x :: tl.

(** Printable ASCII other than the space. *)
Definition visible (c : N) : bool := between 33 126 c.

(** ** Durations typed as [HH:MM] *)

(** [s.split(sep)] for a separator of one character: the pieces between
    the separators, [cur] holding the piece being read, last character
    first. *)
Fixpoint str_split_from (sep : N) (cur : str) (s : str) : list str :=
  match s with
  | [] => [rev cur]
  | c :: r =>
      if c =? sep then rev cur :: str_split_from sep [] r
      else str_split_from sep (c :: cur) r
  end.

Definition str_split (sep : N) (s : str) : list str := str_split_from sep [] s.

(** [float(i)] for an [int]: the conversion raises [OverflowError] for the
    integers that would round to 2^1024, those from [float_overflow] on.
    Below that the value is the integer itself: the rounding of integers
    above 2^53 is not modelled, and statements about values keep the
    integer far below. *)
Definition float_overflow : Z := (2 ^ 1024 - 2 ^ 970)%Z.

Definition float_of_int (i : Z) : result pyfloat :=
  if (float_overflow <=? Z.abs i)%Z then Raise OtherError
  else Ok (Fin (inject_Z i)).

(** [parse_hhmm_to_hours]; the argument is [None] or a string. *)
Definition parse_hhmm_to_hours (hhmm : option str) : option pyfloat :=
  let s := strip (or_default hhmm []) in
  match s with
  | [] => None
  | _ :: _ =>
      if negb (existsb (N.eqb 58) s) then None
      else
        match str_split 58 s with
        | [p0; p1] =>
            match py_int p0 with
            | Raise _ => None
            | Ok hh =>
                match py_int p1 with
                | Raise _ => None
                | Ok mm =>
                    if ((hh <? 0) || (mm <? 0) || (60 <=? mm))%Z then None
                    else
                      match float_of_int hh, float_of_int mm with
                      | Ok (Fin h), Ok (Fin m) => Some (Fin (h + m / 60))
                      | _, _ => None
                      end
                end
            end
        | _ => None
        end
  end.

(** ** The counter under the lock *)

(** What holds of process [i] at statement [p] while the counter stands at
    [w]: the ids from [w0] up to [w], [w] apart, have been handed out. *)
Definition proc_ok (s : shared) (w0 w : Z) (i : nat) (p : pc) : Prop :=
  match p with
  | AtExists | AtLockExists | AtOpen | AtFlock => True
  | AtCreate | AtLockCreate => False
  | AtRead => lock s = Some i /\ read_counter (counter_now s) = Ok w
  | AtTruncate c => lock s = Some i /\ c = w
  | AtWrite c => lock s = Some i /\ c = w /\ counter_now s = []
  | AtUnlock r =>
      lock s = Some i /\ r = Ok w /\ read_counter (counter_now s) = Ok (w + 1)%Z
  | Finished r => exists c, r = Ok c /\ (w0 <= c < w)%Z
  end.

Definition counter_inv (w0 w : Z) (s : system) : Prop :=
  (COUNTER_START <= w0 <= w)%Z
  /\ counter (sh s) <> None
  /\ (lock (sh s) = None -> read_counter (counter_now (sh s)) = Ok w)
  /\ (forall i p, procs s !! i = Some p -> proc_ok (sh s) w0 w i p)
  /\ (forall i j ci cj,
        i <> j ->
        procs s !! i = Some (Finished (Ok ci)) ->
        procs s !! j = Some (Finished (Ok cj)) -> ci <> cj).

(** Two calls that take their first statements in turn; call 0 is the
    first to ask for the lock. *)
Definition alternating_schedule : list nat :=
  [0; 1; 0; 1; 0; 1; 0; 0; 0; 0; 0; 1; 1; 1; 1; 1]%nat.

(** Records appended to the aggregate file of a day, one call after the
    other, in the order of the list. *)
Definition append_all (fromstring : bytes -> option Element) (nt : bool) (d : date)
    (records : list Element) (files : fs) : fs :=
  fold_left (fun fs' r => snd (append_to_daily_all fromstring nt d r fs')) records files.

(** The envelope with the given children. *)
Definition envelope_with (children : list Element) : Element :=
  Elem (lit "entities") (e_attrib new_entities) None children None.

(** ** The range the statements keep to *)

(** The levels of a tree.  [ET.tostring] calls itself once for each level,
    and the interpreter refuses calls nested deeper than its recursion
    limit (1000 unless configured otherwise): statements about what is
    written are made for trees of at most a hundred levels. *)
Fixpoint depth (e : Element) : nat :=
  let 'Elem _ _ _ children _ := e in
  S ((fix go (l : list Element) : nat :=
        match l with
        | [] => 0%nat
        | c :: r => Nat.max (depth c) (go r)
        end) children).

Definition shallow (e : Element) : bool := (depth e <=? 100)%nat.

(** A day whose midnight [tz.localize] accepts and whose year [strftime]
    prints on four digits: a real calendar day from the year 1000 on, the
    last day [datetime] can hold apart. *)
Definition day_ok (d : date) : bool :=
  datetime_ok {| dt_date := d; hour := 0; minute := 0; second := 0 |}.

(** * Properties *)

(** ** Decimal numerals *)

Lemma between_spec lo hi c : between lo hi c = true <-> lo <= c <= hi.
Proof. unfold between. rewrite andb_true_iff, !N.leb_le. tauto. Qed.

Lemma dec_value_app acc s t :
  dec_value acc (s ++ t) = dec_value (dec_value acc s) t.
Proof. unfold dec_value. apply fold_left_app. Qed.

Lemma digits_le_length w n : length (digits_le w n) = w.
Proof. revert n. induction w as [|w IH]; intros n; simpl; [done|]. by rewrite IH. Qed.

Lemma digits_le_ascii w n : forallb is_ascii_digit (digits_le w n) = true.
Proof.
  revert n. induction w as [|w IH]; intros n; simpl; [done|].
  rewrite IH, andb_true_r. apply between_spec.
  pose proof (N.mod_upper_bound n 10 ltac:(lia)).
  generalize dependent (n mod 10). intros; lia.
Qed.

Lemma zfill_length w n : length (zfill w n) = w.
Proof. unfold zfill. by rewrite length_rev, digits_le_length. Qed.

Lemma forallb_rev {A} (p : A -> bool) l : forallb p (rev l) = forallb p l.
Proof.
  induction l as [|a l IH]; simpl; [done|].
  rewrite forallb_app, IH. simpl. rewrite andb_true_r. apply andb_comm.
Qed.

Lemma zfill_ascii w n : forallb is_ascii_digit (zfill w n) = true.
Proof. unfold zfill. rewrite forallb_rev. apply digits_le_ascii. Qed.

Lemma dec_value_zfill w n acc :
  dec_value acc (zfill w n) = acc * 10 ^ N.of_nat w + n mod 10 ^ N.of_nat w.
Proof.
  revert n acc. induction w as [|w IH]; intros n acc.
  - simpl. rewrite N.mod_1_r. lia.
  - unfold zfill in *. cbn [digits_le rev]. rewrite dec_value_app, IH.
    cbn [dec_value fold_left].
    rewrite Nat2N.inj_succ, N.pow_succ_r'.
    rewrite (N.Div0.mod_mul_r n 10 (10 ^ N.of_nat w)).
    generalize (n mod 10) ((n / 10) mod 10 ^ N.of_nat w) (10 ^ N.of_nat w).
    intros; lia.
Qed.

Lemma drop_zeros_cons c c' r :
  drop_zeros (c :: c' :: r) = if c =? 48 then drop_zeros (c' :: r) else c :: c' :: r.
Proof. reflexivity. Qed.

Lemma drop_zeros_value s : dec_value 0 (drop_zeros s) = dec_value 0 s.
Proof.
  induction s as [|c r IH]; [done|].
  destruct r as [|c' r']; [done|].
  rewrite drop_zeros_cons. destruct (c =? 48) eqn:E; [|done].
  apply N.eqb_eq in E. subst c. rewrite IH. reflexivity.
Qed.

Lemma drop_zeros_ascii s :
  forallb is_ascii_digit s = true -> forallb is_ascii_digit (drop_zeros s) = true.
Proof.
  induction s as [|c r IH]; [done|].
  destruct r as [|c' r']; [done|].
  rewrite drop_zeros_cons. destruct (c =? 48); [|done].
  intros H. apply IH. cbn [forallb] in H. apply andb_true_iff in H. tauto.
Qed.

Lemma drop_zeros_nonempty s : s <> [] -> drop_zeros s <> [].
Proof.
  induction s as [|c r IH]; [done|]. intros _.
  destruct r as [|c' r']; [done|].
  rewrite drop_zeros_cons. destruct (c =? 48); [|done]. by apply IH.
Qed.

Lemma pow2_le_pow10 k : 2 ^ k <= 10 ^ k.
Proof. apply N.pow_le_mono_l. lia. Qed.

Lemma str_of_N_value n : dec_value 0 (str_of_N n) = n.
Proof.
  unfold str_of_N. rewrite drop_zeros_value, dec_value_zfill.
  rewrite N.mod_small; [lia|].
  rewrite Nat2N.inj_succ, N2Nat.id.
  destruct (N.eq_dec n 0) as [->|Hn]; [done|].
  pose proof (N.log2_spec n ltac:(lia)) as [_ H].
  pose proof (pow2_le_pow10 (N.succ (N.log2 n))). lia.
Qed.

Lemma str_of_N_ascii n : forallb is_ascii_digit (str_of_N n) = true.
Proof. unfold str_of_N. apply drop_zeros_ascii, zfill_ascii. Qed.

Lemma str_of_N_nonempty n : str_of_N n <> [].
Proof.
  unfold str_of_N. apply drop_zeros_nonempty.
  intros H. apply (f_equal length) in H. rewrite zfill_length in H. done.
Qed.

(** ** Stripping, decoding and converting ASCII text *)

Ltac bool_cases :=
  repeat match goal with
    | |- context [N.leb ?a ?b] => destruct (N.leb_spec a b); try lia
    | |- context [N.ltb ?a ?b] => destruct (N.ltb_spec a b); try lia
    | |- context [N.eqb ?a ?b] => destruct (N.eqb_spec a b); try lia
    end; simpl; try done; try lia.

Lemma lstrip_with_none p s :
  forallb (fun c => negb (p c)) s = true -> lstrip_with p s = s.
Proof.
  destruct s as [|c r]; [done|]. simpl. intros H.
  apply andb_true_iff in H as [H _]. by destruct (p c).
Qed.

Lemma rstrip_with_none p s :
  forallb (fun c => negb (p c)) s = true -> rstrip_with p s = s.
Proof.
  intros H. unfold rstrip_with. rewrite lstrip_with_none.
  - apply rev_involutive.
  - by rewrite forallb_rev.
Qed.

Lemma forallb_impl {A} (p q : A -> bool) l :
  (forall a, p a = true -> q a = true) -> forallb p l = true -> forallb q l = true.
Proof.
  intros Hpq. induction l as [|a l IH]; simpl; [done|].
  rewrite !andb_true_iff. intros [? ?]. auto.
Qed.

Lemma ascii_digit_not_space c : is_ascii_digit c = true -> negb (py_isspace c) = true.
Proof.
  unfold is_ascii_digit. rewrite between_spec. intros [? ?].
  unfold py_isspace, between. bool_cases.
Qed.

Lemma strip_digits s : forallb is_ascii_digit s = true -> strip s = s.
Proof.
  intros H. unfold strip.
  assert (forallb (fun c => negb (py_isspace c)) s = true) as Hs
    by (revert H; apply forallb_impl, ascii_digit_not_space).
  by rewrite (lstrip_with_none _ _ Hs), rstrip_with_none.
Qed.

Lemma lstrip_with_suffix p s : exists k, lstrip_with p s = drop k s.
Proof.
  induction s as [|c r [k IH]]; [by exists 0%nat|]. simpl.
  destruct (p c); [by exists (S k) | by exists 0%nat].
Qed.

Lemma forallb_drop {A} (p : A -> bool) k l :
  forallb p l = true -> forallb p (drop k l) = true.
Proof.
  revert k. induction l as [|a l IH]; intros [|k]; simpl; try done.
  rewrite andb_true_iff. intros [_ ?]. by apply IH.
Qed.

Lemma lstrip_with_forallb p q s :
  forallb q s = true -> forallb q (lstrip_with p s) = true.
Proof.
  intros H. destruct (lstrip_with_suffix p s) as [k ->]. by apply forallb_drop.
Qed.

Lemma strip_forallb q s : forallb q s = true -> forallb q (strip s) = true.
Proof.
  intros H. unfold strip, rstrip_with.
  rewrite forallb_rev. apply lstrip_with_forallb. rewrite forallb_rev.
  by apply lstrip_with_forallb.
Qed.

Lemma decode_utf8_ascii s : is_ascii s = true -> decode_utf8_ignore s = s.
Proof.
  induction s as [|c r IH]; [done|]. simpl.
  rewrite andb_true_iff. intros [Hc Hr]. rewrite Hc. by rewrite IH.
Qed.

Lemma encode_utf8_ascii s : is_ascii s = true -> encode_utf8 s = s.
Proof.
  induction s as [|c r IH]; [done|]. simpl.
  rewrite andb_true_iff. intros [Hc Hr]. unfold encode_cp. rewrite Hc. simpl.
  f_equal. by apply IH.
Qed.

Lemma digits_are_ascii s : forallb is_ascii_digit s = true -> is_ascii s = true.
Proof.
  apply forallb_impl. intros c. unfold is_ascii_digit. rewrite between_spec.
  intros [? ?]. apply N.ltb_lt. lia.
Qed.

Lemma uni_decimal_digit c : is_ascii_digit c = true -> uni_decimal c = Some (c - 48).
Proof. unfold uni_decimal, is_ascii_digit. by intros ->. Qed.

Lemma int_digits_value st acc s :
  forallb is_ascii_digit s = true -> s <> [] -> st <> IntUnderscore ->
  int_digits st acc s = Some (dec_value acc s).
Proof.
  revert st acc. induction s as [|c r IH]; intros st acc H Hne Hst; [done|].
  simpl in H. apply andb_true_iff in H as [Hc Hr].
  cbn [int_digits]. rewrite (uni_decimal_digit _ Hc).
  assert ((c =? 95) = false) as ->.
  { apply N.eqb_neq. apply between_spec in Hc. lia. }
  destruct r as [|c' r'].
  - reflexivity.
  - rewrite IH; done.
Qed.

Lemma py_int_digits s :
  forallb is_ascii_digit s = true -> s <> [] ->
  py_int s = Ok (Z.of_N (dec_value 0 s)).
Proof.
  intros H Hne. unfold py_int, int_strip.
  assert (forallb (fun c => negb (int_isspace c)) s = true) as Hsp.
  { revert H. apply forallb_impl. intros c Hc. unfold int_isspace.
    apply ascii_digit_not_space, negb_true_iff in Hc. by rewrite Hc. }
  rewrite (lstrip_with_none _ _ Hsp), (rstrip_with_none _ _ Hsp).
  destruct s as [|c r]; [done|].
  assert (48 <= c <= 57) as Hc.
  { simpl in H. apply andb_true_iff in H as [Hc _]. by apply between_spec in Hc. }
  destruct (N.eqb_spec c 43); [lia|]. destruct (N.eqb_spec c 45); [lia|].
  rewrite int_digits_value by done. f_equal. lia.
Qed.

Lemma py_int_str_of_N n : py_int (str_of_N n) = Ok (Z.of_N n).
Proof.
  rewrite py_int_digits.
  - by rewrite str_of_N_value.
  - apply str_of_N_ascii.
  - apply str_of_N_nonempty.
Qed.

Lemma isdigit_digits s :
  forallb is_ascii_digit s = true -> s <> [] -> isdigit s = true.
Proof.
  intros H Hne. destruct s as [|c r]; [done|]. unfold isdigit.
  revert H. apply forallb_impl. intros a Ha. unfold uni_digit.
  unfold is_ascii_digit in Ha. by rewrite Ha.
Qed.

Lemma isdigit_ascii s :
  is_ascii s = true -> isdigit s = true ->
  forallb is_ascii_digit s = true /\ s <> [].
Proof.
  intros Ha Hd. destruct s as [|c r]; [done|]. split; [|done].
  unfold isdigit in Hd. unfold is_ascii in Ha.
  revert Ha Hd. generalize (c :: r). intros l.
  induction l as [|a l IH]; simpl; [done|].
  rewrite !andb_true_iff. intros [Ha Hl] [Hd Hdl]. split; [|by apply IH].
  unfold uni_digit in Hd. unfold is_ascii_digit.
  destruct (between 48 57 a); [done|].
  apply N.ltb_lt in Ha. revert Hd. bool_cases.
Qed.

(** ** The counter, run by one process *)

Lemma read_counter_digits s :
  forallb is_ascii_digit s = true -> s <> [] ->
  read_counter s = Ok (Z.max (Z.of_N (dec_value 0 s)) COUNTER_START).
Proof.
  intros H Hne. unfold read_counter.
  rewrite (decode_utf8_ascii _ (digits_are_ascii _ H)), (strip_digits _ H).
  rewrite (isdigit_digits _ H Hne), (py_int_digits _ H Hne).
  f_equal. destruct (Z.ltb_spec (Z.of_N (dec_value 0 s)) COUNTER_START); lia.
Qed.

Lemma str_of_int_N n : str_of_int (Z.of_N n) = str_of_N n.
Proof. by destruct n. Qed.

Lemma read_counter_str (n : Z) :
  (0 <= n)%Z ->
  read_counter (encode_utf8 (str_of_int n)) = Ok (Z.max n COUNTER_START).
Proof.
  intros Hn. rewrite <- (Z2N.id n Hn) at 1. rewrite str_of_int_N.
  rewrite encode_utf8_ascii by apply digits_are_ascii, str_of_N_ascii.
  rewrite read_counter_digits by (apply str_of_N_ascii || apply str_of_N_nonempty).
  rewrite str_of_N_value. by rewrite Z2N.id.
Qed.

Lemma read_counter_ascii b :
  is_ascii b = true ->
  exists r, read_counter b = Ok r /\ (COUNTER_START <= r)%Z
    /\ (isdigit (strip b) = false -> r = COUNTER_START)
    /\ (isdigit (strip b) = true ->
        r = Z.max (Z.of_N (dec_value 0 (strip b))) COUNTER_START).
Proof.
  intros Ha. unfold read_counter. rewrite (decode_utf8_ascii _ Ha).
  destruct (isdigit (strip b)) eqn:Hd.
  - destruct (isdigit_ascii (strip b)) as [Hs Hne]; [by apply strip_forallb|done|].
    rewrite (py_int_digits _ Hs Hne). eexists. split; [reflexivity|].
    destruct (Z.ltb_spec (Z.of_N (dec_value 0 (strip b))) COUNTER_START);
      repeat split; try done; lia.
  - exists COUNTER_START. by repeat split.
Qed.

Lemma drop_nil_any {A} k : drop k (@nil A) = [].
Proof. by destruct k. Qed.

Lemma counter_body_run b p :
  counter_body {| f_data := b; f_pos := p |} =
  match read_counter b with
  | Ok r =>
      let text := encode_utf8 (str_of_int (r + 1)) in
      (Ok r, {| f_data := text; f_pos := length text |})
  | Raise e => (Raise e, {| f_data := b; f_pos := length b |})
  end.
Proof.
  unfold counter_body, fbind, f_seek0, f_read, f_truncate, f_write, lift, fret, upto.
  cbn. rewrite drop_0.
  destruct (read_counter b) as [r|e]; [|done].
  cbn. rewrite !take_0. cbn. by rewrite drop_nil_any, app_nil_r.
Qed.

Lemma nt_placeholder_run (nt : bool) b :
  (if nt then nt_placeholder else fret tt) {| f_data := b; f_pos := 0 |} =
  (Ok tt, {| f_data := as_locked nt b; f_pos := 0 |}).
Proof.
  destruct nt; [|done]. destruct b as [|c r]; [done|].
  unfold nt_placeholder, fbind, f_seek_end, f_tell, f_seek0. reflexivity.
Qed.

Lemma locked_counter (nt : bool) (p : str) (b : bytes) (files : fs) :
  files !! p = Some b ->
  locked_file nt p RPlusB counter_body files =
  match read_counter (as_locked nt b) with
  | Ok r => (Ok r, <[p := encode_utf8 (str_of_int (r + 1))]> files)
  | Raise e => (Raise e, <[p := as_locked nt b]> files)
  end.
Proof.
  intros Hb. unfold locked_file, path_exists, open_file. rewrite Hb.
  cbn [mode_is_update negb andb]. rewrite Hb.
  unfold fbind at 1. rewrite nt_placeholder_run, counter_body_run.
  by destruct (read_counter (as_locked nt b)).
Qed.

Lemma read_counter_as_locked nt b : read_counter (as_locked nt b) = read_counter b.
Proof. destruct nt; [|done]. by destruct b. Qed.

Lemma next_id_run (nt : bool) (d : date) (files : fs) :
  get_next_occupation_id_for_day nt d files =
  match read_counter (counter_bytes d files) with
  | Ok r =>
      (Ok r, <[counter_file_for_day d := encode_utf8 (str_of_int (r + 1))]> files)
  | Raise e =>
      (Raise e, <[counter_file_for_day d := as_locked nt (counter_bytes d files)]> files)
  end.
Proof.
  unfold get_next_occupation_id_for_day, counter_bytes, path_exists.
  destruct (files !! counter_file_for_day d) as [b|] eqn:Hb; cbn [default].
  - rewrite (locked_counter nt _ b) by done. by rewrite read_counter_as_locked.
  - rewrite (locked_counter nt _ (encode_utf8 (str_of_int COUNTER_START)))
      by apply lookup_insert_eq.
    rewrite read_counter_as_locked.
    destruct (read_counter _); by rewrite insert_insert_eq.
Qed.

Lemma counter_bytes_some (d : date) (files : fs) (b : bytes) :
  files !! counter_file_for_day d = Some b -> counter_bytes d files = b.
Proof. unfold counter_bytes. by intros ->. Qed.

Lemma counter_bytes_none (d : date) (files : fs) :
  files !! counter_file_for_day d = None ->
  counter_bytes d files = encode_utf8 (str_of_int COUNTER_START).
Proof. unfold counter_bytes. by intros ->. Qed.

(** C2, where the code departs from the claim: a counter file that holds a
    superscript two (UTF-8 bytes C2 B2) passes [isdigit] but is refused by
    [int]; the call raises [ValueError] instead of counting the unparsable
    value as 300, and the file stays as it was, so every later call for that
    day fails the same way. *)
Theorem next_id_superscript_digit_raises (nt : bool) (d : date) (files : fs) :
  get_next_occupation_id_for_day nt d (<[counter_file_for_day d := [194; 178]]> files)
  = (Raise ValueError, <[counter_file_for_day d := [194; 178]]> files).
Proof.
  rewrite next_id_run, (counter_bytes_some _ _ [194; 178]) by apply lookup_insert_eq.
  replace (read_counter [194; 178]) with (@Raise Z ValueError)
    by (vm_compute; reflexivity).
  replace (as_locked nt [194; 178]) with [194; 178] by (by destruct nt).
  by rewrite insert_insert_eq.
Qed.

Lemma counter_fresh_run (nt : bool) (d : date) (files : fs) :
  files !! counter_file_for_day d = None ->
  get_next_occupation_id_for_day nt d files
  = (Ok 300%Z, <[counter_file_for_day d := lit "301"]> files).
Proof.
  intros H. rewrite next_id_run, counter_bytes_none by done.
  rewrite read_counter_str by done. reflexivity.
Qed.

(** X1. First call of a day (a day [day_ok] accepts): the counter file
    does not exist; the call returns 300, leaves the counter file holding
    the text 301, and leaves every other file as it was. *)
Theorem next_id_fresh_day (nt : bool) (d : date) (files : fs) :
  day_ok d = true ->
  files !! counter_file_for_day d = None ->
  exists files',
    get_next_occupation_id_for_day nt d files = (Ok 300%Z, files')
    /\ files' !! counter_file_for_day d = Some (lit "301")
    /\ forall p, p <> counter_file_for_day d -> files' !! p = files !! p.
Proof.
  intros _ H. eexists. split; [by apply counter_fresh_run|].
  split; [apply lookup_insert_eq|]. intros p Hp. by apply lookup_insert_ne.
Qed.

Lemma next_id_fresh_day_witness :
  exists files',
    get_next_occupation_id_for_day false day_0108 ∅ = (Ok 300%Z, files')
    /\ files' !! counter_file_for_day day_0108 = Some (lit "301")
    /\ forall p, p <> counter_file_for_day day_0108 -> files' !! p = (∅ : fs) !! p.
Proof. apply (next_id_fresh_day false day_0108 ∅); reflexivity. Defined.

Lemma counter_stored_run (nt : bool) (d : date) (files : fs) (n : Z) :
  (0 <= n)%Z ->
  files !! counter_file_for_day d = Some (encode_utf8 (str_of_int n)) ->
  get_next_occupation_id_for_day nt d files
  = (Ok (Z.max n COUNTER_START),
     <[counter_file_for_day d := encode_utf8 (str_of_int (Z.max n COUNTER_START + 1))]> files).
Proof.
  intros Hn H. rewrite next_id_run, (counter_bytes_some _ _ _ H).
  by rewrite read_counter_str.
Qed.

(** X2. On a day [day_ok] accepts, a counter file that holds the decimal
    text of [n], [n] from 0 to a number of a thousand digits: the call
    returns [n], or 300 when [n] is below 300 (a counter below the base
    counts as the base), and leaves the decimal text of the returned id
    plus one. *)
Theorem next_id_stored (nt : bool) (d : date) (files : fs) (n : Z) :
  day_ok d = true ->
  (0 <= n < 10 ^ 1000)%Z ->
  files !! counter_file_for_day d = Some (encode_utf8 (str_of_int n)) ->
  get_next_occupation_id_for_day nt d files
  = (Ok (Z.max n 300),
     <[counter_file_for_day d := encode_utf8 (str_of_int (Z.max n 300 + 1))]> files).
Proof. intros _ [Hn _] H. by apply counter_stored_run. Qed.

Lemma next_id_stored_witness :
  get_next_occupation_id_for_day true day_0108
    (<[counter_file_for_day day_0108 := lit "17"]> ∅)
  = (Ok 300%Z,
     <[counter_file_for_day day_0108 := lit "301"]>
       (<[counter_file_for_day day_0108 := lit "17"]> ∅)).
Proof.
  apply (next_id_stored true day_0108 _ 17); [reflexivity|split; [lia|reflexivity]|].
  apply lookup_insert_eq.
Defined.

(** X3. On a day [day_ok] accepts, a counter file of at most a thousand
    7-bit bytes never makes the call fail: the id is at least 300, it is 300
    when the text (stripped) is not a string of digits, the stored number
    clamped to 300 when it is, and the file is left with the decimal text of
    the id plus one. *)
Theorem next_id_ascii (nt : bool) (d : date) (files : fs) (b : bytes) :
  day_ok d = true ->
  files !! counter_file_for_day d = Some b ->
  is_ascii b = true -> (length b <= 1000)%nat ->
  exists r,
    get_next_occupation_id_for_day nt d files
    = (Ok r, <[counter_file_for_day d := encode_utf8 (str_of_int (r + 1))]> files)
    /\ (COUNTER_START <= r)%Z
    /\ (isdigit (strip b) = false -> r = COUNTER_START)
    /\ (isdigit (strip b) = true ->
        r = Z.max (Z.of_N (dec_value 0 (strip b))) COUNTER_START).
Proof.
  intros _ H Ha _. destruct (read_counter_ascii b Ha) as (r & Hr & Hrest).
  exists r. split; [|exact Hrest].
  by rewrite next_id_run, (counter_bytes_some _ _ _ H), Hr.
Qed.

Lemma next_id_ascii_witness :
  exists r,
    get_next_occupation_id_for_day false day_0108
      (<[counter_file_for_day day_0108 := lit " 412x"]> ∅)
    = (Ok r,
       <[counter_file_for_day day_0108 := encode_utf8 (str_of_int (r + 1))]>
         (<[counter_file_for_day day_0108 := lit " 412x"]> ∅))
    /\ (COUNTER_START <= r)%Z
    /\ (isdigit (strip (lit " 412x")) = false -> r = COUNTER_START)
    /\ (isdigit (strip (lit " 412x")) = true ->
        r = Z.max (Z.of_N (dec_value 0 (strip (lit " 412x")))) COUNTER_START).
Proof.
  apply (next_id_ascii false day_0108 _ (lit " 412x")).
  - reflexivity.
  - apply lookup_insert_eq.
  - reflexivity.
  - cbn. lia.
Defined.

(** Calls that follow one another count up: from a file that holds the
    decimal text of [m >= 300], [n] calls return [m], [m+1], ... in order. *)
Lemma next_ids_from (nt : bool) (d : date) (n : nat) (files : fs) (m : Z) :
  (COUNTER_START <= m)%Z ->
  files !! counter_file_for_day d = Some (encode_utf8 (str_of_int m)) ->
  next_ids nt d n files
  = (List.map (fun i => Ok (m + Z.of_nat i)%Z) (seq 0 n),
     <[counter_file_for_day d := encode_utf8 (str_of_int (m + Z.of_nat n))]> files).
Proof.
  revert files m. induction n as [|n IH]; intros files m Hm H.
  - cbn [next_ids seq List.map]. rewrite Z.add_0_r. by rewrite insert_id.
  - cbn [next_ids]. unfold COUNTER_START in Hm.
    rewrite (counter_stored_run nt d files m) by (done || lia).
    rewrite Z.max_l by (unfold COUNTER_START; lia).
    rewrite (IH _ (m + 1)%Z) by (unfold COUNTER_START; lia || apply lookup_insert_eq).
    rewrite insert_insert_eq. cbn [seq List.map]. f_equal.
    + f_equal; [f_equal; lia|]. rewrite <- seq_shift, List.map_map.
      apply List.map_ext. intros i. f_equal. lia.
    + do 3 f_equal. lia.
Qed.

(** X4. Calls made one after the other: on a day [day_ok] accepts and
    without a counter file, [n] calls ([n] up to a million) return exactly
    300, 301, ..., 300 + n - 1, in this order. *)
Theorem sequential_ids_from_300 (nt : bool) (d : date) (n : nat) (files : fs) :
  day_ok d = true ->
  files !! counter_file_for_day d = None -> (Z.of_nat n <= 1000000)%Z ->
  fst (next_ids nt d n files)
  = List.map (fun i => Ok (300 + Z.of_nat i)%Z) (seq 0 n).
Proof.
  intros _ H _. destruct n as [|n]; [done|].
  cbn [next_ids]. rewrite (counter_fresh_run nt d files H).
  rewrite (next_ids_from nt d n _ 301) by (unfold COUNTER_START; lia || apply lookup_insert_eq).
  cbn [fst seq List.map]. f_equal.
  rewrite <- seq_shift, List.map_map. apply List.map_ext. intros i. f_equal. lia.
Qed.

Lemma sequential_ids_from_300_witness :
  fst (next_ids false day_0108 3 ∅) = [Ok 300%Z; Ok 301%Z; Ok 302%Z].
Proof.
  apply (sequential_ids_from_300 false day_0108 3 ∅); [reflexivity|reflexivity|lia].
Defined.

(** ** The counter under concurrent calls *)

(** C1, where the code departs from the claim: the counter file is created
    (line 169) outside the lock.  Two calls on a day without a counter file,
    interleaved as [racy_schedule], both return 300. *)
Theorem concurrent_calls_duplicate_id :
  exists s, run racy_schedule (calls 2 None) = Some s
    /\ returned s = [Some (Ok 300%Z); Some (Ok 300%Z)]
    /\ counter (sh s) = Some (lit "301").
Proof. eexists. split; [vm_compute; reflexivity|]. split; reflexivity. Qed.

(** ** The atomic writer *)

Lemma tmp_path_fresh (path hex : str) : tmp_path path hex <> path.
Proof.
  unfold tmp_path. intros H. apply (f_equal length) in H.
  rewrite !length_app in H. cbn in H. lia.
Qed.

Lemma aw_inv_step (path hex : str) (content : bytes) (files : fs) (s s' : aw_state) :
  aw_inv path hex content files s ->
  aw_step path hex content s s' ->
  aw_inv path hex content files s'.
Proof.
  pose proof (tmp_path_fresh path hex) as Hne.
  intros Hinv Hstep. destruct Hstep; unfold aw_inv in *; cbn in *.
  - rewrite lookup_insert_ne, lookup_insert_eq by done. by rewrite take_0.
  - destruct Hinv as [Hp _].
    by rewrite lookup_insert_ne, lookup_insert_eq.
  - destruct Hinv as [Hp Ht]. by rewrite firstn_all in Ht.
  - destruct Hinv as [_ Ht]. rewrite lookup_insert_eq. congruence.
  - destruct p; try done; by destruct Hinv.
  - destruct p; rewrite ?H, ?H0; done.
Qed.

Lemma aw_inv_reach (path hex : str) (content : bytes) (files : fs) (s : aw_state) :
  aw_reach path hex content files s -> aw_inv path hex content files s.
Proof.
  induction 1 as [|s s' _ IH Hstep]; [done|]. by eapply aw_inv_step.
Qed.

(** C5: whatever point a call of [atomic_write_bytes] has reached (whether
    it is still running, was interrupted, or failed), the target path holds
    what it held before the call, in full, unless the rename has happened;
    after the rename it holds the new content, in full.  The bytes written
    so far are in the temporary file, whose path differs from the target's. *)
Theorem atomic_write_old_or_new
    (path hex : str) (content : bytes) (files : fs) (s : aw_state) :
  aw_reach path hex content files s ->
  tmp_path path hex <> path
  /\ (aw_at s <> AwDone -> aw_files s !! path = files !! path)
  /\ (aw_at s = AwDone -> aw_files s !! path = Some content)
  /\ (aw_files s !! path = files !! path \/ aw_files s !! path = Some content).
Proof.
  intros Hr. apply aw_inv_reach in Hr. unfold aw_inv in Hr.
  split; [apply tmp_path_fresh|].
  destruct (aw_at s); repeat split; try done; try tauto; try (left; tauto);
    try (by right).
Qed.

(** A call that is not interrupted ends with the rename, and the files are
    then those the function computes. *)
Lemma atomic_write_completes (path hex : str) (content : bytes) (files : fs) :
  aw_reach path hex content files
    {| aw_files := atomic_write_bytes path hex content files; aw_at := AwDone |}.
Proof.
  unfold atomic_write_bytes. rewrite lookup_insert_eq.
  eapply aw_reach_step; [|apply aw_replace, lookup_insert_eq].
  eapply aw_reach_step; [|apply aw_close].
  destruct content as [|c r].
  - eapply aw_reach_step; [apply aw_reach_start|]. apply aw_open.
  - eapply aw_reach_step.
    + eapply aw_reach_step; [apply aw_reach_start|]. apply aw_open.
    + replace (<[tmp_path path hex := c :: r]> files)
        with (<[tmp_path path hex := take (length (c :: r)) (c :: r)]>
                (<[tmp_path path hex := []]> files)).
      * apply aw_write; simpl; lia.
      * by rewrite firstn_all, insert_insert_eq.
Qed.

Lemma atomic_write_bytes_target (path hex : str) (content : bytes) (files : fs) :
  atomic_write_bytes path hex content files !! path = Some content.
Proof.
  unfold atomic_write_bytes. rewrite lookup_insert_eq. apply lookup_insert_eq.
Qed.

(** An interrupted write: the temporary file holds the first two bytes, the
    target still holds the old content. *)
Lemma atomic_write_old_or_new_witness :
  let path := lit "data/BOB/e.xml" in
  let hex := lit "0123456789abcdef0123456789abcdef" in
  let files : fs := <[path := lit "old"]> ∅ in
  let s := {| aw_files := <[tmp_path path hex := lit "ne"]> (<[tmp_path path hex := []]> files);
              aw_at := AwFailed |} in
  tmp_path path hex <> path
  /\ (aw_at s <> AwDone -> aw_files s !! path = files !! path)
  /\ (aw_at s = AwDone -> aw_files s !! path = Some (lit "new"))
  /\ (aw_files s !! path = files !! path \/ aw_files s !! path = Some (lit "new")).
Proof.
  intros path hex files s.
  apply (atomic_write_old_or_new path hex (lit "new") files s).
  apply (aw_reach_step _ _ _ _
           {| aw_files := <[tmp_path path hex := lit "ne"]> (<[tmp_path path hex := []]> files);
              aw_at := AwWriting 2 |}); [|by apply aw_fail].
  apply (aw_reach_step _ _ _ _
           {| aw_files := <[tmp_path path hex := []]> files; aw_at := AwWriting 0 |}).
  - apply (aw_reach_step _ _ _ _ {| aw_files := files; aw_at := AwStart |});
      [apply aw_reach_start | apply aw_open].
  - apply (aw_write _ _ (lit "new") _ 0 2); simpl; lia.
Defined.

(** ** The XML model: serializing and parsing again *)

Lemma Element_ind' (P : Element -> Prop) :
  (forall tag attrib text children tail,
      Forall P children -> P (Elem tag attrib text children tail)) ->
  forall e, P e.
Proof.
  intros H. fix IH 1. intros [tag attrib text children tail]. apply H.
  induction children as [|c cs IHcs]; constructor; [apply IH | exact IHcs].
Qed.

Lemma serialize_eq tag attrib text children tail :
  serialize (Elem tag attrib text children tail) =
  lit "<" ++ tag ++ flat_map serialize_attr attrib
  ++ (if is_nonempty text || negb (bool_decide (children = []))
      then lit ">" ++ escape_cdata (or_default text []) ++ flat_map serialize children
           ++ lit "</" ++ tag ++ lit ">"
      else lit " />")
  ++ escape_cdata (or_default tail []).
Proof. reflexivity. Qed.

Lemma weight_eq tag attrib text children tail :
  weight (Elem tag attrib text children tail) = S (weight_list children).
Proof. reflexivity. Qed.

Lemma scan_text_char (c : N) (X : str) :
  text_char_ok c = true ->
  scan_text (escape_cdata_char c ++ X) =
  match scan_text X with Some (t, r) => Some (c :: t, r) | None => None end.
Proof.
  intros Hc. unfold scan_text, escape_cdata_char.
  destruct (N.eqb_spec c 38) as [->|H38]; [reflexivity|].
  destruct (N.eqb_spec c 60) as [->|H60]; [reflexivity|].
  destruct (N.eqb_spec c 62) as [->|H62]; [reflexivity|].
  cbn [app scan_chars].
  destruct (N.eqb_spec 60 c) as [<-|_]; [done|].
  destruct (N.eqb_spec c 38) as [|_]; [done|].
  destruct (N.eqb_spec c 62) as [|_]; [done|]. reflexivity.
Qed.

Lemma scan_text_escape (s rest : str) :
  forallb text_char_ok s = true ->
  (rest = [] \/ exists r, rest = 60 :: r) ->
  scan_text (escape_cdata s ++ rest) = Some (s, rest).
Proof.
  intros Hs Hrest. induction s as [|c s IH].
  - destruct Hrest as [->|[r ->]]; reflexivity.
  - cbn [forallb] in Hs. apply andb_true_iff in Hs as [Hc Hs].
    unfold escape_cdata. cbn [flat_map]. rewrite <- app_assoc.
    rewrite (scan_text_char c _ Hc). fold (escape_cdata s). by rewrite IH.
Qed.

Lemma scan_value_char (c : N) (X : str) :
  attr_char_ok c = true ->
  scan_value 34 (escape_attrib_char c ++ X) =
  match scan_value 34 X with Some (t, r) => Some (c :: t, r) | None => None end.
Proof.
  intros Hc. unfold scan_value, escape_attrib_char.
  destruct (N.eqb_spec c 38) as [->|H38]; [reflexivity|].
  destruct (N.eqb_spec c 60) as [->|H60]; [reflexivity|].
  destruct (N.eqb_spec c 62) as [->|H62]; [reflexivity|].
  destruct (N.eqb_spec c 34) as [->|H34]; [reflexivity|].
  destruct (N.eqb_spec c 13) as [->|H13]; [reflexivity|].
  destruct (N.eqb_spec c 10) as [->|H10]; [reflexivity|].
  destruct (N.eqb_spec c 9) as [->|H9]; [reflexivity|].
  cbn [app scan_chars].
  destruct (N.eqb_spec 34 c) as [<-|_]; [done|].
  destruct (N.eqb_spec c 38) as [|_]; [done|].
  destruct (N.eqb_spec c 60) as [|_]; [done|].
  destruct (is_ws c) eqn:Hw; [|reflexivity].
  assert (c = 32) as ->; [|reflexivity].
  revert Hw. unfold is_ws. bool_cases.
Qed.

Lemma scan_value_escape (v rest : str) :
  forallb attr_char_ok v = true ->
  scan_value 34 (escape_attrib v ++ 34 :: rest) = Some (v, 34 :: rest).
Proof.
  intros Hv. induction v as [|c v IH].
  - reflexivity.
  - cbn [forallb] in Hv. apply andb_true_iff in Hv as [Hc Hv].
    unfold escape_attrib. cbn [flat_map]. rewrite <- app_assoc.
    rewrite (scan_value_char c _ Hc). fold (escape_attrib v). by rewrite IH.
Qed.

Lemma scan_name_app (n rest : str) :
  forallb is_name_char n = true ->
  match rest with c :: _ => is_name_char c = false | [] => True end ->
  scan_name (n ++ rest) = (n, rest).
Proof.
  intros Hn Hrest. induction n as [|c n IH].
  - destruct rest as [|c r]; [done|]. cbn. by rewrite Hrest.
  - cbn [forallb] in Hn. apply andb_true_iff in Hn as [Hc Hn].
    cbn [app scan_name]. rewrite Hc, IH; done.
Qed.

Lemma is_name_chars (n : str) : is_name n = true -> forallb is_name_char n = true.
Proof.
  destruct n as [|c r]; [done|]. cbn. rewrite !andb_true_iff. intros [Hc Hr].
  split; [|done]. unfold is_name_char. by rewrite Hc.
Qed.

Lemma is_name_head (n : str) :
  is_name n = true -> exists c r, n = c :: r /\ is_name_start c = true.
Proof.
  destruct n as [|c r]; [done|]. cbn. rewrite andb_true_iff. intros [Hc _]. eauto.
Qed.

Lemma name_start_facts (c : N) :
  is_name_start c = true ->
  is_ws c = false /\ c <> 62 /\ c <> 47 /\ c <> 60 /\ c <> 61 /\ c <> 34.
Proof.
  unfold is_name_start, is_ws, between. intros H.
  repeat split; try (intros ->; done). revert H. bool_cases.
Qed.

Lemma lstrip_ws_head (c : N) (r : str) :
  is_ws c = false -> lstrip_with is_ws (c :: r) = c :: r.
Proof. intros H. cbn. by rewrite H. Qed.

Lemma existsb_fst_false (k : str) (seen : list (str * str)) :
  k ∉ List.map fst seen ->
  existsb (fun kv => bool_decide (fst kv = k)) seen = false.
Proof.
  induction seen as [|[k' v'] seen IH]; [done|]. cbn. intros H.
  rewrite not_elem_of_cons in H. destruct H as [Hne Hin].
  rewrite bool_decide_eq_false_2 by congruence. by apply IH.
Qed.

Lemma parse_attrs_serialized (attrs seen : list (str * str)) (fuel : nat)
    (selfclosing : bool) (rest : str) :
  forallb attr_ok attrs = true ->
  NoDup (List.map fst attrs) ->
  (forall k, k ∈ List.map fst attrs -> k ∉ List.map fst seen) ->
  (length attrs < fuel)%nat ->
  parse_attrs fuel seen
    (flat_map serialize_attr attrs
     ++ (if selfclosing then lit " />" else lit ">") ++ rest)
  = Some (rev seen ++ attrs, selfclosing, rest).
Proof.
  revert seen fuel. induction attrs as [|[k v] attrs IH]; intros seen fuel Hok Hnd Hseen Hfuel.
  - destruct fuel as [|fuel]; [cbn in Hfuel; lia|]. rewrite app_nil_r.
    destruct selfclosing; reflexivity.
  - destruct fuel as [|fuel]; [cbn in Hfuel; lia|].
    cbn [forallb] in Hok. apply andb_true_iff in Hok as [Hkv Hok].
    unfold attr_ok in Hkv. cbn [fst snd] in Hkv.
    apply andb_true_iff in Hkv as [Hkv Hv]. apply andb_true_iff in Hkv as [Hname Hxmlns].
    apply negb_true_iff, bool_decide_eq_false in Hxmlns.
    destruct (is_name_head k Hname) as (c & r & -> & Hc).
    destruct (name_start_facts c Hc) as (Hws & H62 & H47 & H60 & H61 & H34).
    cbn [List.map fst] in Hnd, Hseen. apply NoDup_cons in Hnd as [Hnotin Hnd].
    set (X := flat_map serialize_attr attrs
              ++ (if selfclosing then lit " />" else lit ">") ++ rest).
    assert (flat_map serialize_attr ((c :: r, v) :: attrs)
              ++ (if selfclosing then lit " />" else lit ">") ++ rest
            = 32 :: (c :: r) ++ 61 :: 34 :: escape_attrib v ++ 34 :: X) as ->.
    { subst X. cbn [flat_map]. unfold serialize_attr at 1. cbn [fst snd].
      change (lit " ") with [32]. change (lit "=") with [61].
      rewrite <- !app_assoc. reflexivity. }
    cbn [parse_attrs].
    assert (lstrip_with is_ws (32 :: (c :: r) ++ 61 :: 34 :: escape_attrib v ++ 34 :: X)
            = (c :: r) ++ 61 :: 34 :: escape_attrib v ++ 34 :: X) as ->.
    { cbn [app lstrip_with]. rewrite Hws. reflexivity. }
    cbn [app]. rewrite (proj2 (N.eqb_neq c 62) H62), (proj2 (N.eqb_neq c 47) H47).
    rewrite bool_decide_eq_false_2.
    2:{ intros E. apply (f_equal length) in E. cbn in E. lia. }
    change (c :: r ++ 61 :: 34 :: escape_attrib v ++ 34 :: X)
      with ((c :: r) ++ 61 :: 34 :: escape_attrib v ++ 34 :: X).
    rewrite scan_name_app by (by apply is_name_chars || reflexivity).
    rewrite Hname. cbn [negb orb].
    rewrite bool_decide_eq_false_2 by done. cbn [orb].
    rewrite existsb_fst_false by (apply Hseen; left).
    rewrite (lstrip_ws_head 61) by reflexivity. cbn [N.eqb Pos.eqb].
    rewrite (lstrip_ws_head 34) by reflexivity. cbn [N.eqb Pos.eqb orb].
    rewrite scan_value_escape by done.
    subst X. rewrite IH; try done.
    + cbn [rev]. by rewrite <- app_assoc.
    + intros k' Hk'. cbn [List.map fst]. rewrite not_elem_of_cons. split.
      * intros ->. done.
      * apply Hseen. by right.
    + cbn in Hfuel. lia.
Qed.

Lemma strip_prefix_app (p r : str) : strip_prefix p (p ++ r) = Some r.
Proof.
  induction p as [|a p IH]; [by destruct r|]. cbn. by rewrite N.eqb_refl.
Qed.

Lemma serialize_attrs_length (attrs : list (str * str)) :
  (length attrs <= length (flat_map serialize_attr attrs))%nat.
Proof.
  induction attrs as [|kv attrs IH]; [done|].
  cbn [flat_map]. rewrite length_app.
  assert (1 <= length (serialize_attr kv))%nat
    by (unfold serialize_attr; rewrite length_app; cbn; lia).
  cbn [length]. lia.
Qed.

(** What follows a tag name in a serialized start tag is no name character. *)
Lemma after_tag_not_name (attrs : list (str * str)) (selfclosing : bool) (rest : str) :
  match flat_map serialize_attr attrs
        ++ (if selfclosing then lit " />" else lit ">") ++ rest with
  | c :: _ => is_name_char c = false
  | [] => True
  end.
Proof. destruct attrs as [|kv attrs]; [by destruct selfclosing|reflexivity]. Qed.

Lemma serialize_head (e : Element) :
  is_name (e_tag e) = true ->
  exists c r, serialize e = 60 :: c :: r /\ c <> 47.
Proof.
  destruct e as [tag attrib text children tail]. cbn [e_tag]. intros Hn.
  destruct (is_name_head tag Hn) as (c & r & -> & Hc).
  rewrite serialize_eq. change (lit "<") with [60]. cbn [app].
  eexists _, _. split; [reflexivity|].
  by destruct (name_start_facts c Hc) as (_ & _ & H47 & _).
Qed.

Lemma xml_safe_tag (e : Element) : xml_safe e = true -> is_name (e_tag e) = true.
Proof.
  destruct e as [tag attrib text children tail]. cbn [xml_safe e_tag].
  rewrite !andb_true_iff. tauto.
Qed.

(** A serialized list of siblings followed by an end tag starts with [<]. *)
Lemma siblings_head (cs : list Element) (rest : str) :
  forallb xml_safe cs = true ->
  exists r, flat_map serialize cs ++ 60 :: 47 :: rest = 60 :: r.
Proof.
  destruct cs as [|c cs]; [by eexists|]. cbn [forallb flat_map].
  rewrite andb_true_iff. intros [Hc _].
  destruct (serialize_head c (xml_safe_tag c Hc)) as (a & r & -> & _).
  cbn [app]. by eexists.
Qed.

Lemma serialize_untail (e : Element) :
  serialize e = serialize (set_tail None e) ++ escape_cdata (or_default (e_tail e) []).
Proof.
  destruct e as [tag attrib text children tail]. cbn [set_tail e_tail].
  rewrite !serialize_eq. cbn [or_default escape_cdata flat_map].
  rewrite app_nil_r. by rewrite <- !app_assoc.
Qed.

Lemma canon_tail (e : Element) :
  set_tail (opt_text (or_default (e_tail e) [])) (set_tail None (canon e)) = canon e.
Proof. by destruct e. Qed.

Lemma parse_children_serialized (cs : list Element) :
  Forall parses_back cs ->
  forallb xml_safe cs = true ->
  forall (fuel : nat) (rest : str),
    (weight_list cs <= fuel)%nat ->
    parse_children fuel (flat_map serialize cs ++ 60 :: 47 :: rest)
    = Some (List.map canon cs, 60 :: 47 :: rest).
Proof.
  induction cs as [|c cs IH]; intros HP Hsafe fuel rest Hfuel.
  - destruct fuel as [|fuel]; [cbn in Hfuel; lia|]. reflexivity.
  - apply Forall_cons in HP as [Hc HP].
    cbn [forallb] in Hsafe. apply andb_true_iff in Hsafe as [Hsc Hscs].
    cbn [weight_list fold_right] in Hfuel. fold (weight_list cs) in Hfuel.
    destruct fuel as [|fuel]; [lia|].
    cbn [flat_map]. rewrite <- app_assoc.
    destruct (serialize_head c (xml_safe_tag c Hsc)) as (a & r & Hser & Ha).
    cbn [parse_children]. rewrite Hser at 1. cbn [app].
    rewrite (proj2 (N.eqb_neq a 47) Ha), andb_false_r.
    rewrite (serialize_untail c), <- app_assoc.
    rewrite (Hc fuel) by lia.
    destruct (siblings_head cs rest Hscs) as [r' Hr'].
    rewrite scan_text_escape.
    + rewrite (IH HP Hscs fuel rest) by lia.
      cbn [List.map]. by rewrite canon_tail.
    + destruct c as [tag attrib text children tail]. cbn [xml_safe] in Hsc.
      rewrite !andb_true_iff in Hsc. cbn [e_tail]. tauto.
    + right. eauto.
Qed.

Lemma parse_element_serialized (e : Element) :
  xml_safe e = true -> parses_back e.
Proof.
  induction e as [tag attrib text children tail IH] using Element_ind'.
  intros Hsafe fuel rest Hfuel.
  cbn [xml_safe] in Hsafe. rewrite !andb_true_iff in Hsafe.
  destruct Hsafe as (((((Htag & Hattr) & Hnd) & Htext) & Hch) & Htail).
  apply bool_decide_eq_true in Hnd.
  rewrite weight_eq in Hfuel. destruct fuel as [|fuel]; [lia|].
  cbn [set_tail canon]. rewrite serialize_eq.
  cbn [or_default escape_cdata flat_map]. rewrite app_nil_r.
  set (closed := negb (is_nonempty text || negb (bool_decide (children = [])))).
  set (R := if closed then rest
            else escape_cdata (or_default text []) ++ flat_map serialize children
                 ++ 60 :: 47 :: tag ++ 62 :: rest).
  assert ((lit "<" ++ tag ++ flat_map serialize_attr attrib
           ++ (if is_nonempty text || negb (bool_decide (children = []))
               then lit ">" ++ escape_cdata (or_default text [])
                    ++ flat_map serialize children ++ lit "</" ++ tag ++ lit ">"
               else lit " />")) ++ rest
          = 60 :: tag ++ flat_map serialize_attr attrib
            ++ (if closed then lit " />" else lit ">") ++ R) as ->.
  { subst closed R. change (lit "<") with [60]. change (lit "</") with [60; 47].
    change (lit ">") with [62].
    destruct (is_nonempty text || negb (bool_decide (children = [])));
      cbn [negb]; rewrite <- ?app_assoc; cbn [app]; rewrite <- ?app_assoc; reflexivity. }
  cbn [parse_element]. rewrite N.eqb_refl.
  rewrite scan_name_app by (by apply is_name_chars || apply after_tag_not_name).
  rewrite Htag. cbn [negb].
  rewrite (parse_attrs_serialized attrib [] _ closed R); try done.
  2:{ intros k _. cbn. apply not_elem_of_nil. }
  2:{ pose proof (serialize_attrs_length attrib). rewrite !length_app. lia. }
  cbn [rev app].
  destruct closed eqn:Hclosed; subst R.
  - subst closed. apply negb_true_iff, orb_false_iff in Hclosed as [Ht Hc].
    apply negb_false_iff, bool_decide_eq_true in Hc. subst children.
    assert (or_default text [] = []) as ->.
    { destruct text as [[|c r]|]; done. }
    reflexivity.
  - destruct (siblings_head children (tag ++ 62 :: rest) Hch) as [r' Hr'].
    rewrite scan_text_escape by (done || (right; eauto)).
    assert (Forall parses_back children) as IH'.
    { clear -IH Hch. induction IH as [|c cs Hc _ IHcs]; [constructor|].
      cbn [forallb] in Hch. apply andb_true_iff in Hch as [? ?].
      constructor; auto. }
    rewrite (parse_children_serialized children IH' Hch fuel) by lia.
    change (60 :: 47 :: tag ++ 62 :: rest) with ((lit "</" ++ tag) ++ 62 :: rest).
    rewrite strip_prefix_app. reflexivity.
Qed.

Lemma weight_le_length (e : Element) : (weight e + 2 <= length (serialize e))%nat.
Proof.
  induction e as [tag attrib text children tail IH] using Element_ind'.
  rewrite weight_eq, serialize_eq.
  assert (weight_list children <= 1 + length (flat_map serialize children))%nat as Hcs.
  { induction IH as [|c cs Hc _ IHcs]; [cbn; lia|].
    cbn [weight_list fold_right flat_map]. fold (weight_list cs).
    rewrite length_app. lia. }
  rewrite !length_app. change (length (lit "<")) with 1%nat.
  destruct (is_nonempty text || negb (bool_decide (children = []))) eqn:E.
  - rewrite !length_app. change (length (lit ">")) with 1%nat.
    change (length (lit "</")) with 2%nat. lia.
  - apply orb_false_iff in E as [_ E].
    apply negb_false_iff, bool_decide_eq_true in E. subst children.
    change (length (lit " />")) with 3%nat. cbn [weight_list fold_right]. lia.
Qed.

Lemma forallb_flat_map {A B} (p : B -> bool) (f : A -> list B) (l : list A) :
  forallb (fun a => forallb p (f a)) l = true -> forallb p (flat_map f l) = true.
Proof.
  induction l as [|a l IH]; [done|]. cbn [forallb flat_map].
  rewrite andb_true_iff, forallb_app, andb_true_iff. intros [? ?]. auto.
Qed.

Lemma name_char_plain (c : N) : is_name_char c = true -> text_char_ok c = true.
Proof.
  unfold is_name_char, is_name_start, text_char_ok, between. bool_cases.
Qed.

Lemma escape_cdata_plain (s : str) :
  forallb text_char_ok s = true -> forallb text_char_ok (escape_cdata s) = true.
Proof.
  intros H. apply forallb_flat_map. revert H. apply forallb_impl. intros c Hc.
  unfold escape_cdata_char.
  destruct (c =? 38); [done|]. destruct (c =? 60); [done|].
  destruct (c =? 62); [done|]. cbn. by rewrite Hc.
Qed.

Lemma escape_attrib_plain (s : str) :
  forallb attr_char_ok s = true -> forallb text_char_ok (escape_attrib s) = true.
Proof.
  intros H. apply forallb_flat_map. revert H. apply forallb_impl. intros c Hc.
  unfold escape_attrib_char.
  destruct (c =? 38); [done|]. destruct (c =? 60); [done|].
  destruct (c =? 62); [done|]. destruct (c =? 34); [done|].
  destruct (N.eqb_spec c 13) as [|H13]; [done|]. destruct (c =? 10); [done|].
  destruct (c =? 9); [done|]. cbn. rewrite andb_true_r.
  unfold attr_char_ok in Hc. apply orb_true_iff in Hc as [Hc|Hc]; [done|].
  by apply N.eqb_eq in Hc.
Qed.

Lemma is_name_plain (n : str) : is_name n = true -> forallb text_char_ok n = true.
Proof.
  intros H. apply is_name_chars in H. revert H. apply forallb_impl, name_char_plain.
Qed.

(** A serialized tree is made of characters a document may hold, and holds
    no carriage return. *)
Lemma serialize_plain (e : Element) :
  xml_safe e = true -> forallb text_char_ok (serialize e) = true.
Proof.
  induction e as [tag attrib text children tail IH] using Element_ind'.
  intros Hsafe. cbn [xml_safe] in Hsafe. rewrite !andb_true_iff in Hsafe.
  destruct Hsafe as (((((Htag & Hattr) & Hnd) & Htext) & Hch) & Htail).
  assert (forallb text_char_ok (flat_map serialize children) = true) as Hcs.
  { apply forallb_flat_map. clear -IH Hch.
    induction IH as [|c cs Hc _ IHcs]; [done|].
    cbn [forallb] in *. apply andb_true_iff in Hch as [? ?].
    apply andb_true_iff. auto. }
  assert (forallb text_char_ok (flat_map serialize_attr attrib) = true) as Hat.
  { apply forallb_flat_map. revert Hattr. apply forallb_impl. intros [k v] Hkv.
    unfold attr_ok in Hkv. rewrite !andb_true_iff in Hkv. destruct Hkv as [[Hk _] Hv].
    cbn [fst snd] in *. unfold serialize_attr. cbn [fst snd].
    rewrite !forallb_app, (is_name_plain _ Hk), (escape_attrib_plain _ Hv). done. }
  rewrite serialize_eq. rewrite !forallb_app.
  rewrite (is_name_plain _ Htag), Hat, (escape_cdata_plain _ Htail).
  destruct (is_nonempty text || negb (bool_decide (children = []))); [|done].
  rewrite !forallb_app, (is_name_plain _ Htag), Hcs, (escape_cdata_plain _ Htext). done.
Qed.

Lemma normalize_eol_plain (s : str) :
  forallb text_char_ok s = true -> normalize_eol s = s.
Proof.
  induction s as [|c s IH]; [done|]. cbn [forallb normalize_eol].
  rewrite andb_true_iff. intros [Hc Hs].
  destruct (N.eqb_spec c 13) as [->|_]; [done|]. by rewrite IH.
Qed.

Lemma xml_decl_plain : forallb text_char_ok (xml_decl ++ [10; 10]) = true.
Proof. reflexivity. Qed.

(** ** UTF-8: decoding what was encoded *)

(** One unfolding of the decoder. *)
Lemma decode_cons (b0 : N) (r0 : bytes) :
  decode_utf8_ignore (b0 :: r0) =
  ltac:(let t := eval cbn [decode_utf8_ignore] in (decode_utf8_ignore (b0 :: r0)) in
        exact t).
Proof. reflexivity. Qed.

Ltac test_to_prop :=
  unfold is_cont, between;
  rewrite ?andb_true_iff, ?N.leb_le, ?N.ltb_lt, ?N.eqb_eq.

(** Decides the test at the head of the goal with [lia], again and again
    (and first the equality tests that select the bounds of that test). *)
Ltac head_tests :=
  repeat (cbv beta iota zeta;
          match goal with
          | |- context [if N.eqb ?x ?y then _ else _] =>
              first [ replace (N.eqb x y) with true by (symmetry; apply N.eqb_eq; lia)
                    | replace (N.eqb x y) with false by (symmetry; apply N.eqb_neq; lia) ]
          | |- (if ?t then _ else _) = _ =>
              first [ replace t with true by (symmetry; test_to_prop; lia)
                    | replace t with false
                        by (symmetry; apply not_true_is_false; test_to_prop; lia) ]
          end);
  cbv beta iota zeta.

Lemma decode_two (a b : N) (rest : bytes) :
  2 <= a < 32 -> b < 64 ->
  decode_utf8_ignore ([192 + a; 128 + b] ++ rest)
  = (a * 64 + b) :: decode_utf8_ignore rest.
Proof.
  intros Ha Hb. cbn [app]. rewrite decode_cons. head_tests. f_equal. lia.
Qed.

Lemma decode_three (a b d : N) (rest : bytes) :
  a < 16 -> b < 64 -> d < 64 -> (a = 0 -> 32 <= b) -> (a = 13 -> b < 32) ->
  decode_utf8_ignore ([224 + a; 128 + b; 128 + d] ++ rest)
  = (a * 4096 + b * 64 + d) :: decode_utf8_ignore rest.
Proof.
  intros Ha Hb Hd H0 H13. cbn [app]. rewrite decode_cons.
  destruct (N.eq_dec a 0) as [->|Hn0]; [|destruct (N.eq_dec a 13) as [->|Hn13]];
    head_tests; f_equal; lia.
Qed.

Lemma decode_four (a b d e : N) (rest : bytes) :
  a <= 4 -> b < 64 -> d < 64 -> e < 64 -> (a = 0 -> 16 <= b) -> (a = 4 -> b < 16) ->
  decode_utf8_ignore ([240 + a; 128 + b; 128 + d; 128 + e] ++ rest)
  = (a * 262144 + b * 4096 + d * 64 + e) :: decode_utf8_ignore rest.
Proof.
  intros Ha Hb Hd He H0 H4. cbn [app]. rewrite decode_cons.
  destruct (N.eq_dec a 0) as [->|Hn0]; [|destruct (N.eq_dec a 4) as [->|Hn4]];
    head_tests; f_equal; lia.
Qed.

Lemma div_mod_64 (c : N) : c = 64 * (c / 64) + c mod 64 /\ c mod 64 < 64.
Proof.
  split; [apply N.div_mod; lia | apply N.mod_upper_bound; lia].
Qed.

(** The digits of [c] in base 64. *)
Lemma base64_digits (c : N) :
  exists q0 r0 q1 r1 q2 r2,
    c / 64 = q0 /\ c mod 64 = r0 /\ c / 4096 = q1 /\ (c / 64) mod 64 = r1
    /\ c / 262144 = q2 /\ (c / 4096) mod 64 = r2
    /\ c = 64 * q0 + r0 /\ q0 = 64 * q1 + r1 /\ q1 = 64 * q2 + r2
    /\ r0 < 64 /\ r1 < 64 /\ r2 < 64.
Proof.
  destruct (div_mod_64 c) as [E0 R0].
  destruct (div_mod_64 (c / 64)) as [E1 R1].
  destruct (div_mod_64 (c / 4096)) as [E2 R2].
  assert (c / 64 / 64 = c / 4096) as H1 by (by rewrite N.Div0.div_div).
  assert (c / 4096 / 64 = c / 262144) as H2 by (by rewrite N.Div0.div_div).
  rewrite H1 in E1. rewrite H2 in E2.
  by eexists _, _, _, _, _, _; repeat split.
Qed.

Lemma decode_encode_cp (c : N) (rest : bytes) :
  is_scalar c = true ->
  decode_utf8_ignore (encode_cp c ++ rest) = c :: decode_utf8_ignore rest.
Proof.
  unfold is_scalar, between. rewrite orb_true_iff, andb_true_iff, N.ltb_lt, !N.leb_le.
  intros Hc. unfold encode_cp.
  destruct (base64_digits c)
    as (q0 & r0 & q1 & r1 & q2 & r2 & -> & -> & -> & -> & -> & -> & E0 & E1 & E2 & R0 & R1 & R2).
  destruct (N.ltb_spec c 128) as [H1|H1].
  { cbn [app decode_utf8_ignore]. rewrite (proj2 (N.ltb_lt c 128) H1). reflexivity. }
  destruct (N.ltb_spec c 2048) as [H2|H2].
  { rewrite decode_two by lia. f_equal. lia. }
  destruct (N.ltb_spec c 65536) as [H3|H3].
  { rewrite decode_three by lia. f_equal. lia. }
  rewrite decode_four by lia. f_equal. lia.
Qed.

Lemma decode_encode (s : str) :
  forallb is_scalar s = true -> decode_utf8_ignore (encode_utf8 s) = s.
Proof.
  induction s as [|c s IH]; [done|]. cbn [forallb]. rewrite andb_true_iff.
  intros [Hc Hs]. unfold encode_utf8. cbn [flat_map].
  rewrite (decode_encode_cp c _ Hc). fold (encode_utf8 s). by rewrite IH.
Qed.

Lemma decode_utf8_encode (s : str) :
  forallb is_scalar s = true -> decode_utf8 (encode_utf8 s) = Some s.
Proof.
  intros H. unfold decode_utf8. rewrite (decode_encode s H).
  by rewrite bool_decide_eq_true_2.
Qed.

Lemma encode_utf8_app (s t : str) : encode_utf8 (s ++ t) = encode_utf8 s ++ encode_utf8 t.
Proof. unfold encode_utf8. apply flat_map_app. Qed.

Lemma text_char_scalar (c : N) : text_char_ok c = true -> is_scalar c = true.
Proof. unfold text_char_ok, is_scalar, between. bool_cases. Qed.

Lemma text_char_xml (c : N) : text_char_ok c = true -> is_xml_char c = true.
Proof. unfold text_char_ok, is_xml_char, between. bool_cases. Qed.

(** Round trip: a tree of plain names and characters, written out by
    [xml_to_bytes] and read back, is the tree again (in its parsed form). *)
Lemma fromstring_xml_to_bytes (e : Element) :
  xml_safe e = true -> no_tail e = true ->
  ET_fromstring (xml_to_bytes e) = Some (canon e).
Proof.
  intros Hsafe Htail. pose proof (serialize_plain e Hsafe) as Hplain.
  assert (forallb text_char_ok (xml_decl ++ [10; 10] ++ serialize e) = true) as Hall.
  { rewrite app_assoc, forallb_app, xml_decl_plain. done. }
  assert (xml_to_bytes e = encode_utf8 (xml_decl ++ [10; 10] ++ serialize e)) as ->.
  { unfold xml_to_bytes, ET_tostring. rewrite !encode_utf8_app. reflexivity. }
  unfold ET_fromstring.
  rewrite decode_utf8_encode by (revert Hall; apply forallb_impl, text_char_scalar).
  assert (forallb is_xml_char (xml_decl ++ [10; 10] ++ serialize e) = true) as ->
    by (revert Hall; apply forallb_impl, text_char_xml).
  rewrite (normalize_eol_plain _ Hall), strip_prefix_app.
  destruct (serialize_head e (xml_safe_tag e Hsafe)) as (a & r & Hser & _).
  assert (lstrip_with is_ws ([10; 10] ++ serialize e) = serialize e) as ->.
  { rewrite Hser. reflexivity. }
  assert (serialize e = serialize (set_tail None e) ++ []) as Hs.
  { rewrite (serialize_untail e) at 1. f_equal.
    destruct e as [? ? ? ? [[|? ?]|]]; done. }
  rewrite Hs at 2.
  rewrite (parse_element_serialized e Hsafe).
  2:{ pose proof (weight_le_length e). lia. }
  cbn [lstrip_with]. f_equal.
  destruct e as [? ? ? ? [[|? ?]|]]; done.
Qed.

Lemma lstrip_padding_xml (e : Element) :
  lstrip_padding (xml_to_bytes e) = xml_to_bytes e.
Proof. reflexivity. Qed.

(** ** The record codec *)

(** C9: the element built for a record carries the id twice, as its [id]
    attribute and as the text of its [occupation_id] child, and both are the
    decimal text of the id that was passed in. *)
Theorem occupation_id_twice
    (occ_id : Z) (technician_code : str) (occ_dt : datetime) (duration_hours : pyfloat)
    (wo_code hour_type occupation_type comments : str) :
  let occ := build_occupation_element occ_id technician_code occ_dt duration_hours
               wo_code hour_type occupation_type comments in
  e_tag occ = lit "occupation"
  /\ attrib_get (lit "id") occ = Some (str_of_int occ_id)
  /\ exists oid, find (lit "occupation_id") occ = Some oid
       /\ e_text oid = Some (str_of_int occ_id)
       /\ e_text oid = attrib_get (lit "id") occ.
Proof.
  unfold build_occupation_element.
  destruct (strip occupation_type) as [|c r];
    (split; [reflexivity|]; split; [reflexivity|]; eexists; split; [reflexivity|];
     split; reflexivity).
Qed.

(** ** The aggregate appender *)

Lemma take_length_app {A} (l r : list A) : take (length l) (l ++ r) = l.
Proof. induction l as [|a l IH]; [by destruct r|]. cbn. by rewrite IH. Qed.

(** Writing from offset zero and truncating behind what was written leaves
    exactly the new content, whatever the file held. *)
Lemma write_then_truncate (new old : bytes) (p : nat) :
  (f_seek0 ;;; f_write new ;;; f_truncate) {| f_data := old; f_pos := p |}
  = (Ok tt, {| f_data := new; f_pos := length new |}).
Proof.
  unfold fbind, f_seek0, f_write, f_truncate, upto. cbn [f_data f_pos fst snd].
  rewrite take_0. cbn [app Nat.add]. f_equal. f_equal.
  rewrite <- app_assoc. apply take_length_app.
Qed.

Lemma append_body_run (fromstring : bytes -> option Element) (occ : Element)
    (shown : bytes) :
  append_body fromstring occ {| f_data := shown; f_pos := 0 |}
  = (Ok tt,
     let new := xml_to_bytes (append_child occ (envelope_for fromstring shown)) in
     {| f_data := new; f_pos := length new |}).
Proof.
  unfold append_body. unfold fbind at 1 2. cbn [f_seek_end f_tell f_data f_pos].
  destruct shown as [|c r].
  - cbn [length Nat.eqb]. unfold fbind at 1. cbn [fret envelope_for].
    apply write_then_truncate.
  - cbn [length Nat.eqb]. unfold fbind at 1 2 3. cbn [f_seek0 f_read f_data f_pos fret].
    rewrite drop_0. cbn [envelope_for]. apply write_then_truncate.
Qed.

Lemma locked_append (fromstring : bytes -> option Element) (nt : bool) (d : date)
    (occ : Element) (files : fs) :
  append_to_daily_all fromstring nt d occ files
  = (Ok tt,
     <[daily_all_file_path d :=
         xml_to_bytes
           (append_child occ
              (envelope_for fromstring
                 (as_locked nt (default [] (files !! daily_all_file_path d)))))]> files).
Proof.
  unfold append_to_daily_all, locked_file, path_exists, open_file.
  destruct (files !! daily_all_file_path d) as [b|] eqn:Hb.
  - cbn [mode_is_update negb andb]. rewrite Hb.
    unfold fbind at 1. rewrite nt_placeholder_run, append_body_run. reflexivity.
  - cbn [mode_is_update andb].
    unfold fbind at 1. rewrite nt_placeholder_run, append_body_run.
    cbn [default]. by rewrite insert_insert_eq.
Qed.

(** ** Trees as the parser returns them *)

Lemma opt_text_canon (s : str) : opt_text (or_default (opt_text s) []) = opt_text s.
Proof. by destruct s. Qed.

Lemma canon_idem (e : Element) : canon (canon e) = canon e.
Proof.
  induction e as [tag attrib text children tail IH] using Element_ind'.
  cbn [canon]. f_equal.
  - by destruct text as [[|? ?]|].
  - rewrite List.map_map. induction IH as [|c cs Hc _ IHcs]; [done|].
    cbn [List.map]. by rewrite Hc, IHcs.
  - by destruct tail as [[|? ?]|].
Qed.

Lemma or_default_opt_text (x : option str) :
  or_default (opt_text (or_default x [])) [] = or_default x [].
Proof. by destruct x as [[|? ?]|]. Qed.

Lemma xml_safe_canon (e : Element) : xml_safe e = true -> xml_safe (canon e) = true.
Proof.
  induction e as [tag attrib text children tail IH] using Element_ind'.
  cbn [canon xml_safe]. rewrite !or_default_opt_text, !andb_true_iff.
  intros (((((? & ?) & ?) & ?) & Hch) & ?). repeat split; try done.
  clear -IH Hch. induction IH as [|c cs Hc _ IHcs]; [done|].
  cbn [forallb List.map] in *. apply andb_true_iff in Hch as [? ?].
  apply andb_true_iff. auto.
Qed.

(** What the parser returns has no empty text anywhere and no tail. *)
Lemma parse_canonical (fuel : nat) :
  (forall s e rest, parse_element fuel s = Some (e, rest) ->
     canon e = e /\ e_tail e = None)
  /\ (forall s es rest, parse_children fuel s = Some (es, rest) ->
        Forall (fun e => canon e = e) es).
Proof.
  induction fuel as [|fuel [IHe IHc]]; [split; intros; discriminate|]. split.
  - intros s e rest H. cbn [parse_element] in H.
    destruct s as [|c r]; [done|]. destruct (c =? 60); [|done].
    destruct (scan_name r) as [tag r1]. destruct (negb (is_name tag)); [done|].
    destruct (parse_attrs (S (length r1)) [] r1) as [[[attrs [|]] r2]|]; [| |done].
    + injection H as <- <-. done.
    + destruct (scan_text r2) as [[text r3]|]; [|done].
      destruct (parse_children fuel r3) as [[children r4]|] eqn:Hc; [|done].
      destruct (strip_prefix (lit "</" ++ tag) r4) as [r5|]; [|done].
      destruct (lstrip_with is_ws r5) as [|g r6]; [done|].
      destruct (g =? 62); [|done]. injection H as <- <-. split; [|done].
      cbn [canon]. rewrite opt_text_canon. f_equal.
      apply IHc in Hc. induction Hc as [|x xs Hx _ IHxs]; [done|].
      cbn [List.map]. by rewrite Hx, IHxs.
  - intros s es rest H. cbn [parse_children] in H.
    destruct s as [|c [|c' r]]; [done|done|].
    destruct ((c =? 60) && (c' =? 47)).
    { injection H as <- <-. constructor. }
    destruct (parse_element fuel (c :: c' :: r)) as [[e r1]|] eqn:He; [|done].
    destruct (scan_text r1) as [[tail r2]|]; [|done].
    destruct (parse_children fuel r2) as [[es' r3]|] eqn:Hc; [|done].
    injection H as <- <-. constructor; [|by eapply IHc].
    apply IHe in He as [He _]. destruct e as [tag attrib text children tl].
    cbn [set_tail canon] in *. rewrite opt_text_canon.
    injection He as Ht Hch. by rewrite Ht, Hch.
Qed.

Lemma fromstring_canonical (b : bytes) (root : Element) :
  ET_fromstring b = Some root -> canon root = root /\ e_tail root = None.
Proof.
  unfold ET_fromstring. destruct (decode_utf8 b) as [doc|]; [|done].
  destruct (forallb is_xml_char doc); [|done].
  match goal with |- context [parse_element ?f ?s] =>
    destruct (parse_element f s) as [[e rest]|] eqn:He end; [|done].
  destruct (lstrip_with is_ws rest); [|done]. intros [= <-].
  by apply (parse_canonical _) in He.
Qed.

Lemma map_canon_id (es : list Element) :
  Forall (fun e => canon e = e) es -> List.map canon es = es.
Proof. induction 1 as [|e es He _ IH]; [done|]. cbn. by rewrite He, IH. Qed.

Lemma canon_children (root : Element) :
  canon root = root -> List.map canon (e_children root) = e_children root.
Proof.
  destruct root as [tag attrib text children tail]. cbn [canon e_children].
  intros [= _ Hc _]. exact Hc.
Qed.

(** ** Appending to a file that parses *)

Lemma xml_safe_append (r root : Element) :
  xml_safe (append_child r root) = (xml_safe root && xml_safe r).
Proof.
  destruct root as [tag attrib text children tail]. cbn [append_child xml_safe].
  rewrite forallb_app. cbn [forallb]. rewrite andb_true_r.
  generalize (is_name tag) (forallb attr_ok attrib)
    (bool_decide (NoDup (List.map fst attrib)))
    (forallb text_char_ok (or_default text [])) (forallb xml_safe children)
    (xml_safe r) (forallb text_char_ok (or_default tail [])).
  by intros [] [] [] [] [] [] [].
Qed.

Lemma canon_append (r root : Element) :
  canon (append_child r root) = append_child (canon r) (canon root).
Proof.
  destruct root as [tag attrib text children tail]. cbn [append_child canon].
  by rewrite List.map_app.
Qed.

(** ** The appender on a file it cannot read *)

(** C4 (amended).  On a day [day_ok] accepts, when the aggregate file holds
    bytes that do not parse, or parse to a root that is not [entities]
    (whatever the parser accepts), and the new record is made of plain names
    and of characters XML can carry and is at most a hundred levels deep:
    the call returns normally and the file it leaves parses as a new
    [entities] envelope, with the three fixed attributes, whose only child
    is the new record (in its parsed form). *)
Theorem append_discards_unparsable
    (fromstring : bytes -> option Element) (nt : bool) (d : date)
    (r : Element) (files : fs) (content : bytes) :
  day_ok d = true ->
  files !! daily_all_file_path d = Some content ->
  content <> [] ->
  (fromstring (lstrip_padding content) = None
   \/ exists root, fromstring (lstrip_padding content) = Some root
                   /\ e_tag root <> lit "entities") ->
  xml_safe r = true -> shallow r = true ->
  exists new,
    append_to_daily_all fromstring nt d r files
    = (Ok tt, <[daily_all_file_path d := new]> files)
    /\ ET_fromstring (lstrip_padding new)
       = Some (Elem (lit "entities")
                 [(lit "exchangeInterface", lit "OCCUPATION_IN");
                  (lit "externalSystem", []);
                  (lit "timezone", lit "Australia/Sydney")]
                 None [canon r] None).
Proof.
  intros _ Hfile Hne Hbad Hr _. exists (build_entities_xml_with_one r). split.
  - rewrite locked_append, Hfile. change (default [] (Some content)) with content.
    assert (as_locked nt content = content) as ->.
    { destruct nt; [|done]. by destruct content. }
    destruct content as [|c rest]; [done|]. cbn [envelope_for]. unfold envelope_of.
    destruct Hbad as [->|(root & -> & Htag)]; [reflexivity|].
    by rewrite bool_decide_eq_false_2.
  - unfold build_entities_xml_with_one.
    rewrite lstrip_padding_xml, fromstring_xml_to_bytes;
      [done|by rewrite xml_safe_append, Hr|done].
Qed.

Lemma append_discards_unparsable_witness :
  let files : fs := <[daily_all_file_path day_0108 := lit "not xml"]> ∅ in
  exists new,
    append_to_daily_all ET_fromstring false day_0108 record_plain files
    = (Ok tt, <[daily_all_file_path day_0108 := new]> files)
    /\ ET_fromstring (lstrip_padding new)
       = Some (Elem (lit "entities")
                 [(lit "exchangeInterface", lit "OCCUPATION_IN");
                  (lit "externalSystem", []);
                  (lit "timezone", lit "Australia/Sydney")]
                 None [canon record_plain] None).
Proof.
  intros files.
  apply (append_discards_unparsable ET_fromstring false day_0108 record_plain files
           (lit "not xml")).
  - reflexivity.
  - apply lookup_insert_eq.
  - discriminate.
  - left. vm_compute. reflexivity.
  - vm_compute. reflexivity.
  - vm_compute. reflexivity.
Defined.

(** C4 (the claim as written fails for records XML cannot carry).  The
    aggregate file holds bytes that do not parse and the new record has the
    character U+0001 in its comment: the call returns normally, and the file
    it leaves holds the record as it is and does not parse. *)
Lemma append_after_corruption_unreadable :
  let files : fs := <[daily_all_file_path day_0108 := lit "not xml"]> ∅ in
  fst (append_to_daily_all ET_fromstring false day_0108 record_with_control_char files)
  = Ok tt
  /\ snd (append_to_daily_all ET_fromstring false day_0108 record_with_control_char files)
       !! daily_all_file_path day_0108
     = Some (build_entities_xml_with_one record_with_control_char)
  /\ ET_fromstring (lstrip_padding (build_entities_xml_with_one record_with_control_char))
     = None.
Proof. vm_compute. repeat split; reflexivity. Qed.

Lemma append_parsed
    (nt : bool) (d : date) (r : Element) (files : fs) (content : bytes) (root : Element) :
  files !! daily_all_file_path d = Some content ->
  ET_fromstring (lstrip_padding content) = Some root ->
  e_tag root = lit "entities" ->
  xml_safe root = true -> xml_safe r = true ->
  append_to_daily_all ET_fromstring nt d r files
  = (Ok tt, <[daily_all_file_path d := xml_to_bytes (append_child r root)]> files)
  /\ ET_fromstring (lstrip_padding (xml_to_bytes (append_child r root)))
     = Some (append_child (canon r) root).
Proof.
  intros Hfile Hparse Htag Hroot Hr.
  destruct (fromstring_canonical _ _ Hparse) as [Hcanon Htail].
  assert (content <> []) as Hne by (intros ->; discriminate).
  split.
  - rewrite locked_append, Hfile. change (default [] (Some content)) with content.
    assert (as_locked nt content = content) as ->.
    { destruct nt; [|done]. by destruct content. }
    destruct content as [|c rest]; [done|]. cbn [envelope_for]. unfold envelope_of.
    by rewrite Hparse, bool_decide_eq_true_2.
  - rewrite lstrip_padding_xml, fromstring_xml_to_bytes.
    + by rewrite canon_append, Hcanon.
    + by rewrite xml_safe_append, Hroot, Hr.
    + destruct root as [? ? ? ? tl]. cbn in Htail. by subst tl.
Qed.

(** C3, as the code has it.  On a day [day_ok] accepts, when the aggregate
    file parses as an [entities] envelope, and the envelope and the new
    records are made of plain names and of characters XML text can carry
    ([xml_safe]) and are at most a hundred levels deep ([shallow]): after
    the call for [r] the file parses as an [entities] envelope with the same
    attributes whose children are the former children, in order, followed
    by [r]; and after the call for [r] and then the call for [r2] it parses
    as that envelope with the former children followed by [r] and [r2]
    (each record in its parsed form: an empty text reads back as no text). *)
Theorem append_keeps_children
    (nt : bool) (d : date) (r r2 : Element) (files : fs) (content : bytes)
    (root : Element) :
  day_ok d = true ->
  files !! daily_all_file_path d = Some content ->
  ET_fromstring (lstrip_padding content) = Some root ->
  e_tag root = lit "entities" ->
  xml_safe root = true -> xml_safe r = true -> xml_safe r2 = true ->
  shallow root = true -> shallow r = true -> shallow r2 = true ->
  (exists new root',
     append_to_daily_all ET_fromstring nt d r files
     = (Ok tt, <[daily_all_file_path d := new]> files)
     /\ ET_fromstring (lstrip_padding new) = Some root'
     /\ e_tag root' = lit "entities"
     /\ e_attrib root' = e_attrib root
     /\ e_children root' = e_children root ++ [canon r])
  /\ (exists new2 root2,
        append_two ET_fromstring nt d r r2 files !! daily_all_file_path d = Some new2
        /\ ET_fromstring (lstrip_padding new2) = Some root2
        /\ e_tag root2 = lit "entities"
        /\ e_attrib root2 = e_attrib root
        /\ e_children root2 = e_children root ++ [canon r; canon r2]).
Proof.
  intros _ Hfile Hparse Htag Hroot Hr Hr2 _ _ _.
  destruct (append_parsed nt d r files content root Hfile Hparse Htag Hroot Hr)
    as [Hrun Hback].
  split.
  - exists (xml_to_bytes (append_child r root)), (append_child (canon r) root).
    split; [done|]. split; [done|]. by destruct root.
  - assert (e_tag (append_child (canon r) root) = lit "entities") as Htag'
        by (by destruct root).
    assert (xml_safe (append_child (canon r) root) = true) as Hroot'
        by (by rewrite xml_safe_append, Hroot, xml_safe_canon).
    destruct (append_parsed nt d r2
                (<[daily_all_file_path d := xml_to_bytes (append_child r root)]> files)
                _ _ (lookup_insert_eq _ _ _) Hback Htag' Hroot' Hr2) as [Hrun2 Hback2].
    exists (xml_to_bytes (append_child r2 (append_child (canon r) root))),
      (append_child (canon r2) (append_child (canon r) root)).
    split.
    { unfold append_two. rewrite Hrun. cbn [snd]. rewrite Hrun2. cbn [snd].
      apply lookup_insert_eq. }
    split; [done|]. destruct root as [tag attrib text children tail].
    cbn [append_child e_tag e_attrib e_children]. rewrite <- app_assoc.
    by repeat split.
Qed.

Lemma append_keeps_children_witness :
  let files : fs :=
    <[daily_all_file_path day_0108 := build_entities_xml_with_one record_plain]> ∅ in
  let root := canon (append_child record_plain new_entities) in
  (exists new root',
     append_to_daily_all ET_fromstring false day_0108 record_plain files
     = (Ok tt, <[daily_all_file_path day_0108 := new]> files)
     /\ ET_fromstring (lstrip_padding new) = Some root'
     /\ e_tag root' = lit "entities"
     /\ e_attrib root' = e_attrib root
     /\ e_children root' = e_children root ++ [canon record_plain])
  /\ (exists new2 root2,
        append_two ET_fromstring false day_0108 record_plain record_ten_minutes files
          !! daily_all_file_path day_0108 = Some new2
        /\ ET_fromstring (lstrip_padding new2) = Some root2
        /\ e_tag root2 = lit "entities"
        /\ e_attrib root2 = e_attrib root
        /\ e_children root2
           = e_children root ++ [canon record_plain; canon record_ten_minutes]).
Proof.
  intros files root.
  apply (append_keeps_children false day_0108 record_plain record_ten_minutes files
           (build_entities_xml_with_one record_plain) root).
  - reflexivity.
  - apply lookup_insert_eq.
  - vm_compute. reflexivity.
  - reflexivity.
  - vm_compute. reflexivity.
  - vm_compute. reflexivity.
  - vm_compute. reflexivity.
  - vm_compute. reflexivity.
  - vm_compute. reflexivity.
  - vm_compute. reflexivity.
Defined.

(** C3 as stated fails: a record whose comment holds U+0001 is written as
    it is, the file no longer parses, and the next call starts a new
    envelope; of two records appended in sequence only the second is left. *)
Lemma append_control_char_loses_record :
  let files := append_two ET_fromstring false day_0108
                 record_with_control_char record_plain ∅ in
  (snd (append_to_daily_all ET_fromstring false day_0108 record_with_control_char ∅)
     !! daily_all_file_path day_0108) ≫= ET_fromstring = None
  /\ (e_children <$> (files !! daily_all_file_path day_0108) ≫= ET_fromstring)
     = Some [canon record_plain].
Proof. vm_compute. split; reflexivity. Qed.

(** ** The day query *)

Lemma insert_by_perm {A} (lt : A -> A -> bool) (x : A) (l : list A) :
  insert_by lt x l ≡ₚ x :: l.
Proof.
  induction l as [|y r IH]; [done|]. cbn [insert_by].
  destruct (lt y x); [|done]. rewrite IH. apply Permutation_swap.
Qed.

Lemma sort_by_perm {A} (lt : A -> A -> bool) (l : list A) : sort_by lt l ≡ₚ l.
Proof.
  induction l as [|x l IH]; [done|]. unfold sort_by. cbn [fold_right].
  rewrite insert_by_perm. by constructor.
Qed.

Lemma date_eqb_eq (a b : date) : date_eqb a b = true <-> a = b.
Proof.
  destruct a as [y1 m1 d1], b as [y2 m2 d2]. unfold date_eqb. cbn [year month day].
  rewrite !andb_true_iff, !Z.eqb_eq. split; [intros [[-> ->] ->]; done|].
  by intros [= -> -> ->].
Qed.

Lemma occ_time_empty : occ_time [] = Raise ValueError.
Proof. reflexivity. Qed.

(** What the loop body does with a parsed root. *)
Lemma decode_root_kept (selected_day : date) (root occ : Element) (dt : datetime) :
  e_tag root = lit "entities" ->
  find (lit "occupation") root = Some occ ->
  occ_time (_safe_text (find (lit "occupation_occupationDate") occ) []) = Ok dt ->
  decode_root selected_day root
  = if date_eqb (dt_date dt) selected_day then Some (row_of occ dt) else None.
Proof.
  intros Htag Hocc Hdt. unfold decode_root.
  rewrite bool_decide_eq_true_2 by done. cbn [negb]. rewrite Hocc.
  destruct (_safe_text (find (lit "occupation_occupationDate") occ) []) as [|c r] eqn:Ht.
  { by rewrite occ_time_empty in Hdt. }
  rewrite Hdt. by destruct (date_eqb (dt_date dt) selected_day).
Qed.



Lemma file_rows_cases (fromstring : bytes -> option Element) (selected_day : date)
    (rb : result bytes) :
  file_rows fromstring selected_day rb
  = match rb with
    | Ok b =>
        match fromstring (lstrip_padding b) with
        | Some root =>
            match decode_root selected_day root with
            | Some row => [row]
            | None => []
            end
        | None => []
        end
    | Raise _ => []
    end.
Proof.
  unfold file_rows, decode_file. destruct rb as [b|e]; [|done].
  by destruct (fromstring (lstrip_padding b)).
Qed.

(** The rows of the table are those of the [.xml] files, file by file. *)
Lemma entries_rows_perm (fromstring : bytes -> option Element)
    (entries : list (str * result bytes)) (selected_day : date) :
  rows (get_user_entries_for_day fromstring (Some entries) selected_day)
  ≡ₚ flat_map (fun e => file_rows fromstring selected_day (snd e)) (xml_files entries).
Proof.
  unfold get_user_entries_for_day, xml_files.
  set (files := sort_by _ _).
  assert (flat_map (fun e => file_rows fromstring selected_day (snd e)) files
          ≡ₚ flat_map (fun e => file_rows fromstring selected_day (snd e))
               (List.filter (fun e => ends_with_xml (fst e)) entries)) as Hp.
  { subst files. generalize (List.filter (fun e => ends_with_xml e.1) entries).
    intros l. apply Permutation_flat_map, sort_by_perm. }
  rewrite <- Hp.
  destruct (flat_map _ files) as [|row found]; [done|].
  cbn [rows]. apply sort_by_perm.
Qed.

Lemma file_rows_in_table (fromstring : bytes -> option Element)
    (entries : list (str * result bytes)) (selected_day : date)
    (name : str) (rb : result bytes) (row : Row) :
  (name, rb) ∈ entries -> ends_with_xml name = true ->
  row ∈ file_rows fromstring selected_day rb ->
  row ∈ rows (get_user_entries_for_day fromstring (Some entries) selected_day).
Proof.
  intros Hin Hxml Hrow. rewrite entries_rows_perm.
  apply list_elem_of_In, in_flat_map. exists (name, rb). split.
  - apply filter_In. split; [by apply list_elem_of_In|done].
  - by apply list_elem_of_In.
Qed.

Lemma table_from_files (fromstring : bytes -> option Element)
    (entries : list (str * result bytes)) (selected_day : date) (row : Row) :
  row ∈ rows (get_user_entries_for_day fromstring (Some entries) selected_day) ->
  exists name rb,
    (name, rb) ∈ entries /\ ends_with_xml name = true
    /\ row ∈ file_rows fromstring selected_day rb.
Proof.
  rewrite entries_rows_perm. intros H.
  apply list_elem_of_In, in_flat_map in H as [[name rb] [Hin Hrow]].
  apply filter_In in Hin as [Hin Hxml]. exists name, rb.
  split; [by apply list_elem_of_In|]. split; [done|by apply list_elem_of_In].
Qed.

Lemma file_rows_kept (fromstring : bytes -> option Element) (selected_day : date)
    (b : bytes) (root occ : Element) (dt : datetime) :
  fromstring (lstrip_padding b) = Some root ->
  e_tag root = lit "entities" ->
  find (lit "occupation") root = Some occ ->
  occ_time (_safe_text (find (lit "occupation_occupationDate") occ) []) = Ok dt ->
  file_rows fromstring selected_day (Ok b)
  = if date_eqb (dt_date dt) selected_day then [row_of occ dt] else [].
Proof.
  intros Hroot Htag Hocc Hdt. rewrite file_rows_cases, Hroot.
  rewrite (decode_root_kept _ _ _ _ Htag Hocc Hdt).
  by destruct (date_eqb (dt_date dt) selected_day).
Qed.

Lemma date_eqb_neq (a b : date) : a <> b -> date_eqb a b = false.
Proof.
  intros H. apply not_true_is_false. by rewrite date_eqb_eq.
Qed.

(** C8. A document whose occupation time reads [dt] gives one row to the
    table of the day [dt] falls on (wall-clock date in the fixed zone), the
    row is in the table of that day whatever else the folder holds, and the
    document gives no row to the table of any other day. For the time
    2026-01-08 23:59:59 the day is 2026-01-08: the row, with time 23:59:59,
    is in the table for 2026-01-08, and the document gives nothing for any
    other day. *)
Theorem day_filter_by_wall_clock_date
    (fromstring : bytes -> option Element) (b : bytes) (root occ : Element)
    (dt : datetime) :
  fromstring (lstrip_padding b) = Some root ->
  e_tag root = lit "entities" ->
  find (lit "occupation") root = Some occ ->
  occ_time (_safe_text (find (lit "occupation_occupationDate") occ) []) = Ok dt ->
  (file_rows fromstring (dt_date dt) (Ok b) = [row_of occ dt]
   /\ r_time (row_of occ dt) = fmt_hms dt
   /\ (forall entries name,
         (name, Ok b) ∈ entries -> ends_with_xml name = true ->
         row_of occ dt
         ∈ rows (get_user_entries_for_day fromstring (Some entries) (dt_date dt)))
   /\ (forall selected_day,
         selected_day <> dt_date dt -> file_rows fromstring selected_day (Ok b) = []))
  /\ (_safe_text (find (lit "occupation_occupationDate") occ) []
      = lit "2026-01-08 23:59:59" ->
      dt = at_235959
      /\ file_rows fromstring day_0108 (Ok b) = [row_of occ at_235959]
      /\ r_time (row_of occ at_235959) = lit "23:59:59"
      /\ file_rows fromstring {| year := 2026; month := 1; day := 9 |} (Ok b) = []).
Proof.
  intros Hroot Htag Hocc Hdt.
  pose proof (file_rows_kept fromstring) as Hk.
  specialize (fun d => Hk d b root occ dt Hroot Htag Hocc Hdt).
  assert (file_rows fromstring (dt_date dt) (Ok b) = [row_of occ dt]) as Hsame.
  { rewrite Hk. by rewrite (proj2 (date_eqb_eq _ _) eq_refl). }
  assert (forall selected_day,
            selected_day <> dt_date dt -> file_rows fromstring selected_day (Ok b) = [])
    as Hother.
  { intros d Hd. rewrite Hk. by rewrite date_eqb_neq. }
  split.
  - split; [done|]. split; [done|]. split; [|done].
    intros entries name Hin Hxml.
    apply (file_rows_in_table _ _ _ name (Ok b)); [done|done|].
    rewrite Hsame. apply list_elem_of_here.
  - intros Htxt. rewrite Htxt in Hdt.
    assert (dt = at_235959) as -> by (vm_compute in Hdt; by injection Hdt).
    split; [done|]. split; [exact Hsame|]. split; [by vm_compute|].
    by apply Hother.
Qed.

Lemma day_filter_by_wall_clock_date_witness :
  (file_rows ET_fromstring day_0108 (Ok document_235959)
   = [{| r_time := lit "23:59:59"; r_wo := lit "WO1"; r_time_type := [];
         r_occ_type := []; r_hours := Fin (0 # 1000); r_comment := [] |}])
  /\ file_rows ET_fromstring {| year := 2026; month := 1; day := 9 |} (Ok document_235959)
     = [].
Proof.
  destruct (ET_fromstring (lstrip_padding document_235959)) as [root|] eqn:Hroot;
    [|by vm_compute in Hroot].
  destruct (find (lit "occupation") root) as [occ|] eqn:Hocc;
    [|by vm_compute in Hroot; injection Hroot as <-; vm_compute in Hocc].
  assert (_safe_text (find (lit "occupation_occupationDate") occ) []
          = lit "2026-01-08 23:59:59") as Htxt.
  { vm_compute in Hroot. injection Hroot as <-. vm_compute in Hocc.
    injection Hocc as <-. by vm_compute. }
  assert (e_tag root = lit "entities") as Htag.
  { vm_compute in Hroot. injection Hroot as <-. by vm_compute. }
  assert (occ_time (_safe_text (find (lit "occupation_occupationDate") occ) [])
          = Ok at_235959) as Hdt by (rewrite Htxt; by vm_compute).
  destruct (day_filter_by_wall_clock_date ET_fromstring document_235959 root occ
              at_235959 Hroot Htag Hocc Hdt) as [_ H].
  destruct (H Htxt) as (_ & H8 & _ & H9).
  split; [|exact H9]. rewrite H8.
  vm_compute in Hroot. injection Hroot as <-. vm_compute in Hocc.
  injection Hocc as <-. by vm_compute.
Defined.




(** C10. Whatever the folder is (absent, empty, or holding files whose bytes
    are arbitrary or cannot be read) and whatever the parser answers, the
    table has the six columns Time, WO, Time Type, Occ Type, Hours, Comment;
    it has no row when the folder is absent and when no [.xml] file gives a
    row; and every row it has comes from a [.xml] file of the folder that
    was read, parsed and has its timestamp on the selected day. *)
Theorem entries_for_day_six_columns
    (fromstring : bytes -> option Element) (user_folder : folder) (selected_day : date) :
  columns (get_user_entries_for_day fromstring user_folder selected_day)
  = [lit "Time"; lit "WO"; lit "Time Type"; lit "Occ Type"; lit "Hours"; lit "Comment"]
  /\ (user_folder = None ->
      rows (get_user_entries_for_day fromstring user_folder selected_day) = [])
  /\ (forall entries,
        user_folder = Some entries ->
        (forall name rb,
           (name, rb) ∈ entries -> ends_with_xml name = true ->
           file_rows fromstring selected_day rb = []) ->
        rows (get_user_entries_for_day fromstring user_folder selected_day) = [])
  /\ (forall entries row,
        user_folder = Some entries ->
        row ∈ rows (get_user_entries_for_day fromstring user_folder selected_day) ->
        exists name b root,
          (name, Ok b) ∈ entries /\ ends_with_xml name = true
          /\ fromstring (lstrip_padding b) = Some root
          /\ decode_root selected_day root = Some row).
Proof.
  split.
  { destruct user_folder as [entries|]; [|done]. unfold get_user_entries_for_day.
    by destruct (flat_map _ _). }
  split; [by intros ->|]. split.
  - intros entries -> Hnone.
    apply Permutation_nil_r. rewrite entries_rows_perm.
    induction entries as [|[name rb] l IH]; [done|].
    unfold xml_files in *. cbn [List.filter fst].
    destruct (ends_with_xml name) eqn:Hxml.
    + cbn [flat_map snd]. rewrite (Hnone name rb); [|apply list_elem_of_here|done].
      apply IH. intros n r Hin. apply Hnone. by apply list_elem_of_further.
    + apply IH. intros n r Hin. apply Hnone. by apply list_elem_of_further.
  - intros entries row -> Hrow.
    apply table_from_files in Hrow as (name & rb & Hin & Hxml & Hrow).
    rewrite file_rows_cases in Hrow. destruct rb as [b|e]; [|by apply elem_of_nil in Hrow].
    destruct (fromstring (lstrip_padding b)) as [root|] eqn:Hroot;
      [|by apply elem_of_nil in Hrow].
    destruct (decode_root selected_day root) as [row'|] eqn:Hdec;
      [|by apply elem_of_nil in Hrow].
    apply list_elem_of_singleton in Hrow as ->. by exists name, b, root.
Qed.

(** ** Stripping *)

Lemma lstrip_with_idem (p : N -> bool) (s : list N) :
  lstrip_with p (lstrip_with p s) = lstrip_with p s.
Proof.
  induction s as [|c r IH]; [done|]. cbn [lstrip_with].
  destruct (p c) eqn:Hc; [done|]. cbn [lstrip_with]. by rewrite Hc.
Qed.

Lemma rstrip_with_idem (p : N -> bool) (s : list N) :
  rstrip_with p (rstrip_with p s) = rstrip_with p s.
Proof. unfold rstrip_with. by rewrite rev_involutive, lstrip_with_idem. Qed.

Lemma lstrip_with_app (p : N -> bool) (s t : list N) :
  lstrip_with p s <> [] -> lstrip_with p (s ++ t) = lstrip_with p s ++ t.
Proof.
  induction s as [|c r IH]; [done|]. cbn [lstrip_with app].
  destruct (p c); [exact IH|done].
Qed.

(** Stripping on the right keeps a prefix. *)
Lemma rstrip_with_prefix (p : N -> bool) (s : list N) :
  exists t, s = rstrip_with p s ++ t.
Proof.
  unfold rstrip_with. destruct (lstrip_with_suffix p (rev s)) as [k Hk].
  exists (rev (take k (rev s))). rewrite Hk, <- rev_app_distr, take_drop.
  by rewrite rev_involutive.
Qed.

Lemma lstrip_rstrip (p : N -> bool) (s : list N) :
  lstrip_with p s = s -> lstrip_with p (rstrip_with p s) = rstrip_with p s.
Proof.
  intros Hs. destruct (rstrip_with_prefix p s) as [t Ht].
  destruct (rstrip_with p s) as [|c r] eqn:Hr; [done|].
  cbn [lstrip_with]. destruct (p c) eqn:Hc; [|done].
  rewrite Ht in Hs. cbn [app lstrip_with] in Hs. rewrite Hc in Hs.
  destruct (lstrip_with_suffix p (r ++ t)) as [k Hk]. rewrite Hk in Hs.
  apply (f_equal length) in Hs. rewrite length_drop in Hs. cbn [length] in Hs. lia.
Qed.

Lemma strip_idem (s : str) : strip (strip s) = strip s.
Proof.
  unfold strip. rewrite (lstrip_rstrip py_isspace (lstrip_with py_isspace s)).
  - apply rstrip_with_idem.
  - apply lstrip_with_idem.
Qed.

Lemma strip_none (s : str) :
  forallb (fun c => negb (py_isspace c)) s = true -> strip s = s.
Proof.
  intros H. unfold strip. by rewrite (lstrip_with_none _ _ H), (rstrip_with_none _ _ H).
Qed.

Lemma collapse_comment_strip (comments : str) :
  strip (collapse_comment comments) = collapse_comment comments.
Proof. apply strip_idem. Qed.

(** ** Reading back a printed time *)

(** A property of every number below [n] follows from the property of
    each. *)
Lemma below_cases (n : nat) (P : N -> Prop) :
  List.Forall P (List.map N.of_nat (seq 0 n)) -> forall v, v < N.of_nat n -> P v.
Proof.
  intros HF v Hv. rewrite List.Forall_forall in HF. apply HF.
  apply in_map_iff. exists (N.to_nat v). split; [lia|]. apply in_seq. lia.
Qed.

Ltac each_below :=
  match goal with
  | |- List.Forall ?P ?l =>
      let l' := eval vm_compute in l in
      change (List.Forall P l')
  end;
  repeat (apply List.Forall_cons; [intros; cbv beta|]);
  [..|apply List.Forall_nil].

Lemma first_is_then {A} (a : matcher) (k : N -> str -> list A) (s : str)
    (v : N) (r : str) (x : A) :
  first_is (v, r) (a s) -> first_is x (k v r) -> first_is x (m_then a k s).
Proof.
  intros [tl Ha] [tl' Hk]. unfold m_then. rewrite Ha. cbn [flat_map fst snd].
  rewrite Hk. by eexists.
Qed.

Lemma m_lit_head (c : N) (r : str) : first_is (0, r) (m_lit c (c :: r)).
Proof. unfold m_lit, m_char. rewrite N.eqb_refl. by eexists. Qed.

Lemma m_year_zfill (y : N) (r : str) :
  y < 10000 -> first_is (y, r) (m_year (zfill 4 y ++ r)).
Proof.
  intros Hy. pose proof (dec_value_zfill 4 y 0) as Hv.
  pose proof (zfill_ascii 4 y) as Ha. pose proof (zfill_length 4 y) as Hl.
  destruct (zfill 4 y) as [|a [|b [|c [|d [|? ?]]]]]; try done.
  cbn [forallb] in Ha. rewrite !andb_true_iff in Ha.
  destruct Ha as (Ha & Hb & Hc & Hd & _).
  cbn [app m_year].
  rewrite (uni_decimal_digit a Ha), (uni_decimal_digit b Hb),
    (uni_decimal_digit c Hc), (uni_decimal_digit d Hd).
  exists []. do 2 f_equal. unfold dec_value in Hv. cbn [fold_left] in Hv.
  rewrite N.mod_small in Hv by (cbn; lia). lia.
Qed.

Lemma m_month_zfill (v : N) :
  1 <= v -> v < 13 -> forall r, first_is (v, r) (m_month (zfill 2 v ++ r)).
Proof.
  intros H1 H2. revert H1. revert v H2.
  refine (below_cases 13
            (fun v => 1 <= v -> forall r, first_is (v, r) (m_month (zfill 2 v ++ r))) _).
  each_below; try lia; by eexists.
Qed.

Lemma m_day_zfill (v : N) :
  1 <= v -> v < 32 -> forall r, first_is (v, r) (m_day (zfill 2 v ++ r)).
Proof.
  intros H1 H2. revert H1. revert v H2.
  refine (below_cases 32
            (fun v => 1 <= v -> forall r, first_is (v, r) (m_day (zfill 2 v ++ r))) _).
  each_below; try lia; by eexists.
Qed.

Lemma m_spaces_zfill (v : N) (r : str) :
  first_is (0, zfill 2 v ++ r) (m_spaces (32 :: zfill 2 v ++ r)).
Proof.
  pose proof (zfill_ascii 2 v) as Ha. pose proof (zfill_length 2 v) as Hl.
  destruct (zfill 2 v) as [|a [|b [|? ?]]]; try done.
  cbn [forallb] in Ha. rewrite !andb_true_iff in Ha. destruct Ha as (Ha & _).
  apply ascii_digit_not_space in Ha. apply negb_true_iff in Ha.
  unfold m_spaces. cbn [app lstrip_with]. rewrite Ha.
  change (py_isspace 32) with true. by eexists.
Qed.

Lemma m_hour_zfill (v : N) :
  v < 24 -> forall r, first_is (v, r) (m_hour (zfill 2 v ++ r)).
Proof.
  revert v.
  refine (below_cases 24 (fun v => forall r, first_is (v, r) (m_hour (zfill 2 v ++ r))) _).
  each_below; by eexists.
Qed.

Lemma m_minute_zfill (v : N) :
  v < 60 -> forall r, first_is (v, r) (m_minute (zfill 2 v ++ r)).
Proof.
  revert v.
  refine (below_cases 60 (fun v => forall r, first_is (v, r) (m_minute (zfill 2 v ++ r))) _).
  each_below; by eexists.
Qed.

Lemma m_second_zfill (v : N) :
  v < 60 -> forall r, first_is (v, r) (m_second (zfill 2 v ++ r)).
Proof.
  revert v.
  refine (below_cases 60 (fun v => forall r, first_is (v, r) (m_second (zfill 2 v ++ r))) _).
  each_below; by eexists.
Qed.

Lemma datetime_ok_bounds (t : datetime) :
  datetime_ok t = true ->
  (1000 <= year (dt_date t) <= 9999 /\ 1 <= month (dt_date t) <= 12
   /\ 1 <= day (dt_date t) <= days_in_month (year (dt_date t)) (month (dt_date t))
   /\ 0 <= hour t < 24 /\ 0 <= minute t < 60 /\ 0 <= second t < 60)%Z
  /\ date_eqb (dt_date t) {| year := 9999; month := 12; day := 31 |} = false.
Proof.
  unfold datetime_ok. rewrite !andb_true_iff, !Z.leb_le, !Z.ltb_lt, negb_true_iff.
  intros H. split; [lia|tauto].
Qed.

Lemma days_in_month_le (y m : Z) : (days_in_month y m <= 31)%Z.
Proof.
  unfold days_in_month.
  destruct (m =? 2)%Z; [by destruct (is_leap y)|].
  by destruct ((m =? 4) || (m =? 6) || (m =? 9) || (m =? 11))%Z.
Qed.

Lemma strptime_fmt_dt (t : datetime) : datetime_ok t = true -> strptime (fmt_dt t) = Ok t.
Proof.
  intros Hok. apply datetime_ok_bounds in Hok as [Hb _].
  destruct t as [[y mo d] h mi s]. cbn [dt_date year month day hour minute second] in Hb.
  pose proof (days_in_month_le y mo) as Hdim.
  unfold strptime.
  match goal with
  | |- context [m_then m_year ?k ?src] =>
      assert (first_is (Z.to_N y, Z.to_N mo, Z.to_N d, Z.to_N h, Z.to_N mi, Z.to_N s, [])
                (m_then m_year k src)) as [tl ->]
  end.
  { unfold fmt_dt, fmt_ymd, fmt_hms.
    cbn [dt_date year month day hour minute second]. rewrite <- !app_assoc.
    eapply first_is_then; [apply m_year_zfill; lia|].
    eapply first_is_then; [apply m_lit_head|].
    eapply first_is_then; [apply m_month_zfill; lia|].
    eapply first_is_then; [apply m_lit_head|].
    eapply first_is_then; [apply m_day_zfill; lia|].
    eapply first_is_then; [apply m_spaces_zfill|].
    eapply first_is_then; [apply m_hour_zfill; lia|].
    eapply first_is_then; [apply m_lit_head|].
    eapply first_is_then; [apply m_minute_zfill; lia|].
    eapply first_is_then; [apply m_lit_head|].
    rewrite <- (app_nil_r (zfill 2 (Z.to_N s))).
    eapply first_is_then; [apply m_second_zfill; lia|]. by eexists. }
  cbv zeta. rewrite !Z2N.id by lia.
  rewrite bool_decide_eq_true_2 by done.
  rewrite (proj2 (Z.leb_le 1 y)) by lia.
  rewrite (proj2 (Z.leb_le d (days_in_month y mo))) by lia.
  rewrite (proj2 (N.ltb_lt (Z.to_N s) 60)) by lia. done.
Qed.

Lemma occ_time_fmt_dt (t : datetime) : datetime_ok t = true -> occ_time (fmt_dt t) = Ok t.
Proof.
  intros Hok. unfold occ_time. rewrite (strptime_fmt_dt t Hok).
  apply datetime_ok_bounds in Hok as [Hb Hlast]. unfold localize.
  rewrite date_eqb_neq; [done|]. intros E. rewrite E in Hb. cbn in Hb. lia.
Qed.

(** ** Printed numbers and times hold no white space *)

Lemma visible_not_space (c : N) : visible c = true -> negb (py_isspace c) = true.
Proof. unfold visible, py_isspace, between. bool_cases. Qed.

Lemma visible_text (c : N) : visible c = true -> text_char_ok c = true.
Proof. unfold visible, text_char_ok, between. bool_cases. Qed.

Lemma visible_attr (c : N) : visible c = true -> attr_char_ok c = true.
Proof. intros H. unfold attr_char_ok. by rewrite (visible_text c H). Qed.

Lemma digit_visible (c : N) : is_ascii_digit c = true -> visible c = true.
Proof. unfold visible, is_ascii_digit, between. bool_cases. Qed.

Lemma digits_visible (s : str) :
  forallb is_ascii_digit s = true -> forallb visible s = true.
Proof. apply forallb_impl, digit_visible. Qed.

Lemma int_strip_visible (s : str) : forallb visible s = true -> int_strip s = s.
Proof.
  intros H. unfold int_strip.
  assert (forallb (fun c => negb (int_isspace c)) s = true) as Hsp.
  { revert H. apply forallb_impl. intros c Hc. unfold int_isspace.
    apply visible_not_space, negb_true_iff in Hc. by rewrite Hc. }
  by rewrite (lstrip_with_none _ _ Hsp), (rstrip_with_none _ _ Hsp).
Qed.

Lemma strip_visible (s : str) : forallb visible s = true -> strip s = s.
Proof.
  intros H. apply strip_none. revert H. apply forallb_impl, visible_not_space.
Qed.

Lemma str_of_int_visible (z : Z) : forallb visible (str_of_int z) = true.
Proof.
  destruct z as [|p|p]; unfold str_of_int; cbn [forallb];
    rewrite ?andb_true_l; apply digits_visible, str_of_N_ascii.
Qed.

(** Text that starts and ends with a digit is its own [strip]. *)
Lemma strip_between_digits (a m b : str) :
  forallb is_ascii_digit a = true -> a <> [] ->
  forallb is_ascii_digit b = true -> b <> [] ->
  strip (a ++ m ++ b) = a ++ m ++ b.
Proof.
  intros Ha Hna Hb Hnb. unfold strip.
  assert (lstrip_with py_isspace (a ++ m ++ b) = a ++ m ++ b) as ->.
  { destruct a as [|c a']; [done|]. cbn [forallb] in Ha.
    apply andb_true_iff in Ha as [Hc _].
    apply ascii_digit_not_space, negb_true_iff in Hc.
    cbn [app lstrip_with]. by rewrite Hc. }
  assert (exists c r, rev b = c :: r /\ is_ascii_digit c = true) as (c & r & E & Hc).
  { rewrite <- forallb_rev in Hb. destruct (rev b) as [|c r] eqn:E.
    - apply (f_equal (@rev N)) in E. rewrite rev_involutive in E. done.
    - cbn [forallb] in Hb. apply andb_true_iff in Hb as [Hc _]. by exists c, r. }
  apply ascii_digit_not_space, negb_true_iff in Hc.
  unfold rstrip_with. rewrite (app_assoc a m b), rev_app_distr, E.
  cbn [app lstrip_with]. rewrite Hc.
  replace (c :: r ++ rev (a ++ m)) with (rev ((a ++ m) ++ b))
    by (by rewrite rev_app_distr, E).
  apply rev_involutive.
Qed.

Lemma zfill_nonempty (w : nat) (n : N) : zfill (S w) n <> [].
Proof.
  intros E. apply (f_equal length) in E. by rewrite zfill_length in E.
Qed.

Lemma fmt_dt_strip (t : datetime) : strip (fmt_dt t) = fmt_dt t.
Proof.
  unfold fmt_dt, fmt_ymd, fmt_hms. rewrite <- !app_assoc.
  match goal with
  | |- strip (?a ++ ?rest) = _ =>
      match rest with
      | context C [zfill 2 (Z.to_N (second t))] =>
          let m := context C [@nil N] in
          replace rest with (m ++ zfill 2 (Z.to_N (second t)))
            by (by rewrite <- ?app_assoc, ?app_nil_r)
      end
  end.
  apply strip_between_digits;
    [apply zfill_ascii|apply zfill_nonempty|apply zfill_ascii|apply zfill_nonempty].
Qed.

Lemma fmt_dt_visible_or_space (t : datetime) : forallb text_char_ok (fmt_dt t) = true.
Proof.
  unfold fmt_dt, fmt_ymd, fmt_hms. rewrite !forallb_app.
  assert (forall w n, forallb text_char_ok (zfill w n) = true) as Hz.
  { intros w n. apply (forallb_impl visible); [apply visible_text|].
    apply digits_visible, zfill_ascii. }
  by rewrite !Hz.
Qed.

(** ** Reading back a printed duration *)

Lemma round_half_even_compat (x y : Q) :
  (x == y)%Q -> round_half_even x = round_half_even y.
Proof.
  intros H. unfold round_half_even. rewrite (Qfloor_comp x y H).
  assert ((x - inject_Z (Qfloor y) ?= 1 # 2) = (y - inject_Z (Qfloor y) ?= 1 # 2))%Q
    as -> by (by rewrite H).
  done.
Qed.

Lemma py_round_compat (nd : nat) (x y : Q) :
  (x == y)%Q -> py_round nd (Fin x) = py_round nd (Fin y).
Proof.
  intros H. unfold py_round, scaled.
  rewrite (round_half_even_compat (x * pow10 nd) (y * pow10 nd)); [done|].
  by rewrite H.
Qed.

Lemma round_half_even_nonneg (x : Q) : (0 <= x)%Q -> (0 <= round_half_even x)%Z.
Proof.
  intros H. assert (0 <= Qfloor x)%Z as Hf.
  { change 0%Z with (Qfloor 0). by apply Qfloor_resp_le. }
  unfold round_half_even.
  destruct (x - inject_Z (Qfloor x) ?= 1 # 2)%Q; [|lia|lia].
  destruct (Z.even (Qfloor x)); lia.
Qed.

Lemma scaled_nonneg (nd : nat) (q : Q) : (0 <= q)%Q -> (0 <= scaled nd q)%Z.
Proof.
  intros H. apply round_half_even_nonneg. apply Qmult_le_0_compat; [done|].
  unfold pow10. change 0%Q with (inject_Z 0). rewrite <- Zle_Qle. lia.
Qed.

Lemma split_at_none (p : N -> bool) (s : str) :
  forallb (fun c => negb (p c)) s = true -> split_at p s = (s, None).
Proof.
  induction s as [|c r IH]; [done|]. cbn [forallb split_at].
  rewrite andb_true_iff, negb_true_iff. intros [-> Hr]. by rewrite (IH Hr).
Qed.

Lemma split_at_hit (p : N -> bool) (s : str) (c : N) (r : str) :
  forallb (fun c => negb (p c)) s = true -> p c = true ->
  split_at p (s ++ c :: r) = (s, Some r).
Proof.
  intros Hs Hc. induction s as [|a s IH]; cbn [app split_at]; [by rewrite Hc|].
  cbn [forallb] in Hs. apply andb_true_iff in Hs as [Ha Hs].
  apply negb_true_iff in Ha. by rewrite Ha, (IH Hs).
Qed.

Lemma digits_opt_digits (s : str) :
  forallb is_ascii_digit s = true -> s <> [] ->
  digits_opt s = Some (dec_value 0 s, length s).
Proof.
  intros Hd Hn. unfold digits_opt. destruct s as [|c r] eqn:E; [done|]. rewrite <- E in *.
  rewrite (int_digits_value IntStart 0 s Hd Hn) by done.
  do 3 f_equal. clear Hn E. induction s as [|a s IH]; [done|].
  cbn [forallb] in Hd. apply andb_true_iff in Hd as [Ha Hs]. cbn [List.filter].
  assert ((a =? 95) = false) as ->.
  { revert Ha. unfold is_ascii_digit, between. bool_cases. }
  cbn [negb length]. by rewrite (IH Hs).
Qed.

Lemma lower_digit (c : N) : is_ascii_digit c = true -> lower c = c.
Proof. unfold is_ascii_digit, lower, between. bool_cases. Qed.

Lemma digits_lack (p : N -> bool) (s : str) :
  (forall c, is_ascii_digit c = true -> p c = false) ->
  forallb is_ascii_digit s = true -> forallb (fun c => negb (p c)) s = true.
Proof.
  intros Hp. apply forallb_impl. intros c Hc. by rewrite (Hp c Hc).
Qed.

Lemma digit_not_exponent (c : N) :
  is_ascii_digit c = true -> (c =? 101) || (c =? 69) = false.
Proof. unfold is_ascii_digit, between. bool_cases. Qed.

Lemma digit_not_point (c : N) : is_ascii_digit c = true -> (46 =? c) = false.
Proof. unfold is_ascii_digit, between. bool_cases. Qed.

(** [float] of digits, a point and digits. *)
Lemma py_float_decimal (ip fp : str) :
  forallb is_ascii_digit ip = true -> ip <> [] ->
  forallb is_ascii_digit fp = true -> fp <> [] ->
  py_float (ip ++ 46 :: fp)
  = Some (Fin (inject_Z (Z.of_N (dec_value 0 ip))
               + inject_Z (Z.of_N (dec_value 0 fp)) / pow10 (length fp))).
Proof.
  intros Hi Hni Hf Hnf.
  assert (forallb visible (ip ++ 46 :: fp) = true) as Hvis.
  { rewrite forallb_app. cbn [forallb].
    by rewrite (digits_visible ip Hi), (digits_visible fp Hf). }
  unfold py_float. rewrite (int_strip_visible _ Hvis).
  destruct ip as [|c ip'] eqn:E; [done|]. rewrite <- E in *.
  assert (is_ascii_digit c = true) as Hc.
  { rewrite E in Hi. cbn [forallb] in Hi. by apply andb_true_iff in Hi as [? _]. }
  assert (split_sign (ip ++ 46 :: fp) = (false, ip ++ 46 :: fp)) as ->.
  { rewrite E. cbn [app split_sign]. revert Hc. unfold is_ascii_digit, between.
    bool_cases. }
  assert (forall w : str, List.hd 0 w <> c ->
            bool_decide (List.map lower (ip ++ 46 :: fp) = w) = false) as Hno.
  { intros w Hw. apply bool_decide_eq_false_2. intros Heq. apply Hw.
    rewrite <- Heq, E. cbn [app List.map List.hd]. by apply lower_digit. }
  rewrite !Hno.
  2-4: cbn; intros <-; by vm_compute in Hc.
  cbn [orb].
  rewrite split_at_none.
  2:{ rewrite forallb_app. cbn [forallb].
      by rewrite (digits_lack _ ip digit_not_exponent Hi),
        (digits_lack _ fp digit_not_exponent Hf). }
  rewrite (split_at_hit (N.eqb 46) ip 46 fp (digits_lack _ ip digit_not_point Hi))
    by done.
  cbn [default]. unfold id.
  rewrite (digits_opt_digits ip Hi Hni), (digits_opt_digits fp Hf Hnf).
  destruct (length ip + length fp)%nat eqn:El; [|done].
  rewrite E in El. cbn [length] in El. lia.
Qed.

(** Dropping zeros keeps the number the digits spell. *)
Lemma drop_zeros_split (s : str) : exists k, s = repeat 48 k ++ drop_zeros s.
Proof.
  induction s as [|c r IH]; [by exists 0%nat|].
  destruct r as [|c' r']; [by exists 0%nat|]. rewrite drop_zeros_cons.
  destruct (N.eqb_spec c 48) as [->|_]; [|by exists 0%nat].
  destruct IH as [k Hk]. exists (S k). cbn [repeat app]. by rewrite <- Hk.
Qed.

Lemma rstrip_zeros_split (s : str) : exists k, s = rstrip_zeros s ++ repeat 48 k.
Proof.
  unfold rstrip_zeros. destruct (drop_zeros_split (rev s)) as [k Hk]. exists k.
  rewrite <- (rev_involutive s) at 1. rewrite Hk at 1.
  rewrite rev_app_distr. f_equal. clear. induction k as [|k IH]; [done|].
  cbn [repeat rev]. rewrite IH. clear. induction k as [|k IH]; [done|].
  cbn [repeat app]. by rewrite IH.
Qed.

Lemma dec_value_zeros (acc : N) (k : nat) :
  dec_value acc (repeat 48 k) = acc * 10 ^ N.of_nat k.
Proof.
  revert acc. induction k as [|k IH]; intros acc.
  - cbn. lia.
  - cbn [repeat]. unfold dec_value in *. cbn [fold_left]. rewrite IH.
    rewrite Nat2N.inj_succ, N.pow_succ_r'. lia.
Qed.

Lemma rstrip_zeros_ascii (s : str) :
  forallb is_ascii_digit s = true -> forallb is_ascii_digit (rstrip_zeros s) = true.
Proof.
  intros H. unfold rstrip_zeros. rewrite forallb_rev. apply drop_zeros_ascii.
  by rewrite forallb_rev.
Qed.

Lemma rstrip_zeros_nonempty (s : str) : s <> [] -> rstrip_zeros s <> [].
Proof.
  intros H E. unfold rstrip_zeros in E. apply (f_equal (@rev N)) in E.
  rewrite rev_involutive in E. cbn [rev] in E. revert E. apply drop_zeros_nonempty.
  intros E. apply H. apply (f_equal (@rev N)) in E. by rewrite rev_involutive in E.
Qed.

Lemma pow10_pos (k : nat) : (0 < 10 ^ Z.of_nat k)%Z.
Proof. apply Z.pow_pos_nonneg; lia. Qed.

Lemma positional_value (i v : N) (len k : nat) :
  (len + k = 6)%nat ->
  (inject_Z (Z.of_N i) + inject_Z (Z.of_N v) / pow10 len
   == inject_Z (Z.of_N (i * 1000000 + v * 10 ^ N.of_nat k)) / pow10 6)%Q.
Proof.
  intros Hl. unfold pow10. rewrite <- Hl.
  rewrite N2Z.inj_add, !N2Z.inj_mul, N2Z.inj_pow, nat_N_Z.
  change (Z.of_N 10) with 10%Z.
  replace (Z.of_N 1000000) with (10 ^ Z.of_nat (len + k))%Z by (by rewrite Hl).
  rewrite Nat2Z.inj_add, Z.pow_add_r by lia.
  pose proof (pow10_pos len) as Ha. pose proof (pow10_pos k) as Hb. revert Ha Hb.
  generalize (10 ^ Z.of_nat len)%Z (10 ^ Z.of_nat k)%Z. intros A B HA HB.
  rewrite !inject_Z_plus, !inject_Z_mult. field.
  repeat split; intros E; unfold Qeq in E; cbn in E; nia.
Qed.

(** The value of the positional form: [i] units and the fraction [f] of a
    million, its trailing zeros dropped. *)
Lemma py_float_positional (i f : N) :
  f < 1000000 ->
  exists m,
    py_float (str_of_N i ++ lit "." ++ rstrip_zeros (zfill 6 f)) = Some (Fin m)
    /\ (m == inject_Z (Z.of_N (i * 1000000 + f)) / pow10 6)%Q.
Proof.
  intros Hf. eexists. split.
  { apply py_float_decimal.
    - apply str_of_N_ascii.
    - apply str_of_N_nonempty.
    - apply rstrip_zeros_ascii, zfill_ascii.
    - apply rstrip_zeros_nonempty, zfill_nonempty. }
  rewrite str_of_N_value.
  destruct (rstrip_zeros_split (zfill 6 f)) as [k Hk].
  pose proof (dec_value_zfill 6 f 0) as Hv. rewrite Hk in Hv at 1.
  rewrite dec_value_app, dec_value_zeros in Hv.
  rewrite N.mod_small in Hv by (cbn; lia).
  pose proof (f_equal length Hk) as Hl.
  rewrite zfill_length, length_app, repeat_length in Hl.
  replace (i * 1000000 + f)
    with (i * 1000000 + dec_value 0 (rstrip_zeros (zfill 6 f)) * 10 ^ N.of_nat k)
    by lia.
  by apply positional_value.
Qed.

(** [float(str(x))] for a float [x] that [round(., 6)] gave: the value is
    [n] millionths. *)
Lemma py_float_repr_micro (n : N) :
  exists m,
    py_float (repr_micro n) = Some (Fin m)
    /\ (m == inject_Z (Z.of_N n) / pow10 6)%Q.
Proof.
  destruct (N.ltb_spec n 100) as [Hsmall|Hbig].
  - revert n Hsmall.
    refine (below_cases 100
              (fun n => exists m, py_float (repr_micro n) = Some (Fin m)
                                  /\ (m == inject_Z (Z.of_N n) / pow10 6)%Q) _).
    each_below; (eexists; split; [by vm_compute|by vm_compute]).
  - unfold repr_micro.
    rewrite (proj2 (N.eqb_neq n 0)) by lia.
    rewrite (proj2 (N.ltb_ge n 10)) by lia.
    rewrite (proj2 (N.ltb_ge n 100)) by lia.
    destruct (py_float_positional (n / 1000000) (n mod 1000000)) as (m & Hm & Hv).
    { apply N.mod_upper_bound. lia. }
    exists m. split; [exact Hm|]. rewrite Hv.
    by rewrite (N.mul_comm (n / 1000000)), <- N.div_mod by lia.
Qed.

Lemma safe_float_str_round6 (q : Q) :
  (0 <= q)%Q ->
  py_round 3 (_safe_float (str_round6 (Fin q))) = py_round 3 (py_round 6 (Fin q)).
Proof.
  intros Hq. pose proof (scaled_nonneg 6 q Hq) as Hk.
  change (py_round 6 (Fin q)) with (Fin (inject_Z (scaled 6 q) / pow10 6)).
  unfold str_round6.
  destruct (py_float_repr_micro (Z.to_N (scaled 6 q))) as (m & Hm & Hv).
  rewrite Z2N.id in Hv by done.
  assert (_safe_float (repr_micro (Z.to_N (scaled 6 q))) = Fin m) as Hs
      by (unfold _safe_float; by rewrite Hm).
  destruct (scaled 6 q) as [|p|p] eqn:E; [| |lia].
  - rewrite Hs. by apply py_round_compat.
  - rewrite Hs. by apply py_round_compat.
Qed.

Lemma repr_micro_visible (n : N) : forallb visible (repr_micro n) = true.
Proof.
  assert (forall k, forallb visible (str_of_N k) = true) as Hn
      by (intros k; apply digits_visible, str_of_N_ascii).
  unfold repr_micro.
  destruct (n =? 0); [done|]. destruct (n <? 10).
  { by rewrite forallb_app, Hn. }
  destruct (n <? 100).
  { destruct (n mod 10 =? 0); rewrite !forallb_app, ?Hn; done. }
  rewrite !forallb_app, Hn. cbn [lit forallb]. 
  rewrite (digits_visible _ (rstrip_zeros_ascii _ (zfill_ascii 6 _))). done.
Qed.

Lemma str_round6_visible (x : pyfloat) : forallb visible (str_round6 x) = true.
Proof.
  destruct x as [q|[|]|]; try done. unfold str_round6.
  destruct (scaled 6 q); cbn [forallb]; rewrite ?repr_micro_visible; done.
Qed.

(** ** The record codec: what the day query reads in a built record *)

Lemma find_canon_entities (occ : Element) :
  e_tag occ = lit "occupation" ->
  find (lit "occupation") (canon (append_child occ new_entities)) = Some (canon occ).
Proof.
  intros Htag. unfold find. cbn [canon append_child new_entities new_element app
    List.map e_children List.find].
  assert (e_tag (canon occ) = lit "occupation") as -> by (by destruct occ).
  by rewrite bool_decide_eq_true_2.
Qed.

Section Built.
Variables (occ_id : Z) (technician_code : str) (occ_dt : datetime)
  (duration_hours : pyfloat) (wo_code hour_type occupation_type comments : str).

Let occ : Element :=
  build_occupation_element occ_id technician_code occ_dt duration_hours
    wo_code hour_type occupation_type comments.

Lemma built_tag : e_tag occ = lit "occupation".
Proof.
  unfold occ, build_occupation_element. by destruct (strip occupation_type).
Qed.

Lemma built_date :
  find (lit "occupation_occupationDate") (canon occ)
  = Some (canon (set_text (fmt_dt occ_dt)
                   (new_element (lit "occupation_occupationDate") []))).
Proof.
  unfold occ, build_occupation_element. by destruct (strip occupation_type).
Qed.

Lemma built_duration :
  find (lit "occupation_duration") (canon occ)
  = Some (canon (set_text (str_round6 duration_hours)
                   (new_element (lit "occupation_duration") []))).
Proof.
  unfold occ, build_occupation_element. by destruct (strip occupation_type).
Qed.

Lemma built_wo :
  find (lit "occupation_WO") (canon occ)
  = Some (new_element (lit "occupation_WO") [(lit "code", wo_code)]).
Proof.
  unfold occ, build_occupation_element. by destruct (strip occupation_type).
Qed.

Lemma built_hour_type :
  find (lit "occupation_hourType") (canon occ)
  = Some (new_element (lit "occupation_hourType") [(lit "code", hour_type)]).
Proof.
  unfold occ, build_occupation_element. by destruct (strip occupation_type).
Qed.

Lemma built_type :
  find (lit "occupation_type") (canon occ)
  = match strip occupation_type with
    | [] => None
    | _ :: _ =>
        Some (new_element (lit "occupation_type") [(lit "code", strip occupation_type)])
    end.
Proof.
  unfold occ, build_occupation_element. by destruct (strip occupation_type).
Qed.

Lemma built_comment :
  match find (lit "occupation_comments") (canon occ) with
  | Some c => find (lit "description_description") c
  | None => None
  end
  = Some (canon (set_text (collapse_comment comments)
                   (new_element (lit "description_description") []))).
Proof.
  unfold occ, build_occupation_element. by destruct (strip occupation_type).
Qed.
End Built.

Lemma xml_safe_attr_leaf (tag key value : str) :
  is_name tag = true -> attr_ok (key, []) = true ->
  xml_safe (new_element tag [(key, value)]) = forallb attr_char_ok value.
Proof.
  intros Htag Hkey. unfold attr_ok in Hkey. cbn [fst snd forallb] in Hkey.
  rewrite andb_true_r in Hkey.
  unfold new_element. cbn [xml_safe forallb or_default List.map fst]. unfold attr_ok.
  cbn [fst snd]. rewrite Htag, Hkey.
  rewrite bool_decide_eq_true_2 by (apply NoDup_singleton).
  cbn [andb]. by rewrite !andb_true_r.
Qed.

Lemma xml_safe_text_leaf (tag text : str) :
  is_name tag = true ->
  xml_safe (set_text text (new_element tag [])) = forallb text_char_ok text.
Proof.
  intros Htag. unfold new_element, set_text. cbn [xml_safe forallb List.map].
  rewrite Htag. rewrite bool_decide_eq_true_2 by constructor.
  cbn [andb]. rewrite !andb_true_r. by destruct text.
Qed.

Lemma visible_attr_all (s : str) : forallb visible s = true -> forallb attr_char_ok s = true.
Proof. apply forallb_impl, visible_attr. Qed.

Lemma visible_text_all (s : str) : forallb visible s = true -> forallb text_char_ok s = true.
Proof. apply forallb_impl, visible_text. Qed.

Lemma built_safe (occ_id : Z) (technician_code : str) (occ_dt : datetime)
    (duration_hours : pyfloat) (wo_code hour_type occupation_type comments : str) :
  forallb attr_char_ok technician_code = true ->
  forallb attr_char_ok wo_code = true ->
  forallb attr_char_ok hour_type = true ->
  forallb attr_char_ok (strip occupation_type) = true ->
  forallb text_char_ok (collapse_comment comments) = true ->
  xml_safe (build_occupation_element occ_id technician_code occ_dt duration_hours
              wo_code hour_type occupation_type comments) = true.
Proof.
  intros Htech Hwo Hht Hot Hc. unfold build_occupation_element. cbv zeta.
  assert (xml_safe (new_element (lit "occupation") [(lit "id", str_of_int occ_id)]) = true)
    as H0.
  { rewrite xml_safe_attr_leaf by done. apply visible_attr_all, str_of_int_visible. }
  rewrite !xml_safe_append.
  rewrite (xml_safe_text_leaf (lit "occupation_id")) by done.
  rewrite (visible_text_all _ (str_of_int_visible occ_id)).
  rewrite (xml_safe_text_leaf (lit "description_description")) by done. rewrite Hc.
  assert (xml_safe (new_element (lit "occupation_comments") []) = true) as -> by done.
  assert (forall p : Element,
            xml_safe p = true ->
            xml_safe
              match strip occupation_type with
              | [] => p
              | _ :: _ =>
                  append_child
                    (new_element (lit "occupation_type")
                       [(lit "code", strip occupation_type)]) p
              end = true) as ->; [|done|].
  { intros p Hp. destruct (strip occupation_type) as [|c r] eqn:E; [done|].
    rewrite xml_safe_append, Hp. by rewrite xml_safe_attr_leaf. }
  rewrite !xml_safe_append, H0.
  rewrite !xml_safe_attr_leaf by done. rewrite Htech, Hwo, Hht.
  rewrite !xml_safe_text_leaf by done.
  by rewrite (visible_text_all _ (str_round6_visible duration_hours)), fmt_dt_visible_or_space.
Qed.

Lemma safe_text_leaf (tag text default : str) :
  (text = [] -> default = []) ->
  _safe_text (Some (canon (set_text text (new_element tag [])))) default = strip text.
Proof.
  intros Hd. unfold _safe_text, set_text, new_element. cbn [canon e_text].
  destruct text as [|c r]; [|done]. cbn [or_default opt_text]. by rewrite Hd.
Qed.

Lemma safe_attr_leaf (tag key value : str) :
  _safe_attr (Some (new_element tag [(key, value)])) key [] = strip value.
Proof.
  unfold _safe_attr, attrib_get, new_element. cbn [e_attrib List.find fst snd].
  rewrite bool_decide_eq_true_2 by done. by destruct value.
Qed.

Lemma repr_micro_nonempty (n : N) : repr_micro n <> [].
Proof.
  assert (forall a b : str, b <> [] -> a ++ b <> []) as Happ.
  { intros a b Hb E. by apply app_eq_nil in E as [_ ?]. }
  unfold repr_micro. destruct (n =? 0); [done|].
  destruct (n <? 10); [by apply Happ|]. destruct (n <? 100); by apply Happ.
Qed.

Lemma str_round6_nonempty (x : pyfloat) : str_round6 x <> [].
Proof.
  destruct x as [q|[|]|]; try done. unfold str_round6.
  destruct (scaled 6 q); try done; apply repr_micro_nonempty.
Qed.

(** C6 (amended). A record whose time is a real calendar time with a
    four-digit year, whose duration is a number of hours between 0 and a
    million that is not stored halfway between two thousandths, and whose
    codes and collapsed comment hold only characters XML can carry, is read
    back from its single-record document, on the day of its time, as the row
    that holds: the time of day, the work-order code, hour type and
    occupation type without surrounding white space (an occupation type that
    is blank, and so not written, is read back as the empty text), the
    comment with its line breaks collapsed, and the duration rounded to six
    decimals and then to three decimals. *)
Theorem record_read_back
    (occ_id : Z) (technician_code : str) (occ_dt : datetime) (q : Q)
    (wo_code hour_type occupation_type comments : str) :
  datetime_ok occ_dt = true ->
  (0 <= q)%Q -> (q <= 1000000)%Q ->
  (scaled 6 q mod 1000 =? 500)%Z = false ->
  forallb attr_char_ok technician_code = true ->
  forallb attr_char_ok wo_code = true ->
  forallb attr_char_ok hour_type = true ->
  forallb attr_char_ok (strip occupation_type) = true ->
  forallb text_char_ok (collapse_comment comments) = true ->
  decode_file ET_fromstring (dt_date occ_dt)
    (Ok (build_entities_xml_with_one
           (build_occupation_element occ_id technician_code occ_dt (Fin q)
              wo_code hour_type occupation_type comments)))
  = Ok (Some {| r_time := fmt_hms occ_dt;
                r_wo := strip wo_code;
                r_time_type := strip hour_type;
                r_occ_type := strip occupation_type;
                r_hours := py_round 3 (py_round 6 (Fin q));
                r_comment := collapse_comment comments |}).
Proof.
  intros Hdt Hq _ _ Htech Hwo Hht Hot Hc.
  set (occ := build_occupation_element occ_id technician_code occ_dt (Fin q)
                wo_code hour_type occupation_type comments).
  pose proof (built_safe occ_id technician_code occ_dt (Fin q) wo_code hour_type
                occupation_type comments Htech Hwo Hht Hot Hc) as Hsafe.
  fold occ in Hsafe.
  unfold decode_file, build_entities_xml_with_one. rewrite lstrip_padding_xml.
  rewrite fromstring_xml_to_bytes; [|by rewrite xml_safe_append, Hsafe|done].
  do 2 f_equal.
  assert (occ_time (_safe_text (find (lit "occupation_occupationDate") (canon occ)) [])
          = Ok occ_dt) as Htime.
  { unfold occ. rewrite built_date, safe_text_leaf by done.
    rewrite fmt_dt_strip. by apply occ_time_fmt_dt. }
  rewrite (decode_root_kept (dt_date occ_dt) _ (canon occ) occ_dt); [| |by apply find_canon_entities, built_tag|done].
  2:{ by rewrite canon_append. }
  rewrite (proj2 (date_eqb_eq _ _) eq_refl). f_equal.
  unfold row_of, occ.
  rewrite built_wo, built_hour_type, built_type, built_duration, built_comment.
  rewrite !safe_attr_leaf.
  rewrite safe_text_leaf by (intros E; by apply str_round6_nonempty in E).
  rewrite safe_text_leaf by done.
  rewrite (strip_visible _ (str_round6_visible (Fin q))).
  rewrite (safe_float_str_round6 q Hq), collapse_comment_strip.
  f_equal. destruct (strip occupation_type) as [|c r] eqn:E; [done|].
  rewrite safe_attr_leaf, <- E. apply strip_idem.
Qed.

Lemma record_read_back_witness :
  decode_file ET_fromstring day_0108
    (Ok (build_entities_xml_with_one
           (build_occupation_element 301 (lit "ANN") at_172736 (Fin (3 # 4))
              (lit " WO-7 ") (lit "NORMAL") (lit "  ") (lit "oil" ++ [10] ++ lit "filter"))))
  = Ok (Some {| r_time := lit "17:27:36";
                r_wo := lit "WO-7";
                r_time_type := lit "NORMAL";
                r_occ_type := [];
                r_hours := Fin (750 # 1000);
                r_comment := lit "oil filter" |}).
Proof.
  exact (record_read_back 301 (lit "ANN") at_172736 (3 # 4)
           (lit " WO-7 ") (lit "NORMAL") (lit "  ") (lit "oil" ++ [10] ++ lit "filter")
           eq_refl ltac:(by vm_compute) ltac:(by vm_compute) eq_refl
           eq_refl eq_refl eq_refl eq_refl eq_refl).
Defined.

(** C6 (the claim as written fails on the duration). A record of ten
    minutes is stored as 0.166667 hours and is read back as 0.167 hours. *)
Lemma ten_minutes_read_back_as_0167 :
  str_round6 (Fin (10 # 60)) = lit "0.166667"
  /\ List.map r_hours
       (file_rows ET_fromstring day_0108
          (Ok (build_entities_xml_with_one record_ten_minutes)))
     = [Fin (167 # 1000)]
  /\ Qeq_bool (167 # 1000) (166667 # 1000000) = false
  /\ Qeq_bool (167 # 1000) (10 # 60) = false.
Proof. by vm_compute. Qed.

(** ** The atomic writer, run to its end *)

(** X5. A call of [atomic_write_bytes] that runs to its end leaves the
    content under the target path, leaves no temporary file, and leaves
    every other file as it was. *)
Theorem atomic_write_bytes_result (path hex : str) (content : bytes) (files : fs) :
  atomic_write_bytes path hex content files !! path = Some content
  /\ atomic_write_bytes path hex content files !! tmp_path path hex = None
  /\ forall p,
       p <> path -> p <> tmp_path path hex ->
       atomic_write_bytes path hex content files !! p = files !! p.
Proof.
  unfold atomic_write_bytes. cbv zeta. rewrite lookup_insert_eq.
  pose proof (tmp_path_fresh path hex) as Hne.
  split; [apply lookup_insert_eq|]. split.
  - rewrite lookup_insert_ne by done. apply lookup_delete_eq.
  - intros p Hp Ht. rewrite lookup_insert_ne by done.
    rewrite lookup_delete_ne by done. by rewrite lookup_insert_ne.
Qed.

(** ** Documents read back *)

(** X7. What [xml_to_bytes] writes for a tree of plain names and of
    characters XML can carry is parsed back to that tree (an empty text
    reads back as no text). *)
Theorem xml_to_bytes_parses_back (e : Element) :
  xml_safe e = true -> no_tail e = true ->
  ET_fromstring (xml_to_bytes e) = Some (canon e).
Proof. apply fromstring_xml_to_bytes. Qed.

Lemma xml_to_bytes_parses_back_witness :
  ET_fromstring (build_entities_xml_with_one record_plain)
  = Some (canon (append_child record_plain new_entities)).
Proof.
  apply (xml_to_bytes_parses_back (append_child record_plain new_entities));
    reflexivity.
Defined.

(** X11. The time [fmt_dt] writes is the time the day query reads: for a
    real calendar time with a four-digit year, [strptime] and [localize]
    accept the text and give the time back. *)
Theorem written_time_reads_back (t : datetime) :
  datetime_ok t = true -> occ_time (fmt_dt t) = Ok t.
Proof. apply occ_time_fmt_dt. Qed.

Lemma written_time_reads_back_witness :
  occ_time (lit "2026-01-08 17:27:36") = Ok at_172736.
Proof. apply (written_time_reads_back at_172736). reflexivity. Defined.

(** ** The aggregate appender, whatever the file holds *)



Lemma first_append_any (fromstring : bytes -> option Element)
    (nt : bool) (d : date) (occ : Element) (files : fs) :
  files !! daily_all_file_path d = None ->
  (nt = true -> fromstring [] = None) ->
  append_to_daily_all fromstring nt d occ files
  = (Ok tt, <[daily_all_file_path d := build_entities_xml_with_one occ]> files).
Proof.
  intros Hno Hnt. rewrite locked_append, Hno. cbn [default].
  do 3 f_equal. unfold build_entities_xml_with_one. do 2 f_equal.
  destruct nt; [|done]. unfold as_locked, envelope_for, envelope_of.
  change (lstrip_padding (lit " ")) with (@nil N). by rewrite Hnt.
Qed.

Lemma first_append_run (nt : bool) (d : date) (occ : Element) (files : fs) :
  files !! daily_all_file_path d = None ->
  append_to_daily_all ET_fromstring nt d occ files
  = (Ok tt, <[daily_all_file_path d := build_entities_xml_with_one occ]> files).
Proof. intros Hno. by apply first_append_any. Qed.



(** ** The order of the table *)

Lemma str_ltb_trans (a b c : str) :
  str_ltb a b = true -> str_ltb b c = true -> str_ltb a c = true.
Proof.
  revert b c. induction a as [|x a IH]; intros [|y b] [|z c]; cbn [str_ltb]; try done.
  rewrite !orb_true_iff, !andb_true_iff, !N.ltb_lt, !N.eqb_eq.
  intros [Hxy|[-> Hab]] [Hyz|[-> Hbc]]; try (left; lia).
  right. split; [done|]. by apply (IH b c).
Qed.

Lemma row_ltb_trans (a b c : Row) :
  row_ltb a b = true -> row_ltb b c = true -> row_ltb a c = true.
Proof.
  unfold row_ltb. rewrite !orb_true_iff, !andb_true_iff, !bool_decide_eq_true.
  intros [H1|[E1 H1]] [H2|[E2 H2]].
  - left. by apply (str_ltb_trans _ (r_time b)).
  - left. by rewrite <- E2.
  - left. by rewrite E1.
  - right. split; [congruence|]. by apply (str_ltb_trans _ (r_wo b)).
Qed.

Lemma str_ltb_irrefl (a : str) : str_ltb a a = false.
Proof.
  induction a as [|x a IH]; [done|]. cbn [str_ltb].
  by rewrite N.ltb_irrefl, N.eqb_refl, IH.
Qed.

Lemma row_ltb_irrefl (a : Row) : row_ltb a a = false.
Proof. unfold row_ltb. by rewrite !str_ltb_irrefl, andb_false_r. Qed.

Lemma str_ltb_total (a b : str) :
  str_ltb a b = true \/ a = b \/ str_ltb b a = true.
Proof.
  revert b. induction a as [|x a IH]; intros [|y b]; cbn [str_ltb]; auto.
  destruct (N.lt_trichotomy x y) as [H|[->|H]].
  - left. apply orb_true_iff. left. by apply N.ltb_lt.
  - destruct (IH b) as [H|[->|H]].
    + left. by rewrite N.eqb_refl, H, orb_true_r.
    + right. by left.
    + right. right. by rewrite N.eqb_refl, H, orb_true_r.
  - right. right. apply orb_true_iff. left. by apply N.ltb_lt.
Qed.

(** What is before [c] is before [b], or [b] is before [c]. *)
Lemma row_ltb_between (a b c : Row) :
  row_ltb a c = true -> row_ltb a b = true \/ row_ltb b c = true.
Proof.
  unfold row_ltb. rewrite !orb_true_iff, !andb_true_iff, !bool_decide_eq_true.
  intros Hac.
  destruct (str_ltb_total (r_time a) (r_time b)) as [H|[Et|H]]; [by left; left| |].
  - destruct Hac as [Hac|[Etc Hac]].
    + right. left. by rewrite <- Et.
    + destruct (str_ltb_total (r_wo a) (r_wo b)) as [Hw|[Ew|Hw]].
      * left. right. done.
      * right. right. split; [congruence|]. by rewrite <- Ew.
      * right. right. split; [congruence|]. by apply (str_ltb_trans _ (r_wo a)).
  - right. left. destruct Hac as [Hac|[Etc Hac]].
    + by apply (str_ltb_trans _ (r_time a)).
    + by rewrite <- Etc.
Qed.

Lemma insert_by_sorted {A} (lt : A -> A -> bool) (x : A) (l : list A) :
  (forall a, lt a a = false) ->
  (forall a b c, lt a b = true -> lt b c = true -> lt a c = true) ->
  (forall a b c, lt a c = true -> lt a b = true \/ lt b c = true) ->
  StronglySorted (fun a b => lt b a = false) l ->
  StronglySorted (fun a b => lt b a = false) (insert_by lt x l).
Proof.
  intros Hirr Htrans Hbetween. induction l as [|y r IH]; intros Hs.
  { repeat constructor. }
  apply StronglySorted_inv in Hs as [Hr Hy]. cbn [insert_by].
  destruct (lt y x) eqn:Hyx.
  - constructor; [by apply IH|].
    rewrite insert_by_perm. constructor; [|done].
    apply not_true_is_false. intros Hxy.
    pose proof (Hirr x) as Hx. by rewrite (Htrans x y x Hxy Hyx) in Hx.
  - constructor; [by constructor|]. constructor; [done|].
    revert Hy. apply List.Forall_impl. intros z Hz.
    apply not_true_is_false. intros Hzx.
    destruct (Hbetween z y x Hzx) as [H|H]; congruence.
Qed.

Lemma sort_by_sorted {A} (lt : A -> A -> bool) (l : list A) :
  (forall a, lt a a = false) ->
  (forall a b c, lt a b = true -> lt b c = true -> lt a c = true) ->
  (forall a b c, lt a c = true -> lt a b = true \/ lt b c = true) ->
  StronglySorted (fun a b => lt b a = false) (sort_by lt l).
Proof.
  intros Hirr Htrans Hbetween. induction l as [|x l IH]; [constructor|].
  unfold sort_by. cbn [fold_right]. by apply insert_by_sorted.
Qed.

(** X10. The table is in order of time, and of work order within a time:
    no row comes before a row that is above it. *)
Theorem entries_sorted_by_time_then_wo
    (fromstring : bytes -> option Element) (user_folder : folder) (selected_day : date) :
  StronglySorted (fun a b => row_ltb b a = false)
    (rows (get_user_entries_for_day fromstring user_folder selected_day)).
Proof.
  unfold get_user_entries_for_day. destruct user_folder as [entries|]; [|constructor].
  destruct (flat_map _ _) as [|row found] eqn:E; [constructor|].
  cbn [rows].
  apply sort_by_sorted; [apply row_ltb_irrefl|apply row_ltb_trans|apply row_ltb_between].
Qed.

(** ** The stored duration *)

Lemma round_half_even_close (x : Q) :
  (x - (1 # 2) <= inject_Z (round_half_even x) <= x + (1 # 2))%Q.
Proof.
  pose proof (Qfloor_le x) as Hlo. pose proof (Qlt_floor x) as Hhi.
  rewrite inject_Z_plus in Hhi. change (inject_Z 1) with 1%Q in Hhi.
  unfold round_half_even.
  destruct (Qcompare_spec (x - inject_Z (Qfloor x)) (1 # 2)) as [E|E|E].
  - destruct (Z.even (Qfloor x)); rewrite ?inject_Z_plus;
      change (inject_Z 1) with 1%Q; lra.
  - lra.
  - rewrite inject_Z_plus. change (inject_Z 1) with 1%Q. lra.
Qed.

Lemma safe_float_stored (q : Q) :
  (0 <= q)%Q ->
  exists m,
    _safe_float (str_round6 (Fin q)) = Fin m
    /\ (m == inject_Z (scaled 6 q) / pow10 6)%Q.
Proof.
  intros Hq. pose proof (scaled_nonneg 6 q Hq) as Hk.
  destruct (py_float_repr_micro (Z.to_N (scaled 6 q))) as (m & Hm & Hv).
  rewrite Z2N.id in Hv by done. exists m. split; [|done].
  unfold str_round6, _safe_float.
  destruct (scaled 6 q) as [|p|p] eqn:E; [by rewrite Hm|by rewrite Hm|lia].
Qed.

(** X12. The duration is stored to the millionth of an hour: for a duration
    between 0 and a million hours, the text [build_occupation_element]
    writes reads back, through [_safe_float], as a number that is not
    negative and within a millionth of the duration (the decimal written is
    within half a millionth; the other half leaves room for the rounding of
    the binary float that is read, which at this size is below a billionth). *)
Theorem stored_duration_is_close (q : Q) :
  (0 <= q)%Q -> (q <= 1000000)%Q ->
  exists m,
    _safe_float (str_round6 (Fin q)) = Fin m
    /\ (0 <= m)%Q
    /\ (q - (1 # 1000000) <= m <= q + (1 # 1000000))%Q.
Proof.
  intros Hq _. destruct (safe_float_stored q Hq) as (m & Hm & Hv).
  exists m. split; [done|].
  pose proof (scaled_nonneg 6 q Hq) as Hk.
  pose proof (round_half_even_close (q * pow10 6)) as Hc. fold (scaled 6 q) in Hc.
  assert (0 <= inject_Z (scaled 6 q))%Q as Hk'
      by (change 0%Q with (inject_Z 0); by rewrite <- Zle_Qle).
  change (pow10 6) with (1000000 # 1)%Q in *.
  rewrite Hv. split; [|split].
  - unfold Qdiv. apply Qmult_le_0_compat; [done|]. by vm_compute.
  - apply Qle_shift_div_l; [by vm_compute|]. lra.
  - apply Qle_shift_div_r; [by vm_compute|]. lra.
Qed.

Lemma stored_duration_is_close_witness :
  exists m,
    _safe_float (lit "0.166667") = Fin m
    /\ (0 <= m)%Q
    /\ ((10 # 60) - (1 # 1000000) <= m <= (10 # 60) + (1 # 1000000))%Q.
Proof.
  apply (stored_duration_is_close (10 # 60)); by vm_compute.
Defined.

(** ** Durations typed as [HH:MM] *)

Lemma str_split_from_length (sep : N) (cur s : str) :
  length (str_split_from sep cur s) = S (length (List.filter (fun c => c =? sep) s)).
Proof.
  revert cur. induction s as [|c r IH]; intros cur; [done|].
  cbn [str_split_from List.filter]. destruct (c =? sep); cbn [length]; by rewrite IH.
Qed.

Lemma str_split_from_none (sep : N) (cur s : str) :
  forallb (fun c => negb (c =? sep)) s = true ->
  str_split_from sep cur s = [rev cur ++ s].
Proof.
  revert cur. induction s as [|c r IH]; intros cur H.
  - cbn. by rewrite app_nil_r.
  - cbn [forallb] in H. apply andb_true_iff in H as [Hc Hr].
    apply negb_true_iff in Hc. cbn [str_split_from]. rewrite Hc, (IH _ Hr).
    cbn [rev]. by rewrite <- app_assoc.
Qed.

Lemma str_split_two (sep : N) (a b : str) :
  forallb (fun c => negb (c =? sep)) a = true ->
  forallb (fun c => negb (c =? sep)) b = true ->
  str_split sep (a ++ sep :: b) = [a; b].
Proof.
  intros Ha Hb. unfold str_split.
  assert (forall cur, str_split_from sep cur (a ++ sep :: b) = [rev cur ++ a; b]) as H.
  { induction a as [|c r IH]; intros cur.
    - cbn [app str_split_from]. rewrite N.eqb_refl, app_nil_r.
      by rewrite (str_split_from_none sep [] b Hb).
    - cbn [forallb] in Ha. apply andb_true_iff in Ha as [Hc Hr].
      apply negb_true_iff in Hc. cbn [app str_split_from]. rewrite Hc, (IH Hr).
      cbn [rev]. by rewrite <- app_assoc. }
  apply (H []).
Qed.

(** X13. [parse_hhmm_to_hours] never gives a negative duration: it gives
    nothing, or the hours and minutes it read, the minutes below sixty, as
    hours plus sixtieths. *)
Theorem parse_hhmm_never_negative (hhmm : option str) :
  parse_hhmm_to_hours hhmm = None
  \/ exists hh mm : Z,
       (0 <= hh)%Z /\ (0 <= mm < 60)%Z
       /\ parse_hhmm_to_hours hhmm = Some (Fin (inject_Z hh + inject_Z mm / 60))
       /\ (0 <= inject_Z hh + inject_Z mm / 60)%Q.
Proof.
  unfold parse_hhmm_to_hours. cbv zeta.
  destruct (strip (or_default hhmm [])) as [|c s]; [by left|].
  destruct (negb _); [by left|].
  destruct (str_split 58 (c :: s)) as [|p0 [|p1 [|? ?]]]; try by left.
  destruct (py_int p0) as [hh|]; [|by left].
  destruct (py_int p1) as [mm|]; [|by left].
  destruct ((hh <? 0) || (mm <? 0) || (60 <=? mm))%Z eqn:E; [by left|].
  rewrite !orb_false_iff, !Z.ltb_ge, Z.leb_gt in E. destruct E as [[Hh Hm] Hm'].
  unfold float_of_int.
  destruct (float_overflow <=? Z.abs hh)%Z; [by left|].
  destruct (float_overflow <=? Z.abs mm)%Z; [by left|].
  right. exists hh, mm. repeat split; try done.
  assert (0 <= inject_Z hh)%Q by (change 0%Q with (inject_Z 0); by rewrite <- Zle_Qle).
  assert (0 <= inject_Z mm)%Q by (change 0%Q with (inject_Z 0); by rewrite <- Zle_Qle).
  assert (0 <= inject_Z mm / 60)%Q by (apply Qle_shift_div_l; [done|lra]).
  lra.
Qed.

(** X15. A duration needs exactly one colon: text that, stripped, holds
    none or more than one gives nothing. *)
Theorem parse_hhmm_needs_one_colon (hhmm : option str) :
  length (List.filter (fun c => c =? 58) (strip (or_default hhmm []))) <> 1%nat ->
  parse_hhmm_to_hours hhmm = None.
Proof.
  intros H. unfold parse_hhmm_to_hours. cbv zeta.
  destruct (strip (or_default hhmm [])) as [|c s] eqn:E; [done|].
  destruct (negb _); [done|].
  pose proof (str_split_from_length 58 [] (c :: s)) as Hl. fold (str_split 58 (c :: s)) in Hl.
  destruct (str_split 58 (c :: s)) as [|p0 [|p1 [|? ?]]]; try done.
  cbn [length] in Hl. exfalso. apply H. lia.
Qed.

Lemma parse_hhmm_needs_one_colon_witness :
  parse_hhmm_to_hours (Some (lit "1:30:00")) = None.
Proof.
  apply (parse_hhmm_needs_one_colon (Some (lit "1:30:00"))). by vm_compute.
Defined.

Lemma no_colon_in_digits (s : str) :
  forallb is_ascii_digit s = true -> forallb (fun c => negb (c =? 58)) s = true.
Proof.
  apply forallb_impl. intros c. unfold is_ascii_digit, between. bool_cases.
Qed.

Lemma parse_hhmm_clock_value (w : nat) (h m : N) :
  h < 10 ^ N.of_nat (S w) -> h < 1000000 -> m < 60 ->
  parse_hhmm_to_hours (Some (zfill (S w) h ++ lit ":" ++ zfill 2 m))
  = Some (Fin (inject_Z (Z.of_N h) + inject_Z (Z.of_N m) / 60)).
Proof.
  intros Hh Hsmall Hm. unfold parse_hhmm_to_hours. cbv zeta.
  assert (or_default (Some (zfill (S w) h ++ lit ":" ++ zfill 2 m)) []
          = zfill (S w) h ++ lit ":" ++ zfill 2 m) as ->.
  { pose proof (zfill_nonempty w h). by destruct (zfill (S w) h). }
  rewrite strip_between_digits
    by (apply zfill_ascii || apply zfill_nonempty).
  pose proof (zfill_nonempty w h) as Hne.
  destruct (zfill (S w) h ++ lit ":" ++ zfill 2 m) as [|c s] eqn:E.
  { by destruct (zfill (S w) h). }
  rewrite <- E. clear c s E.
  assert (existsb (N.eqb 58) (zfill (S w) h ++ lit ":" ++ zfill 2 m) = true) as ->.
  { rewrite existsb_app. cbn [lit]. apply orb_true_iff. right. done. }
  cbn [negb]. change (lit ":" ++ zfill 2 m) with (58 :: zfill 2 m).
  rewrite str_split_two by (apply no_colon_in_digits, zfill_ascii).
  rewrite !py_int_digits by (apply zfill_ascii || apply zfill_nonempty).
  rewrite !dec_value_zfill, !N.mul_0_l, !N.add_0_l.
  rewrite (N.mod_small h) by done. rewrite (N.mod_small m) by (cbn; lia).
  assert ((Z.of_N h <? 0) || (Z.of_N m <? 0) || (60 <=? Z.of_N m) = false)%Z as ->.
  { rewrite !orb_false_iff, !Z.ltb_ge, Z.leb_gt. lia. }
  assert (1000000 < float_overflow)%Z as Hbig by (by vm_compute).
  unfold float_of_int.
  revert Hbig. generalize float_overflow. intros lim Hbig.
  rewrite (proj2 (Z.leb_gt lim (Z.abs (Z.of_N h)))) by lia.
  rewrite (proj2 (Z.leb_gt lim (Z.abs (Z.of_N m)))) by lia.
  done.
Qed.

(** X14. Clock text is read as written: hours below a million printed on
    up to three hundred digits, a colon and minutes below sixty printed on
    two digits give the hours plus the minutes over sixty, to within a
    billionth of an hour (the room the rounding of the binary floats takes
    at this size). *)
Theorem parse_hhmm_of_clock_text (w : nat) (h m : N) :
  (w < 300)%nat -> h < 10 ^ N.of_nat (S w) -> h < 1000000 -> m < 60 ->
  exists v,
    parse_hhmm_to_hours (Some (zfill (S w) h ++ lit ":" ++ zfill 2 m)) = Some (Fin v)
    /\ (inject_Z (Z.of_N h) + inject_Z (Z.of_N m) / 60 - (1 # 1000000000) <= v
        <= inject_Z (Z.of_N h) + inject_Z (Z.of_N m) / 60 + (1 # 1000000000))%Q.
Proof.
  intros _ Hh Hsmall Hm. eexists. split; [by apply parse_hhmm_clock_value|].
  split; lra.
Qed.

Lemma parse_hhmm_of_clock_text_witness :
  exists v,
    parse_hhmm_to_hours (Some (lit "00:45")) = Some (Fin v)
    /\ (0 + 45 / 60 - (1 # 1000000000) <= v <= 0 + 45 / 60 + (1 # 1000000000))%Q.
Proof.
  apply (parse_hhmm_of_clock_text 1 0 45); [lia|by vm_compute..].
Defined.

(** ** The counter under the lock *)

Lemma read_counter_at_least (b : bytes) (w : Z) :
  read_counter b = Ok w -> (COUNTER_START <= w)%Z.
Proof.
  unfold read_counter.
  destruct (if isdigit _ then _ else _) as [current|e]; [|done].
  intros [= <-]. destruct (Z.ltb_spec current COUNTER_START); lia.
Qed.

(** The statement of process [i] changes the invariant as follows. *)
Lemma counter_inv_update (w0 w w' : Z) (i : nat) (p p' : pc) (s : system) (sh' : shared) :
  counter_inv w0 w s ->
  procs s !! i = Some p ->
  (w <= w')%Z ->
  counter sh' <> None ->
  (lock sh' = None -> read_counter (counter_now sh') = Ok w') ->
  proc_ok sh' w0 w' i p' ->
  (forall j q, j <> i -> procs s !! j = Some q ->
               proc_ok (sh s) w0 w j q -> proc_ok sh' w0 w' j q) ->
  (forall c, p' = Finished (Ok c) ->
             forall j cj, j <> i -> procs s !! j = Some (Finished (Ok cj)) -> c <> cj) ->
  counter_inv w0 w' {| sh := sh'; procs := <[i := p']> (procs s) |}.
Proof.
  intros (Hw & Hc & Hl & Hp & Hd) Hi Hww Hc' Hl' Hp' Hothers Hnew.
  assert (i < length (procs s))%nat as Hlen by (by eapply lookup_lt_Some).
  unfold counter_inv. cbn [sh procs]. split; [lia|]. split; [done|]. split; [done|].
  split.
  - intros j q Hj. destruct (decide (j = i)) as [->|Hne].
    + rewrite list_lookup_insert_eq in Hj by done. by injection Hj as <-.
    + rewrite list_lookup_insert_ne in Hj by done. by apply Hothers, Hp.
  - intros j k cj ck Hjk Hj Hk.
    destruct (decide (j = i)) as [->|Hji]; destruct (decide (k = i)) as [->|Hki];
      try done.
    + rewrite list_lookup_insert_eq in Hj by done. injection Hj as ->.
      rewrite list_lookup_insert_ne in Hk by done. by apply (Hnew cj eq_refl k ck).
    + rewrite list_lookup_insert_eq in Hk by done. injection Hk as ->.
      rewrite list_lookup_insert_ne in Hj by done.
      intros E. by apply (Hnew ck eq_refl j cj).
    + rewrite list_lookup_insert_ne in Hj, Hk by done. by apply (Hd j k).
Qed.

Ltac others_kept :=
  let j := fresh "j" in
  let q := fresh "q" in
  intros j q ? ? ?; destruct q; cbn [proc_ok lock counter counter_now set_lock set_counter] in *;
  try done;
  repeat match goal with
    | H : _ /\ _ |- _ => destruct H
    | H : exists _, _ |- _ => destruct H
    end;
  try congruence;
  try (eexists; split; [done|lia]).

Lemma counter_inv_step (w0 w : Z) (i : nat) (s s' : system) :
  counter_inv w0 w s -> step i s = Some s' -> exists w', counter_inv w0 w' s'.
Proof.
  intros Hinv Hstep. unfold step in Hstep.
  destruct (procs s !! i) as [p|] eqn:Hi; [|done].
  destruct (step_proc i p (sh s)) as [[p' sh']|] eqn:Hp; [|done].
  injection Hstep as <-.
  pose proof Hinv as (Hw & Hc & Hl & Hall & Hd).
  pose proof (Hall i p Hi) as Hok.
  destruct (counter (sh s)) as [content|] eqn:Hcontent; [|done].
  destruct p; cbn [step_proc proc_ok] in Hp, Hok; try done.
  - (* AtExists *)
    rewrite Hcontent in Hp. injection Hp as <- <-. exists w.
    apply (counter_inv_update w0 w w i AtExists _ s _ Hinv Hi);
      [lia|by rewrite Hcontent|done|done|others_kept|done].
  - (* AtLockExists *)
    rewrite Hcontent in Hp. injection Hp as <- <-. exists w.
    apply (counter_inv_update w0 w w i AtLockExists _ s _ Hinv Hi);
      [lia|by rewrite Hcontent|done|done|others_kept|done].
  - (* AtOpen *)
    rewrite Hcontent in Hp. injection Hp as <- <-. exists w.
    apply (counter_inv_update w0 w w i AtOpen _ s _ Hinv Hi);
      [lia|by rewrite Hcontent|done|done|others_kept|done].
  - (* AtFlock *)
    destruct (lock (sh s)) as [holder|] eqn:Hlock; [done|]. injection Hp as <- <-.
    exists w.
    apply (counter_inv_update w0 w w i AtFlock _ s _ Hinv Hi);
      [lia|by cbn; rewrite Hcontent|done| |others_kept|done].
    cbn. split; [done|]. by apply Hl.
  - (* AtRead *)
    destruct Hok as [Hlock Hread]. rewrite Hread in Hp. injection Hp as <- <-.
    exists w.
    apply (counter_inv_update w0 w w i AtRead _ s _ Hinv Hi);
      [lia|by rewrite Hcontent|by rewrite Hlock|done|others_kept|done].
  - (* AtTruncate *)
    destruct Hok as [Hlock ->]. injection Hp as <- <-. exists w.
    apply (counter_inv_update w0 w w i (AtTruncate w) _ s _ Hinv Hi);
      [lia|done|by cbn; rewrite Hlock|done|others_kept|done].
  - (* AtWrite *)
    destruct Hok as (Hlock & -> & Hempty). injection Hp as <- <-. exists w.
    apply (counter_inv_update w0 w w i (AtWrite w) _ s _ Hinv Hi);
      [lia|done|by cbn; rewrite Hlock| |others_kept|done].
    cbn [proc_ok set_counter lock]. split; [done|]. split; [done|].
    unfold counter_now. cbn [counter default]. fold (counter_now (sh s)).
    rewrite Hempty, drop_nil, app_nil_r.
    change (read_counter (encode_utf8 (str_of_int (w + 1))) = Ok (w + 1)%Z).
    unfold COUNTER_START in *. rewrite read_counter_str by lia.
    f_equal. unfold COUNTER_START. lia.
  - (* AtUnlock *)
    destruct Hok as (Hlock & -> & Hread). injection Hp as <- <-.
    exists (w + 1)%Z.
    apply (counter_inv_update w0 w (w + 1) i (AtUnlock (Ok w)) _ s _ Hinv Hi);
      [lia|by cbn; rewrite Hcontent|done| |others_kept|].
    + cbn. exists w. split; [done|]. lia.
    + intros c [= <-] j cj Hj Hjf. pose proof (Hall j _ Hjf) as (c' & [= <-] & Hlt).
      lia.
Qed.

Lemma counter_inv_run (w0 : Z) (sched : list nat) (s s' : system) (w : Z) :
  counter_inv w0 w s -> run sched s = Some s' -> exists w', counter_inv w0 w' s'.
Proof.
  revert s w. induction sched as [|i rest IH]; intros s w Hinv Hrun.
  - injection Hrun as <-. by exists w.
  - cbn [run] in Hrun. destruct (step i s) as [s1|] eqn:Hstep; [|done].
    destruct (counter_inv_step w0 w i s s1 Hinv Hstep) as [w1 H1].
    by apply (IH s1 w1).
Qed.

Lemma counter_inv_calls (n : nat) (b : bytes) (w0 : Z) :
  read_counter b = Ok w0 -> counter_inv w0 w0 (calls n (Some b)).
Proof.
  intros Hread. pose proof (read_counter_at_least b w0 Hread) as Hge.
  unfold counter_inv, calls. cbn [sh procs counter lock]. split; [lia|].
  split; [done|]. split; [done|]. split.
  - intros i p Hp. apply lookup_replicate_1 in Hp as [-> _]. done.
  - intros i j ci cj _ Hi. by apply lookup_replicate_1 in Hi as [? _].
Qed.

(** X16. Once the day's counter file exists, holding at most a thousand
    7-bit bytes, the lock does its work: whatever the number of calls
    running at once (up to a million) and however their statements
    interleave, no call raises, every call that has returned got an id at or
    above the value the file held, and no two calls got the same id. *)
Theorem locked_calls_distinct_ids
    (n : nat) (b : bytes) (w0 : Z) (sched : list nat) (s : system) :
  is_ascii b = true -> (length b <= 1000)%nat -> (Z.of_nat n <= 1000000)%Z ->
  read_counter b = Ok w0 ->
  run sched (calls n (Some b)) = Some s ->
  (forall i r, returned s !! i = Some (Some r) -> exists c, r = Ok c /\ (w0 <= c)%Z)
  /\ (forall i j ci cj,
        i <> j ->
        returned s !! i = Some (Some (Ok ci)) ->
        returned s !! j = Some (Some (Ok cj)) -> ci <> cj).
Proof.
  intros _ _ _ Hread Hrun.
  destruct (counter_inv_run w0 sched _ s w0 (counter_inv_calls n b w0 Hread) Hrun)
    as (w & _ & _ & _ & Hall & Hd).
  assert (forall i r, returned s !! i = Some (Some r) ->
                      procs s !! i = Some (Finished r)) as Hret.
  { intros i r. unfold returned. rewrite list_lookup_fmap.
    destruct (procs s !! i) as [p|]; [|done]. cbn. by destruct p; intros [= <-]. }
  split.
  - intros i r Hr. apply Hret in Hr. destruct (Hall i _ Hr) as (c & -> & Hc).
    exists c. split; [done|lia].
  - intros i j ci cj Hij Hi Hj. apply (Hd i j); [done|by apply Hret|by apply Hret].
Qed.

Lemma locked_calls_distinct_ids_witness :
  exists s,
    run alternating_schedule (calls 2 (Some (lit "412"))) = Some s
    /\ returned s = [Some (Ok 412%Z); Some (Ok 413%Z)]
    /\ (forall i j ci cj,
          i <> j ->
          returned s !! i = Some (Some (Ok ci)) ->
          returned s !! j = Some (Some (Ok cj)) -> ci <> cj).
Proof.
  eexists. split; [by vm_compute|]. split; [reflexivity|].
  apply (locked_calls_distinct_ids 2 (lit "412") 412 alternating_schedule);
    [reflexivity|cbn; lia|lia|by vm_compute|by vm_compute].
Defined.

(** ** The aggregate file over a day *)

Lemma xml_safe_envelope_with (cs : list Element) :
  xml_safe (envelope_with cs) = forallb xml_safe cs.
Proof.
  unfold envelope_with. cbn [xml_safe].
  destruct (forallb xml_safe cs); reflexivity.
Qed.

Lemma append_to_envelope (nt : bool) (d : date) (r : Element) (cs : list Element)
    (files : fs) :
  files !! daily_all_file_path d = Some (xml_to_bytes (envelope_with cs)) ->
  forallb xml_safe cs = true ->
  append_to_daily_all ET_fromstring nt d r files
  = (Ok tt,
     <[daily_all_file_path d :=
         xml_to_bytes (envelope_with (List.map canon cs ++ [r]))]> files).
Proof.
  intros Hfile Hcs. rewrite locked_append, Hfile.
  change (default [] (Some ?x)) with x.
  assert (exists c rest, xml_to_bytes (envelope_with cs) = c :: rest) as (c & rest & E).
  { by eexists _, _. }
  assert (as_locked nt (xml_to_bytes (envelope_with cs)) = xml_to_bytes (envelope_with cs))
    as -> by (rewrite E; by destruct nt).
  assert (envelope_for ET_fromstring (xml_to_bytes (envelope_with cs))
          = envelope_with (List.map canon cs)) as ->; [|done].
  rewrite E at 1. cbn [envelope_for]. rewrite <- E. unfold envelope_of.
  rewrite lstrip_padding_xml, fromstring_xml_to_bytes;
    [|by rewrite xml_safe_envelope_with|done].
  by rewrite bool_decide_eq_true_2.
Qed.

Lemma forallb_xml_safe_canon (cs : list Element) :
  forallb xml_safe cs = true -> forallb xml_safe (List.map canon cs) = true.
Proof.
  induction cs as [|c cs IH]; [done|]. cbn [forallb List.map].
  rewrite !andb_true_iff. intros [Hc Hcs]. split; [by apply xml_safe_canon|by apply IH].
Qed.

Lemma append_all_to_envelope (nt : bool) (d : date) (rs cs : list Element) (r : Element)
    (files : fs) :
  files !! daily_all_file_path d = Some (xml_to_bytes (envelope_with (cs ++ [r]))) ->
  forallb xml_safe cs = true -> xml_safe r = true -> forallb xml_safe rs = true ->
  exists cs' r',
    append_all ET_fromstring nt d rs files !! daily_all_file_path d
    = Some (xml_to_bytes (envelope_with (cs' ++ [r'])))
    /\ List.map canon (cs' ++ [r']) = List.map canon (cs ++ [r] ++ rs)
    /\ forallb xml_safe (cs' ++ [r']) = true.
Proof.
  revert cs r files. induction rs as [|r1 rs IH]; intros cs r files Hfile Hcs Hr Hrs.
  - exists cs, r. split; [done|]. rewrite app_nil_r. split; [done|].
    rewrite forallb_app, Hcs. cbn. by rewrite Hr.
  - cbn [forallb] in Hrs. apply andb_true_iff in Hrs as [Hr1 Hrs].
    assert (forallb xml_safe (cs ++ [r]) = true) as Hall
        by (rewrite forallb_app, Hcs; cbn; by rewrite Hr).
    unfold append_all. cbn [fold_left].
    rewrite (append_to_envelope nt d r1 (cs ++ [r]) files Hfile Hall). cbn [snd].
    destruct (IH (List.map canon (cs ++ [r])) r1
                (<[daily_all_file_path d :=
                     xml_to_bytes (envelope_with (List.map canon (cs ++ [r]) ++ [r1]))]> files))
      as (cs' & r' & Hf & Hmap & Hsafe);
      [apply lookup_insert_eq|by apply forallb_xml_safe_canon|done|done|].
    exists cs', r'. split; [exact Hf|]. split; [|done].
    rewrite Hmap. clear. rewrite !List.map_app, !List.map_map.
    rewrite (List.map_ext (fun x => canon (canon x)) canon canon_idem).
    cbn [List.map app]. rewrite canon_idem. by rewrite <- !app_assoc.
Qed.

(** X17. Records appended one call after the other, on a day [day_ok]
    accepts that had no aggregate file: when the records are made of plain
    names and of characters XML can carry and are at most a hundred levels
    deep, the file then parses as the [entities] envelope whose children are
    exactly the records, in the order of the calls (each as it reads back:
    an empty text reads back as no text). *)
Theorem aggregate_holds_records_in_order (nt : bool) (d : date) (r : Element)
    (rs : list Element) (files : fs) :
  day_ok d = true ->
  files !! daily_all_file_path d = None ->
  forallb xml_safe (r :: rs) = true ->
  forallb shallow (r :: rs) = true ->
  exists content,
    append_all ET_fromstring nt d (r :: rs) files !! daily_all_file_path d = Some content
    /\ ET_fromstring (lstrip_padding content)
       = Some (envelope_with (List.map canon (r :: rs))).
Proof.
  intros _ Hno Hsafe _. cbn [forallb] in Hsafe. apply andb_true_iff in Hsafe as [Hr Hrs].
  unfold append_all. cbn [fold_left].
  rewrite first_append_run by done. cbn [snd].
  destruct (append_all_to_envelope nt d rs [] r
              (<[daily_all_file_path d := build_entities_xml_with_one r]> files))
    as (cs' & r' & Hf & Hmap & Hall); [apply lookup_insert_eq|done|done|done|].
  eexists. split; [exact Hf|].
  rewrite lstrip_padding_xml, fromstring_xml_to_bytes;
    [|by rewrite xml_safe_envelope_with|done].
  f_equal. unfold envelope_with. cbn [canon or_default opt_text]. by rewrite Hmap.
Qed.

Lemma aggregate_holds_records_in_order_witness :
  exists content,
    append_all ET_fromstring false day_0108 [record_plain; record_ten_minutes] ∅
      !! daily_all_file_path day_0108 = Some content
    /\ ET_fromstring (lstrip_padding content)
       = Some (envelope_with [canon record_plain; canon record_ten_minutes]).
Proof.
  apply (aggregate_holds_records_in_order false day_0108 record_plain
           [record_ten_minutes] ∅); vm_compute; reflexivity.
Defined.
